(** * SGCF front-end script: form serialisation, submission pipeline,
      mock gateway and theme preference

    A shallow embedding of [src/script.js].  JavaScript objects used as
    dictionaries are finite maps from property names to values, the DOM is
    a record of the nodes the script reads and writes, and a handler is a
    computation in a small state-and-exception monad over that record.

    Modelling conventions.
    - Strings are byte strings; [startsWith] and [endsWith] are only ever
      applied with ASCII patterns, for which bytes and UTF-16 units agree.
    - A plain object ([const data = {}]) is the map of its own properties.
      Field names are assumed not to be members of [Object.prototype].
    - Timers ([setTimeout]), the simulated latency and the console are not
      part of the state: no definition below reads them back. *)

From Stdlib Require Import QArith Qround.
From stdpp Require Import gmap strings list fin_maps pretty.

Close Scope Q_scope.
Open Scope string_scope.

(** ** JavaScript string primitives *)

Module JsString.

(** [s.startsWith(p)] *)
Definition startsWith (s p : string) : bool := String.prefix p s.

(** [s.endsWith(p)]: the last [length p] characters of [s] are [p]. *)
Definition endsWith (s p : string) : bool :=
  let n := String.length s in
  let m := String.length p in
  if (m <=? n)%nat then String.eqb (String.substring (n - m) m s) p
  else false.

(** JavaScript truthiness of a string: every string but the empty one. *)
Definition truthy (s : string) : bool :=
  match s with
  | EmptyString => false
  | String _ _ => true
  end.

(** [a || b] on strings. *)
Definition or_else (a b : string) : string := if truthy a then a else b.

End JsString.

(** ** Form controls *)

(** A listed form control, as [form.elements] yields it.  [defaultValue]
    and [defaultChecked] are what [form.reset()] restores. *)
Record element := Element {
  el_id : string;
  name : string;
  type : string;
  value : string;
  checked : bool;
  disabled : bool;
  defaultValue : string;
  defaultChecked : bool;
}.

(** A value of the serialised object: a scalar string or an array. *)
Inductive fieldval :=
| Scalar (s : string)
| Seq (l : list string).

Module FormHandler_serialize.

(** [['checkbox', 'radio'].includes(element.type)] *)
Definition is_check_or_radio (e : element) : bool :=
  String.eqb (type e) "checkbox" || String.eqb (type e) "radio".

(** The guard of the last branch:
    [type !== 'file' && type !== 'reset' && type !== 'submit'
     && type !== 'button']. *)
Definition is_plain_type (e : element) : bool :=
  negb (String.eqb (type e) "file") && negb (String.eqb (type e) "reset")
  && negb (String.eqb (type e) "submit")
  && negb (String.eqb (type e) "button").

(** Truthiness of [data[name]]: [undefined] and [''] are falsy, every
    array (the empty one too) and every other string is truthy. *)
Definition truthy (v : option fieldval) : bool :=
  match v with
  | None => false
  | Some (Scalar s) => JsString.truthy s
  | Some (Seq _) => true
  end.

(** The array that [data[name]] refers to once the inner
    [if (!Array.isArray(data[name])) data[name] = [data[name]]] has run. *)
Definition as_array (v : option fieldval) : list string :=
  match v with
  | Some (Seq l) => l
  | Some (Scalar s) => [s]
  | None => []
  end.

(** [data[name] || []] *)
Definition or_empty_array (v : option fieldval) : fieldval :=
  match v with
  | Some w => if truthy v then w else Seq []
  | None => Seq []
  end.

(** The body of the [forEach] callback of [serializeForm].  [data] holds
    the object's own properties.  The object is created as [{}] and so
    inherits from [Object.prototype]: for a control named after one of
    its properties ([constructor], [toString], [__proto__], ...) a read
    of [data[name]] finds the inherited value and a write to [__proto__]
    goes to its setter.  The map describes the source for every other
    name, among them all names ending in ['[]']; [own_names] below says
    that a form has no such control. *)
Definition serialize_step (data : gmap string fieldval) (e : element)
  : gmap string fieldval :=
  if JsString.truthy (name e) && negb (disabled e) && is_check_or_radio e
  then
    if checked e then
      if truthy (data !! name e) then
        <[name e := Seq (as_array (data !! name e) ++ [value e])]> data
      else if JsString.endsWith (name e) "[]" then
        <[name e := Seq [value e]]> data
      else
        <[name e := Scalar (value e)]> data
    else if String.eqb (type e) "checkbox" && negb (truthy (data !! name e))
    then
      if JsString.endsWith (name e) "[]" then
        <[name e := or_empty_array (data !! name e)]> data
      else data
    else data
  else if JsString.truthy (name e) && negb (disabled e) && is_plain_type e
  then <[name e := Scalar (value e)]> data
  else data.

(** [FormHandler.serializeForm]: the controls are visited in document
    order, starting from the empty object. *)
Definition serializeForm (form : list element) : gmap string fieldval :=
  fold_left serialize_step form ∅.

End FormHandler_serialize.

Export FormHandler_serialize.

(** ** The mock gateway: [Utils.fetchData] *)

Record mapPoint := MapPoint {
  mp_id : string;
  lat : Z;
  lng : Z;
  mp_value : Q;
  label : string;
  mp_severity : string;
}.

(** [timestamp] is the instant in milliseconds ([toISOString] is a
    rendering of it). *)
Record alert := Alert {
  al_id : string;
  region : string;
  level : string;
  al_message : string;
  timestamp : Z;
}.

Record dashboardData := DashboardData {
  globalHungerIndex : Q;
  peopleAffected : Z;
  fundingGap : Q;
  fundingProgress : Z;
  activeProjects : Z;
  lastUpdated : Z;
  mapData : list mapPoint;
  alerts : list alert;
}.

Record project := Project {
  pr_id : string;
  title : string;
  pr_region : string;
  pr_type : string;
  description : string;
  pr_fundingProgress : Z;
  fundingGoal : Z;
  image : string;
}.

Inductive payload :=
| Dashboard (d : dashboardData)
| Projects (l : list project)
| NoData.

(** The object a settled call resolves with: [{success, message, data}];
    an absent [message] is [None]. *)
Record response := Response {
  success : bool;
  message : option string;
  data : payload;
}.

(** What a promise settles to: a value, or an [Error] with its message. *)
Inductive settled (A : Type) :=
| Resolved (a : A)
| Rejected (msg : string).
Arguments Resolved {A} a.
Arguments Rejected {A} msg.

(** The [options] argument of [fetchData].  [body] is the object that was
    passed through [JSON.stringify]; [params] is [options.params]. *)
Record options := Options {
  method : option string;
  body : option (gmap string fieldval);
  params : option (gmap string string);
}.

Definition no_options : options :=
  {| method := None; body := None; params := None |}.

(** The draws of [Math.random()] and the clock reading used by one call of
    [fetchData].  Exact rationals stand in for doubles. *)
Record entropy := Entropy {
  r_hunger : Q;
  r_people : Q;
  r_gap : Q;
  r_progress : Q;
  r_projects : Q;
  now : Z;
}.

Module Utils.

Definition day_ms : Z := 86400000.

Definition mockMapData : list mapPoint :=
  [ MapPoint "AFR-SAH" 15 0 (385 # 10) "Sahel" "critical";
    MapPoint "ASIA-SE" 10 110 (151 # 10) "Sudeste Asiático" "moderate";
    MapPoint "LATAM-CA" 15 (-90) (22 # 1) "América Central" "high";
    MapPoint "MENA" 25 30 (289 # 10) "Oriente Médio/N. África" "high" ].

Definition mockAlerts (t : Z) : list alert :=
  [ Alert "ALERT001" "Sahel" "critical"
      "Seca severa impacta colheitas. Necessidade imediata de ajuda."
      (t - 2 * day_ms);
    Alert "ALERT002" "Iêmen" "high"
      "Acesso humanitário restrito. Voluntários de logística necessários."
      (t - 3 * day_ms);
    Alert "ALERT003" "Chifre da África" "critical"
      "Surto de Gafanhotos. Risco iminente."
      (t - 1 * day_ms);
    Alert "ALERT004" "América Central" "medium"
      "Impacto pós-furacão. Necessidade de sementes."
      (t - 7 * day_ms) ].

Definition allProjects : list project :=
  [ Project "PROJAFR05" "Controle de Gafanhotos no Chifre da África"
      "AFR-SAH" "agriculture_support"
      "Apoio a comunidades locais com monitoramento..."
      75 500000 "/assets/images/project-locust.jpg";
    Project "PROJLATAM02" "Alimentação Escolar na América Central"
      "LATAM-CA" "school_feeding"
      "Garantir refeições nutritivas diárias..."
      90 300000 "/assets/images/project-school-meal.jpg";
    Project "PROJASIA01" "Sementes Resilientes no Sudeste Asiático"
      "ASIA-SE" "agriculture_support"
      "Distribuição de sementes adaptadas..."
      60 400000 "/assets/images/project-seeds.jpg";
    Project "PROJMENA03" "Ajuda Emergencial no Iêmen"
      "MENA" "emergency_relief"
      "Kits de alimentos e higiene para famílias deslocadas."
      85 1000000 "/assets/images/project-emergency.jpg" ].

(** [options.params?.key || 'all'] *)
Definition filterParam (o : options) (key : string) : string :=
  match params o with
  | Some ps =>
      match ps !! key with
      | Some v => JsString.or_else v "all"
      | None => "all"
      end
  | None => "all"
  end.

Definition dashboardPayload (rnd : entropy) : dashboardData :=
  {| globalHungerIndex := (182 # 10) + (r_hunger rnd - (1 # 2));
     peopleAffected := 811 + Qfloor (r_people rnd * (10 # 1) - (5 # 1));
     fundingGap := (73 # 10) + (r_gap rnd - (1 # 2));
     fundingProgress := 65 + Qfloor (r_progress rnd * (10 # 1) - (5 # 1));
     activeProjects :=
       1245 + Qfloor (r_projects rnd * (20 # 1) - (10 # 1));
     lastUpdated := now rnd;
     mapData := mockMapData;
     alerts := mockAlerts (now rnd) |}%Q.

(** [Utils.fetchData(endpoint, options)], after its simulated delay. *)
Definition fetchData (rnd : entropy) (endpoint : string) (o : options)
  : settled response :=
  if JsString.startsWith endpoint "/dashboard" then
    Resolved {| success := true; message := None;
                data := Dashboard (dashboardPayload rnd) |}
  else if JsString.startsWith endpoint "/projects" then
    let regionFilter := filterParam o "region" in
    let typeFilter := filterParam o "type" in
    let filteredProjects :=
      List.filter
        (fun p =>
           (String.eqb regionFilter "all"
            || String.eqb (pr_region p) regionFilter)
           && (String.eqb typeFilter "all"
               || String.eqb (pr_type p) typeFilter))
        allProjects in
    Resolved {| success := true; message := None;
                data := Projects filteredProjects |}
  else if JsString.startsWith endpoint "/process-donation"
          || JsString.startsWith endpoint "/process-volunteer"
          || JsString.startsWith endpoint "/subscribe-newsletter" then
    Resolved {| success := true;
                message := Some "Dados recebidos com sucesso!";
                data := NoData |}
  else
    Rejected ("Falha ao buscar dados de " ++ endpoint).

(** The prefixes for which [fetchData] has a canned answer. *)
Definition mockedPrefixes : list string :=
  [ "/dashboard"; "/projects"; "/process-donation"; "/process-volunteer";
    "/subscribe-newsletter" ].

End Utils.

(** ** The page: the DOM nodes and logs the handlers touch *)

(** The submit button of a form.  [loader] tells whether a [.sgcf-loader]
    child is attached; assigning [textContent] replaces all children. *)
Record control := Control {
  ctl_disabled : bool;
  textContent : string;
  loader : bool;
}.

(** A [.sgcf-feedback] banner: its [feedback-<type>] class and its text. *)
Record notice := Notice {
  severity : string;
  notice_text : string;
}.

(** A form: its listed controls in document order, the first
    [button[type="submit"]] inside it if there is one, and the banner
    currently shown in its feedback container ([.form-actions] or the form
    itself), of which there is at most one. *)
Record form_dom := FormDom {
  elements : list element;
  submitButton : option control;
  feedback : option notice;
}.

(** One call that reached the gateway. *)
Record request := Request {
  req_endpoint : string;
  req_options : options;
}.

Inductive form_id := Donation | Volunteer | Newsletter.

(** The four conditional groups of the donation form hold [Some visible]
    when the node exists and [None] when the selector finds nothing;
    [presetActive] lists the [active] class of each preset-amount button;
    [volunteerTab] counts the synthetic clicks sent to [#tab-volunteer]. *)
Record page := Page {
  donation : form_dom;
  volunteer : form_dom;
  newsletter : form_dom;
  moneyFields : option bool;
  goodsFields : option bool;
  paymentGroup : option bool;
  pixDetails : option bool;
  presetActive : list bool;
  volunteerTab : option nat;
  calls : list request;
}.

Definition get_form (f : form_id) (p : page) : form_dom :=
  match f with
  | Donation => donation p
  | Volunteer => volunteer p
  | Newsletter => newsletter p
  end.

Definition set_form (f : form_id) (d : form_dom) (p : page) : page :=
  match f with
  | Donation =>
      Page d (volunteer p) (newsletter p) (moneyFields p) (goodsFields p)
        (paymentGroup p) (pixDetails p) (presetActive p) (volunteerTab p)
        (calls p)
  | Volunteer =>
      Page (donation p) d (newsletter p) (moneyFields p) (goodsFields p)
        (paymentGroup p) (pixDetails p) (presetActive p) (volunteerTab p)
        (calls p)
  | Newsletter =>
      Page (donation p) (volunteer p) d (moneyFields p) (goodsFields p)
        (paymentGroup p) (pixDetails p) (presetActive p) (volunteerTab p)
        (calls p)
  end.

Definition set_moneyFields (v : option bool) (p : page) : page :=
  Page (donation p) (volunteer p) (newsletter p) v (goodsFields p)
    (paymentGroup p) (pixDetails p) (presetActive p) (volunteerTab p)
    (calls p).

Definition set_goodsFields (v : option bool) (p : page) : page :=
  Page (donation p) (volunteer p) (newsletter p) (moneyFields p) v
    (paymentGroup p) (pixDetails p) (presetActive p) (volunteerTab p)
    (calls p).

Definition set_paymentGroup (v : option bool) (p : page) : page :=
  Page (donation p) (volunteer p) (newsletter p) (moneyFields p)
    (goodsFields p) v (pixDetails p) (presetActive p) (volunteerTab p)
    (calls p).

Definition set_pixDetails (v : option bool) (p : page) : page :=
  Page (donation p) (volunteer p) (newsletter p) (moneyFields p)
    (goodsFields p) (paymentGroup p) v (presetActive p) (volunteerTab p)
    (calls p).

Definition set_presetActive (v : list bool) (p : page) : page :=
  Page (donation p) (volunteer p) (newsletter p) (moneyFields p)
    (goodsFields p) (paymentGroup p) (pixDetails p) v (volunteerTab p)
    (calls p).

Definition set_volunteerTab (v : option nat) (p : page) : page :=
  Page (donation p) (volunteer p) (newsletter p) (moneyFields p)
    (goodsFields p) (paymentGroup p) (pixDetails p) (presetActive p) v
    (calls p).

Definition set_calls (v : list request) (p : page) : page :=
  Page (donation p) (volunteer p) (newsletter p) (moneyFields p)
    (goodsFields p) (paymentGroup p) (pixDetails p) (presetActive p)
    (volunteerTab p) v.

Definition set_elements (l : list element) (d : form_dom) : form_dom :=
  FormDom l (submitButton d) (feedback d).

Definition set_submitButton (b : option control) (d : form_dom) : form_dom :=
  FormDom (elements d) b (feedback d).

Definition set_feedback (n : option notice) (d : form_dom) : form_dom :=
  FormDom (elements d) (submitButton d) n.

(** The visibility of the four conditional groups, absent nodes counting
    as not visible. *)
Record visibility := Visibility {
  vis_money : bool;
  vis_goods : bool;
  vis_payment : bool;
  vis_pix : bool;
}.

Definition shown (v : option bool) : bool :=
  match v with
  | Some b => b
  | None => false
  end.

Definition visible_groups (p : page) : visibility :=
  {| vis_money := shown (moneyFields p);
     vis_goods := shown (goodsFields p);
     vis_payment := shown (paymentGroup p);
     vis_pix := shown (pixDetails p) |}.

(** ** Handlers as computations: state and exceptions *)

(** A thrown value: an [Error] built by the script, with its message, or
    the [TypeError] of reading a property of [null]. *)
Inductive exn :=
| JsError (msg : string)
| TypeError.

(** [error.message] as the [catch] clauses interpolate it.  The text of an
    engine's [TypeError] is not fixed by the language; it is never empty. *)
Definition exn_message (e : exn) : string :=
  match e with
  | JsError m => m
  | TypeError => "Cannot read properties of null"
  end.

Inductive outcome (A : Type) :=
| Return (a : A) (p : page)
| Raise (e : exn) (p : page).
Arguments Return {A} a p.
Arguments Raise {A} e p.

Definition final_page {A} (o : outcome A) : page :=
  match o with
  | Return _ p => p
  | Raise _ p => p
  end.

Definition M (A : Type) : Type := page → outcome A.

Definition ret {A} (a : A) : M A := fun p => Return a p.

Definition bind {A B} (k : A → M B) (m : M A) : M B :=
  fun p =>
    match m p with
    | Return a p' => k a p'
    | Raise e p' => Raise e p'
    end.

#[global] Instance M_ret : MRet M := @ret.
#[global] Instance M_bind : MBind M := @bind.

Definition throw {A} (e : exn) : M A := fun p => Raise e p.

Definition gets {A} (f : page → A) : M A := fun p => Return (f p) p.

Definition modify (f : page → page) : M unit := fun p => Return tt (f p).

(** [try { body } catch (error) { handler }]: [handler] runs on what
    [body] throws. *)
Definition attempt (body : M unit) (handler : exn → M unit) : M unit :=
  fun p =>
    match body p with
    | Return a p' => Return a p'
    | Raise e p' => handler e p'
    end.

(** [try { body } catch (error) { handler } finally { fin }]: [fin] runs
    last on every path, and an exception of [fin] replaces the pending
    completion. *)
Definition try_catch_finally (body : M unit) (handler : exn → M unit)
    (fin : M unit) : M unit :=
  fun p =>
    let r := attempt body handler p in
    match fin (final_page r) with
    | Return _ p'' =>
        match r with
        | Return a _ => Return a p''
        | Raise e _ => Raise e p''
        end
    | Raise e p'' => Raise e p''
    end.

Definition when (b : bool) (m : M unit) : M unit :=
  if b then m else ret tt.

(** ** DOM helpers *)

(** A detached node as [DOM.createEl] builds it. *)
#[warnings="-register-all"] Inductive node :=
| Node (tag : string) (className : string) (children : list node).

Definition node_tag (n : node) : string :=
  match n with Node t _ _ => t end.

Definition node_class (n : node) : string :=
  match n with Node _ c _ => c end.

(** The [options] object handed to [DOM.createEl], with the properties its
    callers pass.  [attributes], [textContent] and [id] only decorate the
    node and are left out. *)
Record createEl_options := CreateElOptions {
  opt_className : string;
  opt_children : list node;
  opt_innerHTML : string;
}.

Module DOM.

(** [DOM.createEl(tag, options)] reads [textContent], [className], [id],
    [attributes] and [children]; it never reads [options.innerHTML], so
    the node has exactly the children listed in [children]. *)
Definition createEl (tag : string) (o : createEl_options) : node :=
  Node tag (opt_className o) (opt_children o).

(** [n.querySelector(sel)] for a selector that tests one node
    ([matches]): the first descendant in document order. *)
Fixpoint querySelector (matches : node → bool) (n : node) : option node :=
  match n with
  | Node _ _ ch =>
      (fix first (l : list node) : option node :=
         match l with
         | [] => None
         | c :: r =>
             if matches c then Some c
             else match querySelector matches c with
                  | Some d => Some d
                  | None => first r
                  end
         end) ch
  end.

(** [DOM.show(element)] and [DOM.hide(element)]: nothing happens when
    the element is [null]. *)
Definition show (v : option bool) : option bool :=
  match v with
  | Some _ => Some true
  | None => None
  end.

Definition hide (v : option bool) : option bool :=
  match v with
  | Some _ => Some false
  | None => None
  end.

End DOM.

(** ** [UI]: loading indicator and feedback banner *)

Module UI.

Definition with_form (f : form_id) (g : form_dom → form_dom) : M unit :=
  modify (fun p => set_form f (g (get_form f p)) p).

Definition remove_loader (b : control) : control :=
  Control (ctl_disabled b) (textContent b) false.

Definition append_loader (b : control) : control :=
  Control (ctl_disabled b) (textContent b) true.

(** The loader node of [UI.showLoading]; the markup passed as
    [innerHTML] is never read (see [DOM.createEl]). *)
Definition loaderEl : node :=
  DOM.createEl "div"
    {| opt_className := "sgcf-loader";
       opt_children := [];
       opt_innerHTML :=
         "<div class='spinner'></div><span>Carregando...</span>" |}.

(** [UI.showLoading(submitButton)] for the submit button of form [f].
    A previous loader is removed and the new one is created; then
    [loader.querySelector('.spinner').style] and
    [loader.querySelector('span').style] are read, which throws when the
    query finds nothing; only after that is the loader appended. *)
Definition showLoading (f : form_id) : M unit :=
  b ← gets (fun p => submitButton (get_form f p));
  match b with
  | None => mret tt
  | Some _ =>
      with_form f (fun d =>
        set_submitButton (remove_loader <$> submitButton d) d);;
      match DOM.querySelector
              (fun n => String.eqb (node_class n) "spinner") loaderEl with
      | None => throw TypeError
      | Some _ =>
          match DOM.querySelector
                  (fun n => String.eqb (node_tag n) "span") loaderEl with
          | None => throw TypeError
          | Some _ =>
              with_form f (fun d =>
                set_submitButton (append_loader <$> submitButton d) d)
          end
      end
  end.

(** [UI.hideLoading(submitButton)]: [DOM.qs('.sgcf-loader', element)]
    dereferences [element]. *)
Definition hideLoading (f : form_id) : M unit :=
  b ← gets (fun p => submitButton (get_form f p));
  match b with
  | None => throw TypeError
  | Some _ =>
      with_form f (fun d =>
        set_submitButton (remove_loader <$> submitButton d) d)
  end.

(** [UI.displayFeedback(message, feedbackContainer, type)] with the
    feedback container of form [f], which always exists: the previous
    banner is removed and the new one is prepended. *)
Definition displayFeedback (msg : string) (f : form_id) (ty : string)
  : M unit :=
  with_form f (set_feedback (Some (Notice ty msg))).

(** [DOM.qs('.sgcf-feedback', feedbackContainer)?.remove()] *)
Definition removeFeedback (f : form_id) : M unit :=
  with_form f (set_feedback None).

End UI.

(** ** What the browser and the network provide *)

(** [gateway] is the promise [Utils.fetchData] settles to;
    [form_checkValidity] is [form.checkValidity()] on the current controls
    of a form; [input_checkValidity] is [checkValidity()] of one control. *)
Record host := Host {
  gateway : string → options → settled response;
  form_checkValidity : form_id → list element → bool;
  input_checkValidity : element → bool;
}.

(** [a || b] where [a] may be [undefined]. *)
Definition opt_or_else (a : option string) (b : string) : string :=
  match a with
  | Some s => JsString.or_else s b
  | None => b
  end.

(** Truthiness of a value that may be [undefined]. *)
Definition opt_truthy (a : option string) : bool :=
  match a with
  | Some s => JsString.truthy s
  | None => false
  end.

(** [a !== 'lit'] where [a] may be [undefined]. *)
Definition opt_differs (a : option string) (lit : string) : bool :=
  match a with
  | Some s => negb (String.eqb s lit)
  | None => true
  end.

(** [form.reset()] on one control: checkedness and value go back to the
    markup's; a checkbox or radio has no value of its own to restore. *)
Definition reset_element (e : element) : element :=
  {| el_id := el_id e; name := name e; type := type e;
     value := if is_check_or_radio e then value e else defaultValue e;
     checked := defaultChecked e; disabled := disabled e;
     defaultValue := defaultValue e; defaultChecked := defaultChecked e |}.

Definition form_reset (d : form_dom) : form_dom :=
  set_elements (reset_element <$> elements d) d.

(** [input[name="nm"]:checked], as a test on one control. *)
Definition checked_named (nm : string) (e : element) : bool :=
  String.eqb (name e) nm && is_check_or_radio e && checked e.

(** [DOM.qs('input[name="nm"]:checked', form)?.value] *)
Definition first_checked_value (nm : string) (l : list element)
  : option string :=
  value <$> List.find (checked_named nm) l.

(** [Array.from(DOM.qsa('input[name="nm"]:checked', form))
      .map(cb => cb.value)] *)
Definition checked_values (nm : string) (l : list element) : list string :=
  value <$> List.filter (checked_named nm) l.

(** [DOM.qs('input[name="payment_method"][value="pix"]:checked', form)]
    finds something. *)
Definition pix_checked (l : list element) : bool :=
  existsb
    (fun e => checked_named "payment_method" e && String.eqb (value e) "pix")
    l.

(** The page once a call has reached the gateway. *)
Definition record_call (endpoint : string) (o : options) (p : page) : page :=
  set_calls (calls p ++ [Request endpoint o]) p.

(** The [options] the three façade operations pass. *)
Definition post_options (payload : gmap string fieldval) : options :=
  {| method := Some "POST"; body := Some payload; params := None |}.

Section Pipeline.

Variable H : host.

(** [Utils.fetchData] as a step of a handler: the call is recorded and
    the handler resumes with the value or with the thrown error. *)
Definition fetchData (endpoint : string) (o : options) : M response :=
  modify (record_call endpoint o);;
  match gateway H endpoint o with
  | Resolved r => mret r
  | Rejected msg => throw (JsError msg)
  end.

(** ** [ApiService] *)

(** The shape shared by [submitDonation], [submitVolunteerForm] and
    [submitNewsletter]; their [catch] clause logs and rethrows. *)
Definition post (endpoint fallback : string)
    (payload : gmap string fieldval) : M response :=
  response ← fetchData endpoint (post_options payload);
  if success response then mret response
  else throw (JsError (opt_or_else (message response) fallback)).

Definition submitDonation (formData : gmap string fieldval) : M response :=
  post "/process-donation" "Falha ao processar doação." formData.

Definition submitVolunteerForm (formData : gmap string fieldval)
  : M response :=
  post "/process-volunteer" "Falha ao enviar inscrição." formData.

Definition submitNewsletter (email : string) : M response :=
  post "/subscribe-newsletter" "Falha ao inscrever na newsletter."
    {[ "email" := Scalar email ]}.

(** ** [FormHandler]: the donation form *)

(** [toggleDonationFields(selectedValue)] *)
Definition toggleDonationFields (selectedValue : string) : M unit :=
  modify (fun p => set_moneyFields (DOM.hide (moneyFields p)) p);;
  modify (fun p => set_goodsFields (DOM.hide (goodsFields p)) p);;
  modify (fun p => set_paymentGroup (DOM.hide (paymentGroup p)) p);;
  modify (fun p => set_pixDetails (DOM.hide (pixDetails p)) p);;
  if String.eqb selectedValue "money" then
    modify (fun p => set_moneyFields (DOM.show (moneyFields p)) p);;
    modify (fun p => set_paymentGroup (DOM.show (paymentGroup p)) p);;
    pixRadio ← gets (fun p => pix_checked (elements (donation p)));
    when pixRadio
      (modify (fun p => set_pixDetails (DOM.show (pixDetails p)) p))
  else if String.eqb selectedValue "goods" then
    modify (fun p => set_goodsFields (DOM.show (goodsFields p)) p)
  else if String.eqb selectedValue "time" then
    modify (fun p => set_volunteerTab (S <$> volunteerTab p) p)
  else mret tt.

(** [toggleDonationFields] never throws; this is the page it leaves. *)
Definition toggle_page (selectedValue : string) (p : page) : page :=
  final_page (toggleDonationFields selectedValue p).

(** The constants the submit listener closes over. *)
Record closure := Closure {
  initialDonationType : option string;
  initialPayment : option string;
}.

(** [FormHandler.initDonationForm], for a page that has the form: the
    part that runs at once.  [DOM.qs('.copy-pix-key', pixDetails)] calls
    [querySelector] on [pixDetails]. *)
Definition initDonationForm : M closure :=
  pix ← gets pixDetails;
  match pix with
  | None => throw TypeError
  | Some _ =>
      idt ← gets (fun p =>
        first_checked_value "donation_type" (elements (donation p)));
      when (opt_truthy idt) (toggleDonationFields (default "" idt));;
      ipay ← gets (fun p =>
        first_checked_value "payment_method" (elements (donation p)));
      when (opt_differs ipay "pix")
        (modify (fun p => set_pixDetails (DOM.hide (pixDetails p)) p));;
      mret (Closure idt ipay)
  end.

Definition set_disabled (v : bool) (b : control) : control :=
  Control v (textContent b) (loader b).

(** [button.textContent = s] replaces every child of the button. *)
Definition set_textContent (s : string) (b : control) : control :=
  Control (ctl_disabled b) s false.

Definition on_button (f : form_id) (g : control → control) : M unit :=
  UI.with_form f (fun d => set_submitButton (g <$> submitButton d) d).

(** The [finally] clause shared by the three listeners. *)
Definition unlock (f : form_id) (originalButtonText : string) : M unit :=
  UI.hideLoading f;;
  on_button f (set_disabled false);;
  on_button f (set_textContent originalButtonText).

(** The [try] block of the donation listener ([donation_resolved] is
    what follows the [await]), its [catch] clause and the whole
    statement. *)
Definition donation_resolved (cl : closure) (response : response)
  : M unit :=
  UI.displayFeedback
    (opt_or_else (message response) "Doação processada com sucesso!")
    Donation "success";;
  UI.with_form Donation form_reset;;
  when (opt_truthy (initialDonationType cl))
    (toggleDonationFields (default "" (initialDonationType cl)));;
  modify (fun p =>
    set_presetActive ((fun _ => false) <$> presetActive p) p);;
  when (opt_differs (initialPayment cl) "pix")
    (modify (fun p => set_pixDetails (DOM.hide (pixDetails p)) p)).

Definition donation_body (cl : closure) : M unit :=
  formData ← gets (fun p => serializeForm (elements (donation p)));
  response ← submitDonation formData;
  donation_resolved cl response.

Definition donation_catch (error : exn) : M unit :=
  UI.displayFeedback
    ("Erro ao processar doação: " ++ exn_message error) Donation "error".

Definition donation_try (cl : closure) (originalButtonText : string)
  : M unit :=
  try_catch_finally (donation_body cl) donation_catch
    (unlock Donation originalButtonText).

(** The [submit] listener of the donation form. *)
Definition donation_submit (cl : closure) : M unit :=
  UI.removeFeedback Donation;;
  valid ← gets (fun p =>
    form_checkValidity H Donation (elements (donation p)));
  if negb valid then
    UI.displayFeedback "Por favor, corrija os erros no formulário."
      Donation "error"
  else
    b ← gets (fun p => submitButton (donation p));
    match b with
    | None => throw TypeError
    | Some btn =>
        let originalButtonText := textContent btn in
        on_button Donation (set_disabled true);;
        on_button Donation (set_textContent "Processando...");;
        UI.showLoading Donation;;
        donation_try cl originalButtonText
    end.

(** ** [FormHandler]: the volunteer form *)

(** The object handed to [ApiService.submitVolunteerForm]: the
    serialised form with [formData.skills] assigned. *)
Definition volunteer_payload (l : list element) : gmap string fieldval :=
  <["skills" := Seq (checked_values "skills[]" l)]> (serializeForm l).

Definition volunteer_resolved (response : response) : M unit :=
  UI.displayFeedback
    (opt_or_else (message response)
       "Inscrição enviada com sucesso! Entraremos em contato.")
    Volunteer "success";;
  UI.with_form Volunteer form_reset.

Definition volunteer_body : M unit :=
  formData ← gets (fun p => volunteer_payload (elements (volunteer p)));
  response ← submitVolunteerForm formData;
  volunteer_resolved response.

Definition volunteer_catch (error : exn) : M unit :=
  UI.displayFeedback
    ("Erro ao enviar inscrição: " ++ exn_message error) Volunteer "error".

Definition volunteer_try (originalButtonText : string) : M unit :=
  try_catch_finally volunteer_body volunteer_catch
    (unlock Volunteer originalButtonText).

Definition volunteer_submit : M unit :=
  UI.removeFeedback Volunteer;;
  valid ← gets (fun p =>
    form_checkValidity H Volunteer (elements (volunteer p)));
  if negb valid then
    UI.displayFeedback "Por favor, preencha os campos obrigatórios."
      Volunteer "error"
  else
    b ← gets (fun p => submitButton (volunteer p));
    match b with
    | None => throw TypeError
    | Some btn =>
        let originalButtonText := textContent btn in
        on_button Volunteer (set_disabled true);;
        on_button Volunteer (set_textContent "Enviando...");;
        UI.showLoading Volunteer;;
        volunteer_try originalButtonText
    end.

(** ** [FormHandler]: the newsletter form *)

Definition newsletter_resolved (response : response) : M unit :=
  UI.displayFeedback
    (opt_or_else (message response) "Inscrição realizada com sucesso!")
    Newsletter "success";;
  UI.with_form Newsletter form_reset.

Definition newsletter_body (email : string) : M unit :=
  response ← submitNewsletter email;
  newsletter_resolved response.

Definition newsletter_catch (error : exn) : M unit :=
  UI.displayFeedback
    ("Erro na inscrição: " ++ exn_message error) Newsletter "error".

Definition newsletter_try (email originalButtonText : string) : M unit :=
  try_catch_finally (newsletter_body email) newsletter_catch
    (unlock Newsletter originalButtonText).

Definition newsletter_submit : M unit :=
  emailInput ← gets (fun p =>
    List.find (fun e => String.eqb (el_id e) "footer-newsletter-email")
      (elements (newsletter p)));
  match emailInput with
  | None => throw TypeError
  | Some input =>
      let email := value input in
      UI.removeFeedback Newsletter;;
      if negb (JsString.truthy email)
         || negb (input_checkValidity H input) then
        UI.displayFeedback "Por favor, insira um email válido."
          Newsletter "error"
      else
        b ← gets (fun p => submitButton (newsletter p));
        match b with
        | None => throw TypeError
        | Some btn =>
            let originalButtonText := textContent btn in
            on_button Newsletter (set_disabled true);;
            UI.showLoading Newsletter;;
            newsletter_try email originalButtonText
        end
  end.

End Pipeline.

(** ** The listeners [initDonationForm] attaches for user input *)

Definition set_checked (v : bool) (e : element) : element :=
  {| el_id := el_id e; name := name e; type := type e; value := value e;
     checked := v; disabled := disabled e;
     defaultValue := defaultValue e; defaultChecked := defaultChecked e |}.

Definition set_value (v : string) (e : element) : element :=
  {| el_id := el_id e; name := name e; type := type e; value := v;
     checked := checked e; disabled := disabled e;
     defaultValue := defaultValue e; defaultChecked := defaultChecked e |}.

Definition is_radio_of (nm : string) (e : element) : bool :=
  String.eqb (name e) nm && String.eqb (type e) "radio".

(** The browser's part of picking the radio of group [nm] whose value is
    [v]: that button becomes checked, the others of the group unchecked. *)
Definition select_radio (nm v : string) (l : list element) : list element :=
  (fun e => if is_radio_of nm e then set_checked (String.eqb (value e) v) e
            else e) <$> l.

Definition has_radio (nm v : string) (l : list element) : bool :=
  existsb (fun e => is_radio_of nm e && String.eqb (value e) v) l.

(** The browser's part of typing [v] into the text-like control [id]. *)
Definition type_into (id v : string) (l : list element) : list element :=
  (fun e => if String.eqb (el_id e) id && negb (is_check_or_radio e)
            then set_value v e else e) <$> l.

Inductive user_event :=
| ChooseDonationType (v : string)
| ChoosePaymentMethod (v : string)
| ClickPreset (i : nat) (amount : string)
| EditField (id v : string).

(** What one user gesture does: the browser updates the control, then
    the matching listener of [initDonationForm] runs. *)
Definition on_event (ev : user_event) : M unit :=
  match ev with
  | ChooseDonationType v =>
      can ← gets (fun p => has_radio "donation_type" v
                             (elements (donation p)));
      when can
        (UI.with_form Donation (fun d =>
           set_elements (select_radio "donation_type" v (elements d)) d);;
         toggleDonationFields v)
  | ChoosePaymentMethod v =>
      can ← gets (fun p => has_radio "payment_method" v
                             (elements (donation p)));
      when can
        (UI.with_form Donation (fun d =>
           set_elements (select_radio "payment_method" v (elements d)) d);;
         if String.eqb v "pix" then
           modify (fun p => set_pixDetails (DOM.show (pixDetails p)) p)
         else
           modify (fun p => set_pixDetails (DOM.hide (pixDetails p)) p))
  | ClickPreset i amount =>
      has_amount ← gets (fun p =>
        existsb (fun e => String.eqb (el_id e) "donation-amount")
          (elements (donation p)));
      when has_amount
        (UI.with_form Donation (fun d =>
           set_elements (type_into "donation-amount" amount (elements d))
             d);;
         modify (fun p =>
           set_presetActive
             (<[i := true]> ((fun _ => false) <$> presetActive p)) p))
  | EditField id v =>
      UI.with_form Donation (fun d =>
        set_elements (type_into id v (elements d)) d);;
      when (String.eqb id "donation-amount")
        (modify (fun p =>
           set_presetActive ((fun _ => false) <$> presetActive p) p))
  end.

(** A session: the gestures one after the other.  No listener throws,
    so the page is all that is carried along. *)
Definition session (evs : list user_event) (p : page) : page :=
  fold_left (fun q ev => final_page (on_event ev q)) evs p.


(** A page as the browser hands it to the script: every control in the
    state its markup gives it. *)
Definition pristine (e : element) : bool :=
  Bool.eqb (checked e) (defaultChecked e)
  && (is_check_or_radio e || String.eqb (value e) (defaultValue e)).

(** ** The program's own host: the mock gateway *)

Definition mock_host (rnd : entropy)
    (formValid : form_id → list element → bool)
    (inputValid : element → bool) : host :=
  {| gateway := Utils.fetchData rnd;
     form_checkValidity := formValid;
     input_checkValidity := inputValid |}.

(** ** Theme preference *)

Module Theme.

Definition themeLocalStorageKey : string := "sgcf_theme".

(** [appState.currentTheme], [localStorage], the classes of [body], the
    [aria-label] of the toggle button when the page has one, and the
    text last written to the live region. *)
Record state := State {
  currentTheme : string;
  localStorage : gmap string string;
  bodyClasses : list string;
  toggleLabel : option string;
  liveRegion : string;
}.

(** [localStorage.getItem(key) || 'light'], the initial
    [appState.currentTheme]. *)
Definition initialTheme (store : gmap string string) : string :=
  opt_or_else (store !! themeLocalStorageKey) "light".

Definition classList_remove (cs : list string) (l : list string)
  : list string :=
  List.filter (fun c => negb (existsb (String.eqb c) cs)) l.

Definition classList_add (c : string) (l : list string) : list string :=
  if existsb (String.eqb c) l then l else l ++ [c].

(** The label [updateThemeToggleButton] gives the button. *)
Definition buttonLabel (theme : string) : string :=
  if String.eqb theme "dark" then "Mudar para Tema Claro"
  else "Mudar para Tema Escuro".

(** The state once [initializeApp] has applied the stored theme. *)
Definition start (store : gmap string string) (classes : list string)
    (hasButton : bool) : state :=
  let theme := initialTheme store in
  {| currentTheme := theme;
     localStorage := store;
     bodyClasses :=
       classList_add ("theme-" ++ theme)
         (classList_remove ["theme-light"; "theme-dark"] classes);
     toggleLabel := if hasButton then Some (buttonLabel theme) else None;
     liveRegion := "" |}.

(** [toggleTheme()] *)
Definition toggleTheme (s : state) : state :=
  let theme :=
    if String.eqb (currentTheme s) "light" then "dark" else "light" in
  {| currentTheme := theme;
     localStorage := <[themeLocalStorageKey := theme]> (localStorage s);
     bodyClasses :=
       classList_add ("theme-" ++ theme)
         (classList_remove ["theme-light"; "theme-dark"] (bodyClasses s));
     toggleLabel := (fun _ => buttonLabel theme) <$> toggleLabel s;
     liveRegion :=
       "Tema alterado para "
       ++ (if String.eqb theme "dark" then "escuro" else "claro") ++ "." |}.

(** The persisted preference: the value stored under the theme key. *)
Definition persisted (s : state) : option string :=
  localStorage s !! themeLocalStorageKey.

End Theme.

(** ** Vocabulary of the statements about [serializeForm] *)

(** An enabled checkbox named [n] that is not checked. *)
Definition empty_box (n : string) (e : element) : bool :=
  String.eqb (name e) n && negb (disabled e)
  && String.eqb (type e) "checkbox" && negb (checked e).

(** An enabled checkbox named [n] that is checked. *)
Definition ticked_box (n : string) (e : element) : bool :=
  String.eqb (name e) n && negb (disabled e)
  && String.eqb (type e) "checkbox" && checked e.

(** An enabled control named [n] that is neither a checkbox nor a radio
    nor of an excluded type: it writes its scalar value under [n]. *)
Definition plain_field (n : string) (e : element) : bool :=
  String.eqb (name e) n && negb (disabled e)
  && negb (is_check_or_radio e) && is_plain_type e.

(** An enabled, checked checkbox or radio named [n]. *)
Definition ticked (n : string) (e : element) : bool :=
  String.eqb (name e) n && negb (disabled e)
  && is_check_or_radio e && checked e.

(** A checkbox named [n], whatever its state. *)
Definition box_of (n : string) (e : element) : bool :=
  String.eqb (name e) n && String.eqb (type e) "checkbox".

(** What is known of [data[n]] while a form is being serialised: it is
    truthy and, read as an array, has [x] as a subsequence. *)
Definition array_has (x : list string) (n : string)
    (d : gmap string fieldval) : Prop :=
  truthy (d !! n) = true ∧ x `sublist_of` as_array (d !! n).

(** The two statements about checkbox groups, read over every form and
    every listed control. *)
Definition unchecked_collection_claim : Prop :=
  ∀ (form : list element) (n : string),
    JsString.endsWith n "[]" = true →
    (∃ e, e ∈ form ∧ box_of n e = true) →
    (∀ e, e ∈ form → box_of n e = true → checked e = false) →
    serializeForm form !! n = Some (Seq []).

Definition duplicate_name_claim : Prop :=
  ∀ (l1 l2 l3 : list element) (a b : element) (n : string),
    JsString.endsWith n "[]" = false →
    box_of n a = true → checked a = true →
    box_of n b = true → checked b = true →
    ∃ l, serializeForm (l1 ++ a :: l2 ++ b :: l3)%list !! n = Some (Seq l)
         ∧ [value a; value b] `sublist_of` l.

(** Controls for the worked examples: a checkbox and a radio as markup
    declares them ([defaultChecked] is their [checked] attribute), and a
    text input. *)
Definition checkbox (n v : string) (isChecked isDisabled : bool) : element :=
  {| el_id := ""; name := n; type := "checkbox"; value := v;
     checked := isChecked; disabled := isDisabled;
     defaultValue := v; defaultChecked := isChecked |}.

Definition radio (n v : string) (isChecked : bool) : element :=
  {| el_id := ""; name := n; type := "radio"; value := v;
     checked := isChecked; disabled := false;
     defaultValue := v; defaultChecked := isChecked |}.

Definition textInput (id n v : string) : element :=
  {| el_id := id; name := n; type := "text"; value := v;
     checked := false; disabled := false;
     defaultValue := v; defaultChecked := false |}.

(** ** The three listeners side by side *)

(** The [submit] listener of form [f]. *)
Definition listener (H : host) (cl : closure) (f : form_id) : M unit :=
  match f with
  | Donation => donation_submit H cl
  | Volunteer => volunteer_submit H
  | Newsletter => newsletter_submit H
  end.

(** The [try] statement of the listener of form [f], with the constants
    the listener has bound by then. *)
Definition try_statement (H : host) (cl : closure) (f : form_id)
    (email originalButtonText : string) : M unit :=
  match f with
  | Donation => donation_try H cl originalButtonText
  | Volunteer => volunteer_try H originalButtonText
  | Newsletter => newsletter_try H email originalButtonText
  end.

(** The path the façade operation of form [f] posts to. *)
Definition endpoint_of (f : form_id) : string :=
  match f with
  | Donation => "/process-donation"
  | Volunteer => "/process-volunteer"
  | Newsletter => "/subscribe-newsletter"
  end.

(** The banner text of the validation branch of each listener. *)
Definition validation_message (f : form_id) : string :=
  match f with
  | Donation => "Por favor, corrija os erros no formulário."
  | Volunteer => "Por favor, preencha os campos obrigatórios."
  | Newsletter => "Por favor, insira um email válido."
  end.

(** The text each [catch] clause puts before [error.message]. *)
Definition error_prefix (f : form_id) : string :=
  match f with
  | Donation => "Erro ao processar doação: "
  | Volunteer => "Erro ao enviar inscrição: "
  | Newsletter => "Erro na inscrição: "
  end.

(** The label the button carries while the listener waits: the donation
    and volunteer listeners replace it, the newsletter one does not. *)
Definition busy_label (f : form_id) (original : string) : string :=
  match f with
  | Donation => "Processando..."
  | Volunteer => "Enviando..."
  | Newsletter => original
  end.

(** [#footer-newsletter-email] inside the newsletter form. *)
Definition emailInput_of (p : page) : option element :=
  List.find (fun e => String.eqb (el_id e) "footer-newsletter-email")
    (elements (newsletter p)).

(** The validation test of the listener of form [f] sends it down the
    error branch: [!form.checkValidity()] for the donation and volunteer
    forms, [!email || !emailInput.checkValidity()] for the newsletter. *)
Definition validation_fails (H : host) (f : form_id) (p : page) : bool :=
  match f with
  | Donation => negb (form_checkValidity H Donation (elements (donation p)))
  | Volunteer =>
      negb (form_checkValidity H Volunteer (elements (volunteer p)))
  | Newsletter =>
      match emailInput_of p with
      | Some input =>
          negb (JsString.truthy (value input))
          || negb (input_checkValidity H input)
      | None => false
      end
  end.

(** The nodes the listener of form [f] dereferences are there: the submit
    button and, for the newsletter, the email input. *)
Definition listener_nodes_present (f : form_id) (p : page) : bool :=
  match submitButton (get_form f p) with
  | Some _ =>
      match f with
      | Newsletter => bool_decide (is_Some (emailInput_of p))
      | _ => true
      end
  | None => false
  end.

(** ** Vocabulary of the statements about the listeners *)

(** [m] never throws. *)
Definition returns {A} (m : M A) : Prop :=
  ∀ p, ∃ a, m p = Return a (final_page (m p)).

(** The body of form [f]'s [try] block, its [catch] clause and what
    follows its [await]. *)
Definition body_of (H : host) (cl : closure) (f : form_id) (email : string)
  : M unit :=
  match f with
  | Donation => donation_body H cl
  | Volunteer => volunteer_body H
  | Newsletter => newsletter_body H email
  end.

Definition catch_of (f : form_id) : exn → M unit :=
  match f with
  | Donation => donation_catch
  | Volunteer => volunteer_catch
  | Newsletter => newsletter_catch
  end.

(** The selector of a conditional group found a node. *)
Definition present (v : option bool) : bool :=
  match v with
  | Some _ => true
  | None => false
  end.

(** Two pages have the same conditional groups (present or not) and the
    same donation controls once reset. *)
Definition same_markup (p q : page) : Prop :=
  present (moneyFields p) = present (moneyFields q)
  ∧ present (goodsFields p) = present (goodsFields q)
  ∧ present (paymentGroup p) = present (paymentGroup q)
  ∧ present (pixDetails p) = present (pixDetails q)
  ∧ reset_element <$> elements (donation p)
    = reset_element <$> elements (donation q).

(** The object form [f]'s listener hands to its façade operation, the
    message that operation throws with when the payload has none, and
    what the listener does once the call has resolved. *)
Definition payload_of (f : form_id) (email : string) (p : page)
  : gmap string fieldval :=
  match f with
  | Donation => serializeForm (elements (donation p))
  | Volunteer => volunteer_payload (elements (volunteer p))
  | Newsletter => {[ "email" := Scalar email ]}
  end.

Definition fallback_of (f : form_id) : string :=
  match f with
  | Donation => "Falha ao processar doação."
  | Volunteer => "Falha ao enviar inscrição."
  | Newsletter => "Falha ao inscrever na newsletter."
  end.

Definition resolved_of (cl : closure) (f : form_id) (r : response)
  : M unit :=
  match f with
  | Donation => donation_resolved cl r
  | Volunteer => volunteer_resolved r
  | Newsletter => newsletter_resolved r
  end.

(** The default success text of each listener. *)
Definition success_default (f : form_id) : string :=
  match f with
  | Donation => "Doação processada com sucesso!"
  | Volunteer => "Inscrição enviada com sucesso! Entraremos em contato."
  | Newsletter => "Inscrição realizada com sucesso!"
  end.

(** The request form [f]'s listener sends from page [p]. *)
Definition request_of (f : form_id) (email : string) (p : page) : request :=
  Request (endpoint_of f) (post_options (payload_of f email p)).

(** ** Vocabulary of the statements about the conditional groups *)

(** The groups [toggleDonationFields(v)] leaves visible on page [p] when
    the pix radio is checked or not ([pixRadio]). *)
Definition type_rule (v : string) (pixRadio : bool) (p : page)
  : visibility :=
  {| vis_money := String.eqb v "money" && present (moneyFields p);
     vis_goods :=
       negb (String.eqb v "money") && String.eqb v "goods"
       && present (goodsFields p);
     vis_payment := String.eqb v "money" && present (paymentGroup p);
     vis_pix :=
       String.eqb v "money" && pixRadio && present (pixDetails p) |}.

(** [if (pixDetails && initialPayment !== 'pix') DOM.hide(pixDetails)],
    on the visible groups. *)
Definition pix_rule (ipay : option string) (v : visibility) : visibility :=
  if opt_differs ipay "pix" then
    {| vis_money := vis_money v; vis_goods := vis_goods v;
       vis_payment := vis_payment v; vis_pix := false |}
  else v.

(** The statement about the donation form's groups after a successful
    submission, read over every page, every session and every initial
    selection. *)
Definition restores_visibility_claim : Prop :=
  ∀ (H : host) (p0 p1 : page) (cl : closure) (evs : list user_event)
    (orig : string) (r : response),
    Forall (fun e => pristine e = true) (elements (donation p0)) →
    initDonationForm p0 = Return cl p1 →
    gateway H "/process-donation"
      (post_options (serializeForm (elements (donation (session evs p1)))))
    = Resolved r →
    success r = true →
    visible_groups (final_page (donation_try H cl orig (session evs p1)))
    = visible_groups p1.

(** A page for the worked examples: the donation form with its type and
    payment radios ([t] and [m] are the values checked in the markup,
    [""] for none), an amount field, and the four groups hidden. *)
Definition sample_controls (t m : string) : list element :=
  [ radio "donation_type" "money" (String.eqb t "money");
    radio "donation_type" "goods" (String.eqb t "goods");
    radio "donation_type" "time" (String.eqb t "time");
    radio "payment_method" "card" (String.eqb m "card");
    radio "payment_method" "pix" (String.eqb m "pix");
    textInput "donation-amount" "amount" "" ].

Definition sample_page (t m : string) : page :=
  {| donation :=
       FormDom (sample_controls t m) (Some (Control false "Doar" false))
         None;
     volunteer := FormDom [] None None;
     newsletter := FormDom [] None None;
     moneyFields := Some false;
     goodsFields := Some false;
     paymentGroup := Some false;
     pixDetails := Some false;
     presetActive := [false; false; false];
     volunteerTab := Some 0;
     calls := [] |}.

Definition sample_host : host :=
  mock_host (Entropy 0 0 0 0 0 0) (fun _ _ => true) (fun _ => true).

(** ** Further vocabulary for [serializeForm] *)

(** The control makes [serializeForm] write under its name: it is named
    and enabled, and it is a checked checkbox or radio, an unchecked
    checkbox of a ['[]'] name, or a control of a type that is not
    excluded. *)
Definition writes (e : element) : bool :=
  JsString.truthy (name e) && negb (disabled e)
  && (if is_check_or_radio e
      then checked e
           || (String.eqb (type e) "checkbox"
               && JsString.endsWith (name e) "[]")
      else is_plain_type e).

(** The property names an object created as [{}] inherits from
    [Object.prototype]. *)
Definition Object_prototype_names : list string :=
  [ "constructor"; "hasOwnProperty"; "isPrototypeOf";
    "propertyIsEnumerable"; "toLocaleString"; "toString"; "valueOf";
    "__proto__"; "__defineGetter__"; "__defineSetter__";
    "__lookupGetter__"; "__lookupSetter__" ].

Definition inherited (n : string) : bool :=
  existsb (String.eqb n) Object_prototype_names.

(** No control of the form is named after an inherited property. *)
Definition own_names (form : list element) : bool :=
  forallb (fun e => negb (inherited (name e))) form.

(** The values of the enabled, checked checkboxes named [n], in document
    order. *)
Definition group_values (n : string) (l : list element) : list string :=
  value <$> List.filter (ticked_box n) l.

(** The controls that are not disabled. *)
Definition enabled_controls (l : list element) : list element :=
  List.filter (fun e => negb (disabled e)) l.

(** An enabled checkbox named [n], checked or not. *)
Definition enabled_box (n : string) (e : element) : bool :=
  String.eqb (name e) n && negb (disabled e)
  && String.eqb (type e) "checkbox".


(** ** [ApiService]: the two read operations *)

Section ReadOperations.

Variable H : host.

(** [ApiService.getProjects(filters)]: the filters travel as
    [options.params]; the [catch] clause logs and rethrows. *)
Definition getProjects (filters : gmap string string) : M payload :=
  response ← fetchData H "/projects"
    {| method := None; body := None; params := Some filters |};
  if success response then mret (data response)
  else throw (JsError (opt_or_else (message response)
                         "Falha ao buscar projetos.")).

(** [ApiService.getDashboardData(params)]; [query] is the string
    [new URLSearchParams(params).toString()] yields. *)
Definition getDashboardData (query : string) : M payload :=
  response ← fetchData H ("/dashboard?" ++ query) no_options;
  if success response then mret (data response)
  else throw (JsError (opt_or_else (message response)
                         "Falha ao buscar dados do dashboard.")).

End ReadOperations.

(** [appState.currentFilters], the object [ActionCenterPage.loadProjects]
    hands to [getProjects]: its keys are [dashboardDate],
    [projectRegion] and [projectType]. *)
Definition currentFilters (dashboardDate projectRegion projectType : string)
  : gmap string string :=
  <["dashboardDate" := dashboardDate]>
    (<["projectRegion" := projectRegion]>
       (<["projectType" := projectType]> ∅)).

(** The options [getProjects] passes. *)
Definition projects_options (filters : gmap string string) : options :=
  {| method := None; body := None; params := Some filters |}.

(** ** Vocabulary of the further statements about the listeners *)

(** The number of preset-amount buttons carrying the [active] class. *)
Definition active_count (l : list bool) : nat :=
  List.length (List.filter (fun b => b) l).

(** The message the façade operation of form [f] throws with, if it
    throws: the gateway's on a rejection, the payload's (or the
    operation's own) on [success: false]. *)
Definition failure_message (f : form_id) (s : settled response)
  : option string :=
  match s with
  | Rejected msg => Some msg
  | Resolved r =>
      if success r then None
      else Some (opt_or_else (message r) (fallback_of f))
  end.


(** ** Generic UI widgets *)

(** [String(b)], as [setAttribute(name, b)] stores a boolean. *)
Definition bool_attr (b : bool) : string := if b then "true" else "false".

(** *** The mobile menu ([UI.initMobileMenu]) *)

Module MobileMenu.

(** [appState.isMenuOpen], the [aria-expanded] attribute of
    [.menu-toggle] and whether [#primary-menu] has the class
    [is-open]. *)
Record state := State {
  isMenuOpen : bool;
  ariaExpanded : string;
  isOpenClass : bool;
}.

(** The page as loaded: the flag is [false], the attribute and the class
    are what the markup says. *)
Definition start (aria : string) (cls : bool) : state :=
  {| isMenuOpen := false; ariaExpanded := aria; isOpenClass := cls |}.

(** The [click] listener of the toggle. *)
Definition toggleClick (s : state) : state :=
  let o := negb (isMenuOpen s) in
  {| isMenuOpen := o; ariaExpanded := bool_attr o; isOpenClass := o |}.

(** The [click] listener of [document]; [inMenu] and [inToggle] tell
    whether [primaryMenu] and [menuToggle] contain the event target. *)
Definition documentClick (inMenu inToggle : bool) (s : state) : state :=
  if isMenuOpen s && negb inMenu && negb inToggle then
    {| isMenuOpen := false; ariaExpanded := "false"; isOpenClass := false |}
  else s.

(** How far a click travels up from its target.  The listener of a
    dropdown toggle calls [event.stopPropagation()]: a click on such a
    toggle goes no further than that element, which may sit below the
    menu toggle, or at or above it. *)
Inductive propagation :=
| StoppedBeforeToggle
| StoppedBeforeDocument
| Propagates.

(** One click: whether [primaryMenu] and [menuToggle] contain the
    target, and how far the event travels. *)
Record click_event := Click {
  inMenu : bool;
  inToggle : bool;
  travel : propagation;
}.

(** The toggle's listener runs. *)
Definition toggleHears (c : click_event) : bool :=
  inToggle c
  && match travel c with StoppedBeforeToggle => false | _ => true end.

(** The listener of [document] runs. *)
Definition documentHears (c : click_event) : bool :=
  match travel c with Propagates => true | _ => false end.

(** One click: the toggle's listener, then the one of [document], each
    if the event gets there. *)
Definition click (c : click_event) (s : state) : state :=
  let s1 := if toggleHears c then toggleClick s else s in
  if documentHears c then documentClick (inMenu c) (inToggle c) s1 else s1.

Definition clicks (l : list click_event) (s : state) : state :=
  fold_left (fun q c => click c q) l s.

(** The attribute and the class say what the flag says. *)
Definition in_sync (s : state) : Prop :=
  ariaExpanded s = bool_attr (isMenuOpen s) ∧ isOpenClass s = isMenuOpen s.

End MobileMenu.

(** *** Dropdowns ([UI.initDropdowns]) *)

Module Dropdowns.

(** One container matched by the selector: [wired] when it has both a
    toggle and a menu (only then does it get listeners and is it ever
    closed), the toggle's [aria-expanded] attribute, and whether the
    menu has the class [is-open].  The containers are taken not to be
    nested in one another, so that each has a toggle and a menu of its
    own. *)
Record dropdown := Dropdown {
  wired : bool;
  expanded : option string;
  isOpen : bool;
}.

(** [closeDropdown] of one container, and the body of the loop of
    [closeAllDropdowns]. *)
Definition close (d : dropdown) : dropdown :=
  if wired d then
    {| wired := true; expanded := Some "false"; isOpen := false |}
  else d.

(** [closeAllDropdowns(currentContainer)]; [None] is the call without
    argument. *)
Definition closeAllDropdowns (current : option nat) (ds : list dropdown)
  : list dropdown :=
  imap (fun j d => if bool_decide (current = Some j) then d else close d) ds.

(** [toggle.getAttribute('aria-expanded') === 'true'] *)
Definition isExpanded (d : dropdown) : bool :=
  bool_decide (expanded d = Some "true").

Inductive event :=
| ToggleClick (i : nat)
| Escape (i : nat)
| TabOut (i : nat)
| DocumentClick.

(** The listeners.  A click on a toggle stops propagation; every other
    click reaches [document].  [Escape] in a container and [Tab] off
    either end of its menu call [closeDropdown]. *)
Definition step (ev : event) (ds : list dropdown) : list dropdown :=
  match ev with
  | ToggleClick i =>
      match ds !! i with
      | Some d =>
          if wired d then
            let o := negb (isExpanded d) in
            <[i := {| wired := true; expanded := Some (bool_attr o);
                      isOpen := o |}]>
              (closeAllDropdowns (Some i) ds)
          else ds
      | None => ds
      end
  | Escape i | TabOut i =>
      match ds !! i with
      | Some d => <[i := close d]> ds
      | None => ds
      end
  | DocumentClick => closeAllDropdowns None ds
  end.

Definition run (evs : list event) (ds : list dropdown) : list dropdown :=
  fold_left (fun q ev => step ev q) evs ds.



(** Keys pressed on a menu item. *)
Inductive key :=
| ArrowDown | ArrowUp | Home | End_ | Tab (shift : bool) | Esc | OtherKey.

(** What a listener gives the focus to. *)
Inductive focus :=
| Item (j : nat)
| Toggle.

(** The [keydown] listener of the item at [index] of a menu of [n]
    items: where the focus goes, if it moves, and whether the dropdown is
    closed.  The listener exists for [index < n] only, so [n - 1] is the
    last index. *)
Definition itemKeydown (n index : nat) (k : key) : option nat * bool :=
  match k with
  | ArrowDown => if (index <? n - 1)%nat then (Some (index + 1)%nat, false)
                 else (None, false)
  | ArrowUp => if (0 <? index)%nat then (Some (index - 1)%nat, false)
               else (None, false)
  | Home => (Some 0%nat, false)
  | End_ => (Some (n - 1)%nat, false)
  | Tab false => (None, (index =? n - 1)%nat)
  | Tab true => (None, (index =? 0)%nat)
  | Esc | OtherKey => (None, false)
  end.

(** The [keydown] listener of the container: on [Escape] it closes the
    dropdown and gives the focus to the toggle. *)
Definition containerKeydown (k : key) : option focus * bool :=
  match k with
  | Esc => (Some Toggle, true)
  | _ => (None, false)
  end.

(** A key pressed on the item at [index]: the item's listener runs, then
    the event bubbles to the container's.  The result is where the focus
    is in the end, if a listener moved it, and whether the dropdown was
    closed. *)
Definition keydownOnItem (n index : nat) (k : key) : option focus * bool :=
  let '(f1, c1) := itemKeydown n index k in
  let '(f2, c2) := containerKeydown k in
  (match f2 with
   | Some t => Some t
   | None => Item <$> f1
   end, c1 || c2).

End Dropdowns.

(** *** Tabs ([UI.initTabs]) *)

Module Tabs.

Record tab := Tab {
  tab_id : string;
  ariaSelected : string;
  tabindex : string;
}.

(** A panel: its [aria-labelledby] attribute, its [hidden] property, its
    [tabindex], and whether it has the classes [is-visible] and
    [is-hidden]. *)
Record panel := Panel {
  labelledby : option string;
  hidden : bool;
  panelTabindex : string;
  isVisibleClass : bool;
  isHiddenClass : bool;
}.

Record state := State {
  tabs : list tab;
  panels : list panel;
  activeActionTab : string;
}.

(** [activateTab(tabs[i])].  The moving line is left out: its selector
    names a pseudo-element, which [querySelector] never matches. *)
Definition activateTab (i : nat) (s : state) : state :=
  match tabs s !! i with
  | Some t =>
      {| tabs :=
           imap (fun j u =>
                   {| tab_id := tab_id u;
                      ariaSelected := bool_attr (bool_decide (j = i));
                      tabindex := if bool_decide (j = i) then "0"
                                  else "-1" |})
             (tabs s);
         panels :=
           (fun q =>
              let shouldBeVisible :=
                bool_decide (labelledby q = Some (tab_id t)) in
              {| labelledby := labelledby q;
                 hidden := negb shouldBeVisible;
                 panelTabindex := if shouldBeVisible then "0" else "-1";
                 isVisibleClass := shouldBeVisible;
                 isHiddenClass := negb shouldBeVisible |})
             <$> panels s;
         activeActionTab := tab_id t |}
  | None => s
  end.

Inductive key := ArrowRight | ArrowLeft | Home | End_ | OtherKey.

(** [nextTabIndex] of the [keydown] listener of the tab at index [cur]
    among [n] tabs; [-1] when the key is not handled.  [%] is the
    remainder. *)
Definition nextTabIndex (k : key) (cur n : Z) : Z :=
  match k with
  | ArrowRight => Z.rem (cur + 1) n
  | ArrowLeft => Z.rem (cur - 1 + n) n
  | Home => 0
  | End_ => n - 1
  | OtherKey => -1
  end.

(** The [keydown] listener of the tab at index [cur]. *)
Definition keydown (k : key) (cur : nat) (s : state) : state :=
  let next := nextTabIndex k (Z.of_nat cur) (Z.of_nat (List.length (tabs s)))
  in
  if (next =? -1)%Z then s else activateTab (Z.to_nat next) s.

(** [!tabs.length || !panels.length]: nothing is set up then. *)
Definition unwired (s : state) : bool :=
  bool_decide (tabs s = []) || bool_decide (panels s = []).

(** [DOM.qs('[role=tab][aria-selected=true]', tabList) || tabs[0]], as
    an index into [tabs]. *)
Definition initiallySelected (ts : list tab) : nat :=
  match list_find (fun t => ariaSelected t = "true") ts with
  | Some (i, _) => i
  | None => 0%nat
  end.

(** [UI.initTabs] on a page whose container and tab list exist. *)
Definition initTabs (s : state) : state :=
  if unwired s then s else activateTab (initiallySelected (tabs s)) s.

(** What the user does to the tab at index [i]; the listeners exist on
    the tabs only, and only when [initTabs] got past its guard. *)
Inductive event :=
| Click (i : nat)
| Keydown (i : nat) (k : key).

Definition step (ev : event) (s : state) : state :=
  if unwired s then s
  else match ev with
       | Click i => activateTab i s
       | Keydown i k =>
           if (i <? List.length (tabs s))%nat then keydown k i s else s
       end.

Definition run (evs : list event) (s : state) : state :=
  fold_left (fun q ev => step ev q) evs s.

(** Tab [j] is the active one: it alone is selected and focusable, its
    id is [appState.activeActionTab], and the panels shown are those
    labelled by it. *)
Definition active_is (j : nat) (s : state) : Prop :=
  ∃ t, tabs s !! j = Some t
    ∧ activeActionTab s = tab_id t
    ∧ (∀ i u, tabs s !! i = Some u →
         ariaSelected u = bool_attr (bool_decide (i = j))
         ∧ tabindex u = (if bool_decide (i = j) then "0" else "-1"))
    ∧ (∀ q, q ∈ panels s →
         hidden q = negb (bool_decide (labelledby q = Some (tab_id t)))
         ∧ isVisibleClass q = negb (hidden q)
         ∧ isHiddenClass q = hidden q
         ∧ panelTabindex q = (if hidden q then "-1" else "0")).

End Tabs.

(** *** The live region ([UI.updateLiveRegion]) *)

Module LiveRegion.

(** [#sgcf-live-region]: its [aria-live] attribute and its text. *)
Record region := Region {
  politeness : string;
  text : string;
}.

(** [UI.updateLiveRegion(message, politeness)]: the region is created on
    the first call, with that call's politeness; every call writes the
    message. *)
Definition updateLiveRegion (message politeness' : string)
    (s : option region) : option region :=
  match s with
  | None => Some {| politeness := politeness'; text := message |}
  | Some r => Some {| politeness := politeness r; text := message |}
  end.

(** The timer each call sets: it empties the text. *)
Definition timerFires (s : option region) : option region :=
  match s with
  | None => None
  | Some r => Some {| politeness := politeness r; text := "" |}
  end.

Inductive event :=
| Announce (message politeness' : string)
| TimerFires.

Definition step (ev : event) (s : option region) : option region :=
  match ev with
  | Announce m pol => updateLiveRegion m pol s
  | TimerFires => timerFires s
  end.

Definition run (evs : list event) (s : option region) : option region :=
  fold_left (fun q ev => step ev q) evs s.

End LiveRegion.


(** ** The global click delegate ([setupGlobalEventDelegation]) *)

Module Delegation.

(** What one branch of the [switch] does. *)
Inductive command :=
| RefreshDashboard
| CopyPixKey
| AlertApiKey
| AlertExportChart
| ToggleTheme
| Unhandled.

(** The [switch] on [action]; [None] is [undefined]. *)
Definition dispatch (action : option string) : command :=
  match action with
  | Some "refresh-dashboard" => RefreshDashboard
  | Some "copy-pix-key" => CopyPixKey
  | Some "request-api-key" => AlertApiKey
  | Some "export-chart" => AlertExportChart
  | Some "toggle-theme" => ToggleTheme
  | _ => Unhandled
  end.

(** [event.target.closest('[data-action]')] for a click that reaches
    [body]:
    [path] lists the [data-action] attribute of the target and of its
    ancestors below [body], innermost first, [bodyAction] is that of
    [body] and [htmlAction] that of the root element.  The result is the
    position of the match in that chain. *)
Definition closest (path : list (option string))
    (bodyAction htmlAction : option string) : option nat :=
  fst <$> list_find is_Some (path ++ [bodyAction; htmlAction])%list.

(** The listener [DOM.delegate] attaches to [document.body]: the handler
    runs when the match exists and [body] contains it ([body] contains
    itself, not the root element).  The handler reads
    [event.currentTarget], which is the element the listener is attached
    to: [body]. *)
Definition bodyClick (path : list (option string))
    (bodyAction htmlAction : option string) : option command :=
  match closest path bodyAction htmlAction with
  | Some i =>
      if (i <=? List.length path)%nat then Some (dispatch bodyAction)
      else None
  | None => None
  end.

(** The effect of one click on the theme. *)
Definition themeClick (path : list (option string))
    (bodyAction htmlAction : option string) (s : Theme.state)
  : Theme.state :=
  match bodyClick path bodyAction htmlAction with
  | Some ToggleTheme => Theme.toggleTheme s
  | _ => s
  end.

End Delegation.

(** ** [Utils.debounce] and [Utils.throttle] *)

(** What happens to the function [debounce] or [throttle] returns: it is
    called, or the timer it has set expires. *)
Inductive timed (A : Type) :=
| Call (args : A)
| TimerFires.
Arguments Call {A} args.
Arguments TimerFires {A}.

Module Debounce.

Section Debounced.

Context {A : Type}.

(** The closure's [timeoutId], as the arguments the pending timer will
    pass to [func], and the calls of [func] made so far. *)
Record state := State {
  pending : option A;
  executed : list A;
}.

Definition initial : state := {| pending := None; executed := [] |}.

(** A call clears the pending timer and sets a new one; the timer, when
    it expires, calls [func] with the arguments of the call that set
    it. *)
Definition step (ev : timed A) (s : state) : state :=
  match ev with
  | Call args => {| pending := Some args; executed := executed s |}
  | TimerFires =>
      match pending s with
      | Some args =>
          {| pending := None; executed := (executed s ++ [args])%list |}
      | None => s
      end
  end.

Definition run (evs : list (timed A)) (s : state) : state :=
  fold_left (fun q ev => step ev q) evs s.

End Debounced.

Arguments state A : clear implicits.

End Debounce.

Module Throttle.

Section Throttled.

Context {A R : Type}.

Variable func : A → R.

(** The closure's [inThrottle] and [lastResult] ([None] is
    [undefined]), and the calls of [func] made so far. *)
Record state := State {
  inThrottle : bool;
  lastResult : option R;
  executed : list A;
}.

Definition initial : state :=
  {| inThrottle := false; lastResult := None; executed := [] |}.

(** One call of the throttled function: the new state and the value
    returned. *)
Definition call (args : A) (s : state) : state * option R :=
  if inThrottle s then (s, lastResult s)
  else
    let r := func args in
    ({| inThrottle := true; lastResult := Some r;
        executed := (executed s ++ [args])%list |}, Some r).

Definition step (ev : timed A) (s : state) : state :=
  match ev with
  | Call args => fst (call args s)
  | TimerFires =>
      {| inThrottle := false; lastResult := lastResult s;
         executed := executed s |}
  end.

Definition run (evs : list (timed A)) (s : state) : state :=
  fold_left (fun q ev => step ev q) evs s.

(** The number of timer expiries in a trace. *)
Definition expiries (evs : list (timed A)) : nat :=
  List.length
    (List.filter (fun ev => match ev with TimerFires => true | _ => false end)
       evs).

End Throttled.

Arguments state A R : clear implicits.

End Throttle.

(** The arguments of the calls in a trace, in order. *)
Definition calls_of {A : Type} (evs : list (timed A)) : list A :=
  omap (fun ev => match ev with Call a => Some a | TimerFires => None end)
    evs.


(** ** [ActionCenterPage]: the project list *)

Module ActionCenter.

(** What [.project-list] holds besides a loader and a banner: what the
    page came with, the paragraph ['Nenhum projeto encontrado…'], or one
    [article.project-card] per project. *)
Inductive content :=
| Markup
| NoneFound
| Cards (projects : list project).

(** The first [.project-list]: whether a [.sgcf-loader] is attached, the
    [.sgcf-feedback] banner if there is one, and the rest. *)
Record listing := Listing {
  hasLoader : bool;
  banner : option notice;
  shown : content;
}.

(** The part of the page the controller touches: the values of
    [#project-filter-region] and [#project-filter-type] ([None] when the
    element is missing), [appState.currentFilters], the project list,
    the live region, and the forms' page, which holds the log of gateway
    calls. *)
Record view := View {
  regionFilter : option string;
  typeFilter : option string;
  filters : gmap string string;
  projectList : option listing;
  liveRegion : option LiveRegion.region;
  forms : page;
}.

Definition set_filters (g : gmap string string) (v : view) : view :=
  {| regionFilter := regionFilter v; typeFilter := typeFilter v;
     filters := g; projectList := projectList v;
     liveRegion := liveRegion v; forms := forms v |}.

Definition set_forms (p : page) (v : view) : view :=
  {| regionFilter := regionFilter v; typeFilter := typeFilter v;
     filters := filters v; projectList := projectList v;
     liveRegion := liveRegion v; forms := p |}.

(** A change to the project list, when there is one. *)
Definition with_list (g : listing → listing) (v : view) : view :=
  {| regionFilter := regionFilter v; typeFilter := typeFilter v;
     filters := filters v; projectList := g <$> projectList v;
     liveRegion := liveRegion v; forms := forms v |}.

(** [UI.updateLiveRegion(message, politeness)] *)
Definition announce (message politeness : string) (v : view) : view :=
  {| regionFilter := regionFilter v; typeFilter := typeFilter v;
     filters := filters v; projectList := projectList v;
     liveRegion :=
       LiveRegion.updateLiveRegion message politeness (liveRegion v);
     forms := forms v |}.

Definition set_loader (b : bool) (c : listing) : listing :=
  {| hasLoader := b; banner := banner c; shown := shown c |}.

(** [container.innerHTML = …]: every child goes, the loader and the
    banner with the rest. *)
Definition set_innerHTML (x : content) (c : listing) : listing :=
  {| hasLoader := false; banner := None; shown := x |}.

(** [UI.displayFeedback(message, container, 'error')] *)
Definition displayError (message : string) (c : listing) : listing :=
  {| hasLoader := hasLoader c; banner := Some (Notice "error" message);
     shown := shown c |}.

(** How an [async] function ends: its promise is fulfilled, or rejected
    with what was thrown. *)
Inductive result :=
| Fulfilled (v : view)
| Thrown (e : exn) (v : view).

Definition final_view (r : result) : view :=
  match r with
  | Fulfilled v => v
  | Thrown _ v => v
  end.

Section Controller.

Variable H : host.

(** [ActionCenterPage.renderProjects(projects)] followed by the read of
    [projects.length] in [loadProjects].  An array is rendered; for
    [undefined] the default parameter [[]] is rendered and the read of
    [length] throws; for any other object the list is emptied and
    [projects.forEach] throws. *)
Definition render_and_count (d : payload) (v : view) : option exn * view :=
  match d with
  | Projects [] =>
      (None,
       announce (pretty 0%nat ++ " projetos encontrados.") "polite"
         (with_list (set_innerHTML NoneFound) v))
  | Projects l =>
      (None,
       announce (pretty (List.length l) ++ " projetos encontrados.")
         "polite"
         (with_list (set_innerHTML (Cards l)) v))
  | NoData => (Some TypeError, with_list (set_innerHTML NoneFound) v)
  | Dashboard _ => (Some TypeError, with_list (set_innerHTML (Cards [])) v)
  end.

(** The [try] block of [loadProjects]. *)
Definition try_block (v : view) : option exn * view :=
  match getProjects H (filters v) (forms v) with
  | Return d p' => render_and_count d (set_forms p' v)
  | Raise e p' => (Some e, set_forms p' v)
  end.

(** Its [catch] clause. *)
Definition catch_clause (e : exn) (v : view) : view :=
  announce "Falha ao atualizar lista de projetos." "assertive"
    (with_list
       (displayError ("Erro ao carregar projetos: " ++ exn_message e)) v).

(** [ActionCenterPage.loadProjects()].  [UI.showLoading(container)]
    removes a previous loader, builds the new one and reads the style of
    its [.spinner] and [span] parts before it appends it. *)
Definition loadProjects (v : view) : result :=
  match projectList v with
  | None => Fulfilled v
  | Some _ =>
      let v0 := with_list (set_loader false) v in
      match DOM.querySelector
              (fun n => String.eqb (node_class n) "spinner") UI.loaderEl,
            DOM.querySelector
              (fun n => String.eqb (node_tag n) "span") UI.loaderEl with
      | Some _, Some _ =>
          let v1 :=
            announce "Atualizando lista de projetos..." "polite"
              (with_list (set_loader true) v0) in
          let '(e, v2) := try_block v1 in
          let v3 := match e with
                    | Some e => catch_clause e v2
                    | None => v2
                    end in
          Fulfilled (with_list (set_loader false) v3)
      | _, _ => Thrown TypeError v0
      end
  end.

(** [ActionCenterPage.handleProjectFilterChange()]: the two selections
    are stored, then [loadProjects] is called (and not awaited). *)
Definition handleProjectFilterChange (v : view) : result :=
  loadProjects
    (set_filters
       (<["projectType" := default "all" (typeFilter v)]>
          (<["projectRegion" := default "all" (regionFilter v)]>
             (filters v))) v).

End Controller.

End ActionCenter.

(** * Properties *)

(** ** [serializeForm] *)

Section SerializeFacts.

Implicit Types (d : gmap string fieldval) (e : element) (n : string).

(** A control with another name leaves [data[n]] alone. *)
Lemma serialize_step_other d e n :
  name e ≠ n → serialize_step d e !! n = d !! n.
Proof.
  intros Hne. unfold serialize_step.
  repeat case_match; try reflexivity; by rewrite lookup_insert_ne.
Qed.

Lemma endsWith_nonempty n :
  JsString.endsWith n "[]" = true → JsString.truthy n = true.
Proof. destruct n; [discriminate | reflexivity]. Qed.

(** One step on a control that neither ticks nor overwrites [n]. *)
Lemma serialize_step_quiet d e n :
  ticked n e = false → plain_field n e = false →
  JsString.endsWith n "[]" = true →
  (d !! n = Some (Seq []) → serialize_step d e !! n = Some (Seq []))
  ∧ (d !! n = None →
     serialize_step d e !! n =
       if empty_box n e then Some (Seq []) else None).
Proof.
  intros Ht Hp Hn.
  destruct (String.eqb (name e) n) eqn:En.
  - apply String.eqb_eq in En.
    subst n. pose proof (endsWith_nonempty _ Hn) as Hne.
    unfold ticked, plain_field, empty_box in *.
    unfold serialize_step, is_check_or_radio in *.
    rewrite String.eqb_refl in *. rewrite Hne, Hn. simpl in *.
    destruct (disabled e), (checked e), (String.eqb (type e) "checkbox"),
      (String.eqb (type e) "radio"), (is_plain_type e);
      simpl in *; try discriminate; split; intros Hd; rewrite ?Hd; simpl;
      rewrite ?lookup_insert_eq, ?Hd; try reflexivity.
  - assert (name e ≠ n) by (by apply String.eqb_neq).
    rewrite serialize_step_other by done.
    unfold empty_box. rewrite En. simpl. split; auto.
Qed.

(** Once [data[n]] is the empty array, quiet controls keep it so. *)
Lemma fold_quiet_kept l d n :
  JsString.endsWith n "[]" = true →
  (∀ e, e ∈ l → ticked n e = false ∧ plain_field n e = false) →
  d !! n = Some (Seq []) →
  fold_left serialize_step l d !! n = Some (Seq []).
Proof.
  intros Hn. revert d. induction l as [|e l IH]; intros d Hq Hd; [done|].
  simpl. apply IH.
  - intros x Hx. apply Hq. by right.
  - destruct (Hq e) as [Ht Hp]; [by left|].
    by apply (serialize_step_quiet d e n Ht Hp Hn).
Qed.

(** The first enabled unchecked box of the group creates the array. *)
Lemma fold_quiet_created l d n :
  JsString.endsWith n "[]" = true →
  (∀ e, e ∈ l → ticked n e = false ∧ plain_field n e = false) →
  (∃ e, e ∈ l ∧ empty_box n e = true) →
  d !! n = None →
  fold_left serialize_step l d !! n = Some (Seq []).
Proof.
  intros Hn. revert d.
  induction l as [|e l IH]; intros d Hq [b [Hb Hbox]] Hd.
  - by apply elem_of_nil in Hb.
  - simpl. destruct (Hq e) as [Ht Hp]; [by left|].
    destruct (serialize_step_quiet d e n Ht Hp Hn) as [_ Hnone].
    specialize (Hnone Hd).
    assert (Hq' : ∀ x, x ∈ l →
              ticked n x = false ∧ plain_field n x = false)
      by (intros x Hx; apply Hq; by right).
    destruct (empty_box n e) eqn:Ee.
    + by apply fold_quiet_kept.
    + apply IH; [done| |done].
      apply elem_of_cons in Hb as [->|Hb]; [congruence|eauto].
Qed.

(** A control that is not a plain field named [n] leaves a truthy
    [data[n]] as it is or pushes its value onto it. *)
Lemma serialize_step_grow d e n :
  plain_field n e = false → truthy (d !! n) = true →
  serialize_step d e !! n = d !! n
  ∨ serialize_step d e !! n = Some (Seq (as_array (d !! n) ++ [value e])).
Proof.
  intros Hp Ht.
  destruct (String.eqb (name e) n) eqn:En.
  - apply String.eqb_eq in En. subst n.
    unfold plain_field, serialize_step in *.
    rewrite String.eqb_refl in Hp. rewrite Ht. simpl in *.
    destruct (JsString.truthy (name e)), (disabled e),
      (is_check_or_radio e), (checked e), (is_plain_type e);
      simpl in *; try discriminate; rewrite ?andb_false_r;
      rewrite ?lookup_insert_eq; auto.
  - left. apply serialize_step_other. by apply String.eqb_neq.
Qed.

Lemma array_has_step x d e n :
  plain_field n e = false →
  array_has x n d → array_has x n (serialize_step d e).
Proof.
  intros Hp [Ht Hx]. unfold array_has.
  destruct (serialize_step_grow d e n Hp Ht) as [-> | ->]; [done|].
  split; [done|]. simpl. by apply sublist_inserts_r.
Qed.

Lemma array_has_fold x l d n :
  (∀ e, e ∈ l → plain_field n e = false) →
  array_has x n d → array_has x n (fold_left serialize_step l d).
Proof.
  revert d. induction l as [|e l IH]; intros d Hq Hd; [done|].
  simpl. apply IH.
  - intros y Hy. apply Hq. by right.
  - apply array_has_step; [apply Hq; by left | done].
Qed.

(** The step on an enabled checked checkbox named [n]. *)
Lemma ticked_box_step d e n :
  JsString.truthy n = true → ticked_box n e = true →
  serialize_step d e !! n =
    Some (if truthy (d !! n) then Seq (as_array (d !! n) ++ [value e])
          else if JsString.endsWith n "[]" then Seq [value e]
               else Scalar (value e)).
Proof.
  intros Hn Hb. unfold ticked_box in Hb.
  destruct (String.eqb (name e) n) eqn:En; [|discriminate].
  apply String.eqb_eq in En. subst n.
  unfold serialize_step, is_check_or_radio.
  destruct (disabled e), (String.eqb (type e) "checkbox"), (checked e);
    simpl in Hb; try discriminate.
  rewrite Hn. simpl.
  destruct (truthy (d !! name e)); [by rewrite lookup_insert_eq|].
  destruct (JsString.endsWith (name e) "[]"); by rewrite lookup_insert_eq.
Qed.

End SerializeFacts.

(** C1, as amended.  When a form has at least one enabled, unchecked
    checkbox whose name [n] ends in ['[]'], and no enabled control named
    [n] is a checked checkbox or radio or a scalar-valued field, then
    [serializeForm] binds [n] to the empty array: the key is present. *)
Theorem serializeForm_unchecked_collection (form : list element)
    (n : string) :
  JsString.endsWith n "[]" = true →
  (∃ e, e ∈ form ∧ empty_box n e = true) →
  (∀ e, e ∈ form → ticked n e = false ∧ plain_field n e = false) →
  serializeForm form !! n = Some (Seq []).
Proof.
  intros Hn Hbox Hq. unfold serializeForm.
  apply fold_quiet_created; auto.
Qed.

Lemma serializeForm_unchecked_collection_witness :
  serializeForm
    [ textInput "vol-name" "name" "Ana";
      checkbox "skills[]" "logistics" false false;
      checkbox "skills[]" "cooking" false false ] !! "skills[]"
  = Some (Seq []).
Proof.
  apply serializeForm_unchecked_collection.
  - reflexivity.
  - exists (checkbox "skills[]" "logistics" false false).
    split; [|reflexivity]. right; left.
  - intros e He. repeat (apply elem_of_cons in He as [->|He]); [done..|].
    by apply elem_of_nil in He.
Defined.

(** C1 as stated fails: a group whose only box is disabled and unchecked
    leaves the key absent, because [serializeForm] skips disabled
    controls. *)
Lemma serializeForm_disabled_group_absent :
  serializeForm [checkbox "skills[]" "logistics" false true] !! "skills[]"
  = None
  ∧ ¬ unchecked_collection_claim.
Proof.
  split; [reflexivity|]. intros Hclaim.
  specialize (Hclaim [checkbox "skills[]" "logistics" false true]
                "skills[]").
  assert (Hnone : serializeForm [checkbox "skills[]" "logistics" false true]
                    !! "skills[]" = None) by reflexivity.
  rewrite Hclaim in Hnone; [discriminate|reflexivity| |].
  - eexists. split; [left|reflexivity].
  - intros e He _. apply list_elem_of_singleton in He. by subst.
Qed.

(** C6, as amended.  Two enabled, checked checkboxes [a] before [b] that
    share a non-empty name [n] not ending in ['[]'], the first with a
    non-empty value, and no enabled scalar-valued field named [n] after
    [a]: [serializeForm] binds [n] to an array in which [a]'s value
    comes before [b]'s. *)
Theorem serializeForm_two_ticked (l1 l2 l3 : list element) (a b : element)
    (n : string) :
  JsString.truthy n = true →
  JsString.endsWith n "[]" = false →
  ticked_box n a = true →
  ticked_box n b = true →
  JsString.truthy (value a) = true →
  (∀ e, e ∈ (l2 ++ l3)%list → plain_field n e = false) →
  ∃ l, serializeForm (l1 ++ a :: l2 ++ b :: l3)%list !! n = Some (Seq l)
       ∧ [value a; value b] `sublist_of` l.
Proof.
  intros Hn _ Ha Hb Hva Hq. unfold serializeForm.
  rewrite fold_left_app. simpl.
  set (d0 := fold_left serialize_step l1 ∅).
  rewrite fold_left_app. simpl.
  assert (H1 : array_has [value a] n (serialize_step d0 a)).
  { unfold array_has. rewrite (ticked_box_step d0 a n Hn Ha).
    destruct (truthy (d0 !! n)); simpl.
    - split; [done|]. apply sublist_inserts_l. done.
    - destruct (JsString.endsWith n "[]"); simpl; by rewrite ?Hva. }
  apply (array_has_fold _ l2) in H1;
    [|intros e He; apply Hq; apply elem_of_app; by left].
  set (d1 := fold_left serialize_step l2 (serialize_step d0 a)) in *.
  assert (H2 : array_has [value a; value b] n (serialize_step d1 b)).
  { destruct H1 as [Ht Hs]. unfold array_has.
    rewrite (ticked_box_step d1 b n Hn Hb), Ht. simpl. split; [done|].
    by apply (sublist_app [value a] _ [value b] [value b]). }
  apply (array_has_fold _ l3) in H2;
    [|intros e He; apply Hq; apply elem_of_app; by right].
  destruct H2 as [Ht Hs].
  destruct (fold_left serialize_step l3 (serialize_step d1 b) !! n)
    as [[s|l]|] eqn:E; simpl in *.
  - apply sublist_length in Hs. simpl in Hs. lia.
  - eauto.
  - discriminate.
Qed.

Lemma serializeForm_two_ticked_witness :
  ∃ l, serializeForm
         ([textInput "d-name" "name" "Ana"]
          ++ checkbox "topic" "news" true false
          :: [checkbox "topic" "events" false false]
          ++ checkbox "topic" "reports" true false :: [])%list !! "topic"
       = Some (Seq l)
       ∧ ["news"; "reports"] `sublist_of` l.
Proof.
  apply (serializeForm_two_ticked
           [textInput "d-name" "name" "Ana"]
           [checkbox "topic" "events" false false] []
           (checkbox "topic" "news" true false)
           (checkbox "topic" "reports" true false) "topic");
    try reflexivity.
  intros e He. simpl in He.
  apply list_elem_of_singleton in He. by subst.
Defined.

(** C6 as stated fails: two checked boxes that share a name but are
    disabled contribute nothing, so the name is bound to no array. *)
Lemma serializeForm_disabled_pair_absent :
  serializeForm [ checkbox "topic" "news" true true;
                  checkbox "topic" "reports" true true ] !! "topic"
  = None
  ∧ ¬ duplicate_name_claim.
Proof.
  split; [reflexivity|]. intros Hclaim.
  destruct (Hclaim [] [] []
              (checkbox "topic" "news" true true)
              (checkbox "topic" "reports" true true) "topic")
    as [l [Hl _]]; try reflexivity.
  discriminate Hl.
Qed.

(** The same claim also fails on enabled boxes when a text field of the
    same name follows them (the last scalar wins) ... *)
Example serializeForm_pair_then_text :
  serializeForm [ checkbox "topic" "news" true false;
                  checkbox "topic" "reports" true false;
                  textInput "t" "topic" "other" ] !! "topic"
  = Some (Scalar "other").
Proof. reflexivity. Qed.

(** ... and when the first box has the empty value: [if (data[name])]
    takes the stored [''] for a missing entry and the second value
    replaces it. *)
Example serializeForm_empty_first_value :
  serializeForm [ checkbox "topic" "" true false;
                  checkbox "topic" "reports" true false ] !! "topic"
  = Some (Scalar "reports").
Proof. reflexivity. Qed.

(** ** The mock gateway *)

Section GatewayFacts.

Lemma startsWith_head (s p : string) (c : Ascii.ascii) :
  JsString.startsWith s (String c p) = true →
  ∃ r, s = String c r ∧ JsString.startsWith r p = true.
Proof.
  unfold JsString.startsWith. destruct s as [|c' r]; simpl; [discriminate|].
  destruct (Ascii.ascii_dec c c') as [->|]; [|discriminate]. eauto.
Qed.

(** The three form-submission prefixes share no string with the two
    prefixes tested before them. *)
Lemma form_prefix_not_earlier (e : string) :
  JsString.startsWith e "/process-donation"
  || JsString.startsWith e "/process-volunteer"
  || JsString.startsWith e "/subscribe-newsletter" = true →
  JsString.startsWith e "/dashboard" = false
  ∧ JsString.startsWith e "/projects" = false.
Proof.
  intros Hor.
  apply orb_true_iff in Hor as [Hor|Hs];
    [apply orb_true_iff in Hor as [Hd|Hv]|].
  - do 5 (apply startsWith_head in Hd as [? [-> Hd]]). done.
  - do 5 (apply startsWith_head in Hv as [? [-> Hv]]). done.
  - do 2 (apply startsWith_head in Hs as [? [-> Hs]]). done.
Qed.

Lemma fetchData_form_prefix (rnd : entropy) (e : string) (o : options) :
  JsString.startsWith e "/process-donation"
  || JsString.startsWith e "/process-volunteer"
  || JsString.startsWith e "/subscribe-newsletter" = true →
  Utils.fetchData rnd e o =
    Resolved {| success := true;
                message := Some "Dados recebidos com sucesso!";
                data := NoData |}.
Proof.
  intros Hor. destruct (form_prefix_not_earlier e Hor) as [Hd Hp].
  unfold Utils.fetchData. by rewrite Hd, Hp, Hor.
Qed.

Lemma fetchData_resolved_success (rnd : entropy) (e : string)
    (o : options) (r : response) :
  Utils.fetchData rnd e o = Resolved r → success r = true.
Proof.
  unfold Utils.fetchData. repeat case_match; intros [= <-]; reflexivity.
Qed.

Lemma fetchData_rejected_unmocked (rnd : entropy) (e : string)
    (o : options) (msg : string) :
  Utils.fetchData rnd e o = Rejected msg →
  msg = "Falha ao buscar dados de " ++ e
  ∧ Forall (fun pre => JsString.startsWith e pre = false)
      Utils.mockedPrefixes.
Proof.
  unfold Utils.fetchData, Utils.mockedPrefixes.
  destruct (JsString.startsWith e "/dashboard") eqn:E1; [discriminate|].
  destruct (JsString.startsWith e "/projects") eqn:E2; [discriminate|].
  destruct (JsString.startsWith e "/process-donation") eqn:E3;
    [discriminate|].
  destruct (JsString.startsWith e "/process-volunteer") eqn:E4;
    [discriminate|].
  destruct (JsString.startsWith e "/subscribe-newsletter") eqn:E5;
    [discriminate|].
  simpl. intros [= <-]. split; [done|]. repeat constructor; done.
Qed.


End GatewayFacts.

(** C8.  For every endpoint that starts with ['/dashboard'], whatever
    the options, the random draws and the clock, [fetchData] resolves
    with [success: true] and a [data.mapData] array of length at least
    one (it has the four fixed points). *)
Theorem fetchData_dashboard (rnd : entropy) (endpoint : string)
    (o : options) :
  JsString.startsWith endpoint "/dashboard" = true →
  ∃ d, Utils.fetchData rnd endpoint o
       = Resolved {| success := true; message := None;
                     data := Dashboard d |}
       ∧ (1 ≤ List.length (mapData d))%nat
       ∧ mapData d = Utils.mockMapData.
Proof.
  intros Hpre. unfold Utils.fetchData. rewrite Hpre.
  eexists. split; [reflexivity|]. simpl. split; [lia|reflexivity].
Qed.

Lemma fetchData_dashboard_witness :
  ∃ d, Utils.fetchData (Entropy 0 0 0 0 0 0) "/dashboard?date=2024-01-01"
         no_options
       = Resolved {| success := true; message := None;
                     data := Dashboard d |}
       ∧ (1 ≤ List.length (mapData d))%nat
       ∧ mapData d = Utils.mockMapData.
Proof.
  apply (fetchData_dashboard (Entropy 0 0 0 0 0 0)
           "/dashboard?date=2024-01-01" no_options).
  reflexivity.
Defined.

(** ** Theme preference *)

(** C9.  When the stored preference is ['light'] or ['dark'] at start-up,
    two calls of [toggleTheme] leave the value stored under the theme key
    as it was; the same holds after any number of earlier toggles. *)
Theorem toggleTheme_twice_persisted (store : gmap string string)
    (classes : list string) (hasButton : bool) (pref : string) (k : nat) :
  store !! Theme.themeLocalStorageKey = Some pref →
  pref = "light" ∨ pref = "dark" →
  let s0 := Theme.start store classes hasButton in
  Theme.persisted s0 = Some pref
  ∧ Theme.persisted (Theme.toggleTheme (Theme.toggleTheme s0)) = Some pref
  ∧ Theme.persisted
      (Nat.iter (2 * k) Theme.toggleTheme s0) = Some pref.
Proof.
  intros Hstore Hpref s0.
  assert (Hcur : Theme.currentTheme s0 = pref).
  { unfold s0, Theme.start, Theme.initialTheme. simpl. rewrite Hstore.
    destruct Hpref as [-> | ->]; reflexivity. }
  assert (Hper : Theme.persisted s0 = Some pref) by exact Hstore.
  assert (Htwice : ∀ s, Theme.currentTheme s = pref →
            Theme.currentTheme (Theme.toggleTheme (Theme.toggleTheme s))
              = pref
            ∧ Theme.persisted (Theme.toggleTheme (Theme.toggleTheme s))
              = Some pref).
  { intros s Hs. unfold Theme.persisted, Theme.toggleTheme. simpl.
    rewrite lookup_insert_eq, Hs.
    destruct Hpref as [-> | ->]; simpl; auto. }
  split; [done|]. split; [by apply Htwice|].
  assert (Hiter : Theme.currentTheme (Nat.iter (2 * k) Theme.toggleTheme s0)
                    = pref
                  ∧ Theme.persisted (Nat.iter (2 * k) Theme.toggleTheme s0)
                    = Some pref).
  { induction k as [|k IH]; [done|].
    replace (2 * S k) with (S (S (2 * k))) by lia. simpl Nat.iter.
    apply Htwice, IH. }
  apply Hiter.
Qed.

Lemma toggleTheme_twice_persisted_witness :
  let s0 := Theme.start {[ Theme.themeLocalStorageKey := "dark" ]}
              ["page"] true in
  Theme.persisted s0 = Some "dark"
  ∧ Theme.persisted (Theme.toggleTheme (Theme.toggleTheme s0)) = Some "dark"
  ∧ Theme.persisted (Nat.iter (2 * 3) Theme.toggleTheme s0) = Some "dark".
Proof.
  apply (toggleTheme_twice_persisted
           {[ Theme.themeLocalStorageKey := "dark" ]} ["page"] true "dark" 3).
  - reflexivity.
  - by right.
Defined.

(** Without a stored preference the first toggle writes one, so two
    toggles do not bring the store back to its empty start. *)
Example toggleTheme_twice_from_empty :
  Theme.persisted (Theme.start ∅ [] false) = None
  ∧ Theme.persisted
      (Theme.toggleTheme (Theme.toggleTheme (Theme.start ∅ [] false)))
    = Some "light".
Proof. split; reflexivity. Qed.

(** ** The monad: running and returning *)

Section MonadFacts.

Context {A B : Type}.

Lemma bind_run (m : M A) (k : A → M B) (p : page) :
  (m ≫= k) p =
    match m p with
    | Return a q => k a q
    | Raise e q => Raise e q
    end.
Proof. reflexivity. Qed.

Lemma returns_bind (m : M A) (k : A → M B) :
  returns m → (∀ a, returns (k a)) → returns (m ≫= k).
Proof.
  intros Hm Hk p. rewrite bind_run.
  destruct (Hm p) as [a Ha]. rewrite Ha.
  destruct (Hk a (final_page (m p))) as [b Hb]. rewrite Hb. eauto.
Qed.

Lemma returns_gets (g : page → A) : returns (gets g).
Proof. intros p. by exists (g p). Qed.

End MonadFacts.

Section MonadUnitFacts.

Lemma returns_unit (m : M unit) (p : page) :
  returns m → m p = Return tt (final_page (m p)).
Proof. intros Hm. by destruct (Hm p) as [[] Ha]. Qed.

Lemma returns_modify (g : page → page) : returns (modify g).
Proof. intros p. by exists tt. Qed.

Lemma returns_ret (u : unit) : returns (mret u : M unit).
Proof. intros p. by exists u. Qed.

Lemma returns_when (c : bool) (m : M unit) : returns m → returns (when c m).
Proof. destruct c; [done|]. intros _. apply returns_ret. Qed.

Lemma returns_with_form (f : form_id) (g : form_dom → form_dom) :
  returns (UI.with_form f g).
Proof. apply returns_modify. Qed.

Lemma returns_displayFeedback (msg : string) (f : form_id) (ty : string) :
  returns (UI.displayFeedback msg f ty).
Proof. apply returns_modify. Qed.

(** A [catch] clause that returns makes the whole [try]/[catch]
    return. *)
Lemma returns_attempt (body : M unit) (handler : exn → M unit) :
  (∀ e, returns (handler e)) → returns (attempt body handler).
Proof.
  intros Hh p. unfold attempt. destruct (body p) as [a q|e q]; [eauto|].
  destruct (Hh e q) as [a Ha]. rewrite Ha. eauto.
Qed.

(** A [try] statement whose [catch] and [finally] clauses return ends
    in the page its [finally] clause leaves. *)
Lemma try_catch_finally_run (body : M unit) (handler : exn → M unit)
    (fin : M unit) (p q : page) :
  (∀ e, returns (handler e)) →
  fin (final_page (attempt body handler p)) = Return tt q →
  try_catch_finally body handler fin p = Return tt q.
Proof.
  intros Hh Hfin. unfold try_catch_finally.
  rewrite (returns_unit _ p (returns_attempt body handler Hh)) in *.
  simpl in *. by rewrite Hfin.
Qed.

End MonadUnitFacts.

Create HintDb js_returns.

#[local] Hint Resolve returns_bind returns_gets returns_modify returns_ret
  returns_when returns_with_form returns_displayFeedback : js_returns.

(** Unfolds the monad's operations so that a computation applied to a page
    reduces by [simpl]. *)
Ltac run_monad :=
  unfold mbind, M_bind, bind, mret, M_ret, ret, gets, modify, throw; simpl.

(** ** The listeners' building blocks *)

Section PipelineFacts.

Variable H : host.

Lemma get_set_form (f : form_id) (d : form_dom) (p : page) :
  get_form f (set_form f d p) = d.
Proof. by destruct f. Qed.

Lemma visible_set_form (f : form_id) (d : form_dom) (p : page) :
  visible_groups (set_form f d p) = visible_groups p.
Proof. by destruct f. Qed.

Lemma calls_set_form (f : form_id) (d : form_dom) (p : page) :
  calls (set_form f d p) = calls p.
Proof. by destruct f. Qed.

(** The façade operation: the call is recorded, then the gateway's
    answer decides. *)
Lemma post_run (endpoint fallback : string)
    (payload : gmap string fieldval) (p : page) :
  post H endpoint fallback payload p =
    match gateway H endpoint (post_options payload) with
    | Resolved r =>
        if success r
        then Return r (record_call endpoint (post_options payload) p)
        else Raise (JsError (opt_or_else (message r) fallback))
               (record_call endpoint (post_options payload) p)
    | Rejected msg =>
        Raise (JsError msg)
          (record_call endpoint (post_options payload) p)
    end.
Proof.
  unfold post, fetchData. run_monad.
  destruct (gateway H endpoint (post_options payload)) as [r|msg];
    simpl; [|reflexivity].
  by destruct (success r).
Qed.

(** The [finally] clause on a page that has the button. *)
Lemma unlock_run (f : form_id) (orig : string) (p : page) (b : control) :
  submitButton (get_form f p) = Some b →
  unlock f orig p =
    Return tt
      (set_form f
         (set_submitButton (Some (Control false orig false))
            (get_form f p)) p).
Proof.
  intros Hb. unfold unlock, UI.hideLoading, on_button, UI.with_form.
  run_monad. rewrite Hb. rewrite !get_set_form. simpl.
  rewrite Hb. by destruct f.
Qed.

Lemma unlock_calls (f : form_id) (orig : string) (p : page) :
  calls (final_page (unlock f orig p)) = calls p.
Proof.
  unfold unlock, UI.hideLoading, on_button, UI.with_form. run_monad.
  destruct (submitButton (get_form f p)); simpl; [|done].
  by rewrite !calls_set_form.
Qed.

Lemma unlock_visible (f : form_id) (orig : string) (p : page) :
  visible_groups (final_page (unlock f orig p)) = visible_groups p.
Proof.
  unfold unlock, UI.hideLoading, on_button, UI.with_form. run_monad.
  destruct (submitButton (get_form f p)); simpl; [|done].
  by rewrite !visible_set_form.
Qed.

Lemma returns_toggleDonationFields (v : string) :
  returns (toggleDonationFields v).
Proof.
  unfold toggleDonationFields.
  repeat (apply returns_bind; [auto with js_returns|intros ?]).
  repeat case_match; auto 10 with js_returns.
Qed.

Lemma toggle_run (v : string) (p : page) :
  toggleDonationFields v p = Return tt (toggle_page v p).
Proof. apply returns_unit, returns_toggleDonationFields. Qed.

(** [toggleDonationFields] only moves the four groups and the tab. *)
Lemma toggle_page_frame (v : string) (p : page) :
  donation (toggle_page v p) = donation p
  ∧ volunteer (toggle_page v p) = volunteer p
  ∧ newsletter (toggle_page v p) = newsletter p
  ∧ presetActive (toggle_page v p) = presetActive p
  ∧ calls (toggle_page v p) = calls p.
Proof.
  unfold toggle_page, toggleDonationFields, when. run_monad.
  destruct (String.eqb v "money").
  - simpl.
    by destruct (pix_checked (elements (donation p))).
  - by destruct (String.eqb v "goods"), (String.eqb v "time").
Qed.

(** The groups [toggleDonationFields] leaves visible: they depend on the
    value, on which nodes exist and on whether the pix radio is
    checked, and on nothing else. *)
Lemma toggle_page_visible (v : string) (p : page) :
  visible_groups (toggle_page v p)
  = type_rule v (pix_checked (elements (donation p))) p.
Proof.
  unfold toggle_page, toggleDonationFields, visible_groups, type_rule,
    when.
  run_monad.
  destruct (String.eqb v "money"); simpl.
  - destruct (pix_checked (elements (donation p))); simpl;
      by destruct (moneyFields p), (goodsFields p), (paymentGroup p),
           (pixDetails p).
  - destruct (String.eqb v "goods"), (String.eqb v "time"); simpl;
      by destruct (moneyFields p), (goodsFields p), (paymentGroup p),
           (pixDetails p).
Qed.

Lemma toggle_page_present (v : string) (p : page) :
  present (moneyFields (toggle_page v p)) = present (moneyFields p)
  ∧ present (goodsFields (toggle_page v p)) = present (goodsFields p)
  ∧ present (paymentGroup (toggle_page v p)) = present (paymentGroup p)
  ∧ present (pixDetails (toggle_page v p)) = present (pixDetails p).
Proof.
  unfold toggle_page, toggleDonationFields, when. run_monad.
  destruct (String.eqb v "money"); simpl.
  - destruct (pix_checked (elements (donation p))); simpl;
      by destruct (moneyFields p), (goodsFields p), (paymentGroup p),
           (pixDetails p).
  - destruct (String.eqb v "goods"), (String.eqb v "time"); simpl;
      by destruct (moneyFields p), (goodsFields p), (paymentGroup p),
           (pixDetails p).
Qed.

Lemma returns_resolved (cl : closure) (r : response) :
  returns (donation_resolved cl r)
  ∧ returns (volunteer_resolved r)
  ∧ returns (newsletter_resolved r).
Proof.
  pose proof returns_toggleDonationFields.
  unfold donation_resolved, volunteer_resolved, newsletter_resolved.
  repeat split; auto 20 with js_returns.
Qed.

Lemma returns_catch_of (f : form_id) (e : exn) : returns (catch_of f e).
Proof. destruct f; apply returns_displayFeedback. Qed.

End PipelineFacts.

(** ** The submit listeners *)

(** C2.  When the validation test of a listener fails
    ([form.checkValidity()] is false on the donation or volunteer form,
    or the newsletter email is empty or its [checkValidity()] is false),
    the listener returns having only replaced the form's banner by an
    error notice: no call reached the gateway, and the controls, the
    submit button and the rest of the page are as they were. *)
Theorem invalid_submit_stays_local (H : host) (cl : closure) (f : form_id)
    (p : page) :
  validation_fails H f p = true →
  listener H cl f p =
    Return tt
      (set_form f
         (set_feedback (Some (Notice "error" (validation_message f)))
            (get_form f p)) p)
  ∧ calls (final_page (listener H cl f p)) = calls p
  ∧ elements (get_form f (final_page (listener H cl f p)))
    = elements (get_form f p)
  ∧ submitButton (get_form f (final_page (listener H cl f p)))
    = submitButton (get_form f p)
  ∧ feedback (get_form f (final_page (listener H cl f p)))
    = Some (Notice "error" (validation_message f)).
Proof.
  intros Hv.
  assert (Hrun : listener H cl f p =
            Return tt
              (set_form f
                 (set_feedback (Some (Notice "error" (validation_message f)))
                    (get_form f p)) p)).
  { destruct f; simpl in *.
    - unfold donation_submit, UI.removeFeedback, UI.displayFeedback,
        UI.with_form. run_monad.
      apply negb_true_iff in Hv. by rewrite Hv.
    - unfold volunteer_submit, UI.removeFeedback, UI.displayFeedback,
        UI.with_form. run_monad.
      apply negb_true_iff in Hv. by rewrite Hv.
    - unfold newsletter_submit, UI.removeFeedback, UI.displayFeedback,
        UI.with_form. run_monad. unfold emailInput_of in Hv.
      destruct (find _ (elements (newsletter p))) as [input|];
        [|discriminate].
      run_monad. by rewrite Hv. }
  rewrite Hrun. simpl. rewrite get_set_form, calls_set_form. done.
Qed.

Lemma invalid_submit_stays_local_witness :
  let H := mock_host (Entropy 0 0 0 0 0 0) (fun _ _ => false)
             (fun _ => false) in
  let form := FormDom [textInput "donation-amount" "amount" ""]
                (Some (Control false "Doar" false)) None in
  let p := Page form form form (Some false) (Some false) (Some false)
             (Some false) [] None [] in
  calls (final_page (listener H (Closure None None) Donation p)) = [].
Proof.
  intros H form p.
  apply (invalid_submit_stays_local H (Closure None None) Donation p).
  reflexivity.
Defined.

(** C3, evaluated on every submission that passes validation.  The
    button is disabled and (donation, volunteer) given its busy label;
    then [UI.showLoading] throws a [TypeError]: [DOM.createEl] does not
    read [options.innerHTML], so the loader has no [.spinner] child and
    [loader.querySelector('.spinner').style] reads a property of
    [null].  The call is made outside the [try] statement, so the
    listener ends there: nothing is sent, the [finally] clause never
    runs and the button stays disabled under its busy label. *)
Theorem valid_submit_stalls (H : host) (cl : closure) (f : form_id)
    (p : page) (b : control) :
  validation_fails H f p = false →
  listener_nodes_present f p = true →
  submitButton (get_form f p) = Some b →
  ∃ p', listener H cl f p = Raise TypeError p'
        ∧ submitButton (get_form f p')
          = Some (Control true (busy_label f (textContent b)) false)
        ∧ calls p' = calls p.
Proof.
  intros Hv Hn Hb. destruct f; simpl in *.
  - unfold donation_submit, UI.removeFeedback, UI.displayFeedback,
      UI.showLoading, on_button, UI.with_form. run_monad.
    apply negb_false_iff in Hv. rewrite Hv. simpl.
    repeat (rewrite Hb; simpl). eauto.
  - unfold volunteer_submit, UI.removeFeedback, UI.displayFeedback,
      UI.showLoading, on_button, UI.with_form. run_monad.
    apply negb_false_iff in Hv. rewrite Hv. simpl.
    repeat (rewrite Hb; simpl). eauto.
  - unfold listener_nodes_present in Hn. simpl in Hn. rewrite Hb in Hn.
    unfold newsletter_submit, UI.removeFeedback, UI.displayFeedback,
      UI.showLoading, on_button, UI.with_form. run_monad.
    unfold emailInput_of in *.
    destruct (find _ (elements (newsletter p))) as [input|];
      [|by apply bool_decide_eq_true in Hn as [? ?]].
    run_monad. rewrite Hv. simpl. repeat (rewrite Hb; simpl). eauto.
Qed.

Lemma valid_submit_stalls_witness :
  let H := mock_host (Entropy 0 0 0 0 0 0) (fun _ _ => true)
             (fun _ => true) in
  let form := FormDom [textInput "donation-amount" "amount" "50"]
                (Some (Control false "Doar" false)) None in
  let p := Page form form form (Some false) (Some false) (Some false)
             (Some false) [] None [] in
  ∃ p', listener H (Closure None None) Donation p = Raise TypeError p'
        ∧ submitButton (donation p')
          = Some (Control true "Processando..." false)
        ∧ calls p' = [].
Proof.
  intros H form p.
  apply (valid_submit_stalls H (Closure None None) Donation p
           (Control false "Doar" false)); reflexivity.
Defined.

(** What is left of the page when the listener ends in [UI.showLoading]:
    the banner removed, the button disabled under its busy label, and
    everything else as it was. *)
Lemma listener_stall_frame (H : host) (cl : closure) (f : form_id)
    (p : page) (b : control) :
  validation_fails H f p = false →
  listener_nodes_present f p = true →
  submitButton (get_form f p) = Some b →
  ∃ p', listener H cl f p = Raise TypeError p'
        ∧ submitButton (get_form f p')
          = Some (Control true (busy_label f (textContent b)) false)
        ∧ feedback (get_form f p') = None
        ∧ elements (get_form f p') = elements (get_form f p)
        ∧ calls p' = calls p
        ∧ visible_groups p' = visible_groups p
        ∧ presetActive p' = presetActive p.
Proof.
  intros Hv Hn Hb. destruct f; simpl in *.
  - unfold donation_submit, UI.removeFeedback, UI.displayFeedback,
      UI.showLoading, on_button, UI.with_form. run_monad.
    apply negb_false_iff in Hv. rewrite Hv. simpl.
    repeat (rewrite Hb; simpl). eexists. split; [reflexivity|].
    by repeat split.
  - unfold volunteer_submit, UI.removeFeedback, UI.displayFeedback,
      UI.showLoading, on_button, UI.with_form. run_monad.
    apply negb_false_iff in Hv. rewrite Hv. simpl.
    repeat (rewrite Hb; simpl). eexists. split; [reflexivity|].
    by repeat split.
  - unfold listener_nodes_present in Hn. simpl in Hn. rewrite Hb in Hn.
    unfold newsletter_submit, UI.removeFeedback, UI.displayFeedback,
      UI.showLoading, on_button, UI.with_form. run_monad.
    unfold emailInput_of in *.
    destruct (find _ (elements (newsletter p))) as [input|];
      [|by apply bool_decide_eq_true in Hn as [? ?]].
    run_monad. rewrite Hv. simpl. repeat (rewrite Hb; simpl).
    eexists. split; [reflexivity|]. by repeat split.
Qed.

(** ** The [try] statements *)

Section TryFacts.

Variable H : host.

(** The [try] block with its [catch] clause, by the gateway's answer. *)
Lemma attempt_run (cl : closure) (f : form_id) (email : string)
    (p : page) :
  attempt (body_of H cl f email) (catch_of f) p =
    let q := record_call (endpoint_of f)
               (post_options (payload_of f email p)) p in
    match gateway H (endpoint_of f) (post_options (payload_of f email p))
    with
    | Resolved r =>
        if success r
        then Return tt (final_page (resolved_of cl f r q))
        else catch_of f
               (JsError (opt_or_else (message r) (fallback_of f))) q
    | Rejected msg => catch_of f (JsError msg) q
    end.
Proof.
  destruct f; unfold attempt; simpl.
  - unfold donation_body, submitDonation. rewrite bind_run. simpl.
    rewrite bind_run, post_run.
    destruct (gateway H _ _) as [r|msg]; [|done].
    destruct (success r); [|done].
    by rewrite (returns_unit _ _ (proj1 (returns_resolved cl r))).
  - unfold volunteer_body, submitVolunteerForm. rewrite bind_run. simpl.
    rewrite bind_run, post_run.
    destruct (gateway H _ _) as [r|msg]; [|done].
    destruct (success r); [|done].
    by rewrite (returns_unit _ _
                  (proj1 (proj2 (returns_resolved cl r)))).
  - unfold newsletter_body, submitNewsletter.
    rewrite bind_run, post_run.
    destruct (gateway H _ _) as [r|msg]; [|done].
    destruct (success r); [|done].
    by rewrite (returns_unit _ _
                  (proj2 (proj2 (returns_resolved cl r)))).
Qed.

(** After the call has resolved: the success banner, the form reset,
    and nothing else of the form or of the call log touched. *)
Lemma resolved_frame (cl : closure) (f : form_id) (r : response)
    (q : page) :
  let q' := final_page (resolved_of cl f r q) in
  feedback (get_form f q')
    = Some (Notice "success"
              (opt_or_else (message r) (success_default f)))
  ∧ elements (get_form f q') = reset_element <$> elements (get_form f q)
  ∧ submitButton (get_form f q') = submitButton (get_form f q)
  ∧ calls q' = calls q.
Proof.
  destruct f; simpl.
  - unfold donation_resolved, UI.displayFeedback, UI.with_form, when.
    run_monad.
    destruct (opt_truthy (initialDonationType cl));
      [rewrite toggle_run|]; simpl;
      destruct (opt_differs (initialPayment cl) "pix"); simpl;
      rewrite ?(proj1 (toggle_page_frame _ _)),
        ?(proj2 (proj2 (proj2 (proj2 (toggle_page_frame _ _)))));
      done.
  - unfold volunteer_resolved, UI.displayFeedback, UI.with_form.
    by run_monad.
  - unfold newsletter_resolved, UI.displayFeedback, UI.with_form.
    by run_monad.
Qed.

(** The [catch] clause: the error banner, nothing else. *)
Lemma catch_run (f : form_id) (e : exn) (q : page) :
  catch_of f e q =
    Return tt
      (set_form f
         (set_feedback
            (Some (Notice "error" (error_prefix f ++ exn_message e)))
            (get_form f q)) q).
Proof. by destruct f. Qed.

(** The [try] block and its [catch] clause leave the button alone. *)
Lemma attempt_button (cl : closure) (f : form_id) (email : string)
    (p : page) :
  submitButton
    (get_form f (final_page (attempt (body_of H cl f email) (catch_of f) p)))
  = submitButton (get_form f p).
Proof.
  rewrite attempt_run. simpl.
  destruct (gateway H _ _) as [r|msg];
    [destruct (success r)|]; rewrite ?catch_run; simpl.
  - rewrite (proj1 (proj2 (proj2 (resolved_frame cl f r _)))).
    by destruct f.
  - rewrite get_set_form. by destruct f.
  - rewrite get_set_form. by destruct f.
Qed.

(** The whole statement: it returns, and the page it leaves is the one
    after [try]/[catch] with the button enabled, relabelled and without
    loader. *)
Lemma try_statement_run (cl : closure) (f : form_id) (email orig : string)
    (p : page) (b : control) :
  submitButton (get_form f p) = Some b →
  let q := final_page
             (attempt (body_of H cl f email) (catch_of f) p) in
  try_statement H cl f email orig p =
    Return tt
      (set_form f
         (set_submitButton (Some (Control false orig false))
            (get_form f q)) q).
Proof.
  intros Hb q.
  assert (Hq : submitButton (get_form f q) = Some b)
    by (unfold q; by rewrite attempt_button).
  pose proof (unlock_run f orig q b Hq) as Hfin.
  destruct f; simpl;
    apply (try_catch_finally_run _ _ _ _ _
             (returns_catch_of _) Hfin).
Qed.

(** Cleanup on both paths: whatever the gateway answers, the statement
    returns with the button enabled, its label restored and no loader
    attached. *)
Lemma try_statement_unlocks (cl : closure) (f : form_id)
    (email orig : string) (p : page) (b : control) :
  submitButton (get_form f p) = Some b →
  ∃ p', try_statement H cl f email orig p = Return tt p'
        ∧ submitButton (get_form f p') = Some (Control false orig false).
Proof.
  intros Hb. rewrite (try_statement_run cl f email orig p b Hb).
  eexists. split; [reflexivity|]. by rewrite get_set_form.
Qed.

End TryFacts.

Section TryOutcomes.

Variable H : host.

Lemma final_page_try (body : M unit) (handler : exn → M unit)
    (fin : M unit) (p : page) :
  final_page (try_catch_finally body handler fin p)
  = final_page (fin (final_page (attempt body handler p))).
Proof.
  unfold try_catch_finally.
  destruct (fin (final_page (attempt body handler p))) as [[] q|e q];
    [|done].
  by destruct (attempt body handler p).
Qed.

(** Exactly one request is recorded by the [try] block, whatever the
    gateway answers. *)
Lemma attempt_calls (cl : closure) (f : form_id) (email : string)
    (p : page) :
  calls (final_page (attempt (body_of H cl f email) (catch_of f) p))
  = (calls p ++ [request_of f email p])%list.
Proof.
  rewrite attempt_run. simpl.
  destruct (gateway H _ _) as [r|msg];
    [destruct (success r)|]; rewrite ?catch_run; simpl.
  - by rewrite (proj2 (proj2 (proj2 (resolved_frame cl f r _)))).
  - by rewrite calls_set_form.
  - by rewrite calls_set_form.
Qed.

(** A rejected call: the error banner with the gateway's message, the
    controls as the user left them, the button restored. *)
Lemma try_statement_rejected (cl : closure) (f : form_id)
    (email orig msg : string) (p : page) (b : control) :
  submitButton (get_form f p) = Some b →
  gateway H (endpoint_of f) (post_options (payload_of f email p))
    = Rejected msg →
  ∃ p', try_statement H cl f email orig p = Return tt p'
        ∧ feedback (get_form f p')
          = Some (Notice "error" (error_prefix f ++ msg))
        ∧ submitButton (get_form f p') = Some (Control false orig false)
        ∧ elements (get_form f p') = elements (get_form f p).
Proof.
  intros Hb Hg. rewrite (try_statement_run H cl f email orig p b Hb).
  eexists. split; [reflexivity|].
  rewrite get_set_form, attempt_run, Hg, catch_run. simpl.
  rewrite get_set_form. by destruct f.
Qed.

(** A resolved call with [success: true]: the success banner, the form
    reset, the button restored. *)
Lemma try_statement_resolved (cl : closure) (f : form_id)
    (email orig : string) (r : response) (p : page) (b : control) :
  submitButton (get_form f p) = Some b →
  gateway H (endpoint_of f) (post_options (payload_of f email p))
    = Resolved r →
  success r = true →
  ∃ p', try_statement H cl f email orig p = Return tt p'
        ∧ feedback (get_form f p')
          = Some (Notice "success"
                    (opt_or_else (message r) (success_default f)))
        ∧ submitButton (get_form f p') = Some (Control false orig false)
        ∧ elements (get_form f p')
          = reset_element <$> elements (get_form f p).
Proof.
  intros Hb Hg Hs. rewrite (try_statement_run H cl f email orig p b Hb).
  eexists. split; [reflexivity|].
  rewrite get_set_form, attempt_run, Hg, Hs. simpl.
  destruct (resolved_frame cl f r
              (record_call (endpoint_of f)
                 (post_options (payload_of f email p)) p))
    as (Hf & He & _ & _).
  simpl in Hf, He. rewrite Hf, He. by destruct f.
Qed.

End TryOutcomes.

Lemma append_nonempty (a b : string) : a ≠ "" → a ++ b ≠ "".
Proof. destruct a; [done|]. discriminate. Qed.



(** C10.  With the script's own gateway, every endpoint that starts with
    one of the three form-submission prefixes resolves with
    [success: true]; no resolved payload of the gateway has
    [success: false]; a rejection only comes from an endpoint that
    starts with no mocked prefix.  So the three façade operations never
    throw, and the [try] statement of each listener always ends with the
    success notice: its [catch] clause is not reached. *)
Theorem form_endpoints_never_fail (rnd : entropy)
    (formValid : form_id → list element → bool)
    (inputValid : element → bool) :
  let H := mock_host rnd formValid inputValid in
  (∀ endpoint o,
     JsString.startsWith endpoint "/process-donation"
     || JsString.startsWith endpoint "/process-volunteer"
     || JsString.startsWith endpoint "/subscribe-newsletter" = true →
     Utils.fetchData rnd endpoint o
     = Resolved {| success := true;
                   message := Some "Dados recebidos com sucesso!";
                   data := NoData |})
  ∧ (∀ endpoint o r,
       Utils.fetchData rnd endpoint o = Resolved r → success r = true)
  ∧ (∀ endpoint o msg,
       Utils.fetchData rnd endpoint o = Rejected msg →
       Forall (fun pre => JsString.startsWith endpoint pre = false)
         Utils.mockedPrefixes)
  ∧ (∀ f payload p,
       ∃ r, post H (endpoint_of f) (fallback_of f) payload p
            = Return r (record_call (endpoint_of f) (post_options payload) p)
            ∧ success r = true)
  ∧ (∀ cl f email orig p b,
       submitButton (get_form f p) = Some b →
       ∃ p', try_statement H cl f email orig p = Return tt p'
             ∧ feedback (get_form f p')
               = Some (Notice "success" "Dados recebidos com sucesso!")).
Proof.
  intros H.
  assert (Hform : ∀ f o,
            gateway H (endpoint_of f) o
            = Resolved {| success := true;
                          message := Some "Dados recebidos com sucesso!";
                          data := NoData |}).
  { intros f o. simpl. apply fetchData_form_prefix. by destruct f. }
  split; [intros; by apply fetchData_form_prefix|].
  split; [intros ? ? ?; apply fetchData_resolved_success|].
  split; [intros ? ? ? Hr;
          by apply fetchData_rejected_unmocked in Hr as [_ Hr]|].
  split.
  - intros f payload p. rewrite post_run, Hform. simpl. eauto.
  - intros cl f email orig p b Hb.
    destruct (try_statement_resolved H cl f email orig _ p b Hb
                (Hform f _) eq_refl) as (p' & Hrun & Hf & _).
    eauto.
Qed.

(** [checked_values] is empty when no box of the group is checked. *)
Lemma checked_values_none (nm : string) (l : list element) :
  (∀ e, e ∈ l → checked_named nm e = false) → checked_values nm l = [].
Proof.
  unfold checked_values. induction l as [|e l IH]; intros Hnone; [done|].
  simpl. rewrite (Hnone e) by (by left).
  apply IH. intros x Hx. apply Hnone. by right.
Qed.

(** C5.  A volunteer submission that passes validation sends no payload
    at all: the listener disables the button, labels it ['Enviando...']
    and stops in [UI.showLoading] with a [TypeError], before the [try]
    block that serialises the form and assigns [formData.skills].  The
    call log and the controls are as before, whatever boxes of
    ['skills[]'] are checked. *)
Theorem volunteer_submit_sends_no_payload (H : host) (cl : closure)
    (p : page) (b : control) :
  validation_fails H Volunteer p = false →
  submitButton (volunteer p) = Some b →
  ∃ p', listener H cl Volunteer p = Raise TypeError p'
        ∧ calls p' = calls p
        ∧ elements (volunteer p') = elements (volunteer p)
        ∧ submitButton (volunteer p')
          = Some (Control true "Enviando..." false).
Proof.
  intros Hv Hb.
  destruct (listener_stall_frame H cl Volunteer p b Hv) as
    (p' & Hrun & Hbtn & _ & He & Hc & _); [|done|].
  { unfold listener_nodes_present. simpl. by rewrite Hb. }
  by exists p'.
Qed.

Lemma volunteer_submit_sends_no_payload_witness :
  let form := FormDom
                [ textInput "vol-name" "name" "Ana";
                  checkbox "skills[]" "logistics" true false;
                  checkbox "skills[]" "cooking" false false;
                  checkbox "skills[]" "driving" true false ]
                (Some (Control false "Enviar" false)) None in
  let p := Page (FormDom [] None None) form (FormDom [] None None)
             None None None None [] None [] in
  ∃ p', listener sample_host (Closure None None) Volunteer p
        = Raise TypeError p'
        ∧ calls p' = []
        ∧ submitButton (volunteer p')
          = Some (Control true "Enviando..." false).
Proof.
  intros form p.
  destruct (volunteer_submit_sends_no_payload sample_host
              (Closure None None) p (Control false "Enviar" false))
    as (p' & Hrun & Hc & _ & Hb); [reflexivity..|].
  exact (ex_intro _ p' (conj Hrun (conj Hc Hb))).
Defined.

Example volunteer_payload_two_checked :
  volunteer_payload
    [ checkbox "skills[]" "logistics" true false;
      checkbox "skills[]" "cooking" false false;
      checkbox "skills[]" "driving" true false ] !! "skills"
  = Some (Seq ["logistics"; "driving"]).
Proof. reflexivity. Qed.

(** ** The donation form's conditional groups *)

Section VisibilityFacts.

#[local] Arguments toggleDonationFields : simpl never.
#[local] Arguments visible_groups : simpl never.
#[local] Arguments type_rule : simpl never.

Lemma reset_pristine (e : element) :
  pristine e = true → reset_element e = e.
Proof.
  unfold pristine, reset_element. destruct e as [i n t v c d dv dc].
  simpl. intros Hp. apply andb_true_iff in Hp as [Hc Hv].
  apply Bool.eqb_prop in Hc. subst dc.
  destruct (is_check_or_radio _); [done|].
  simpl in Hv. apply String.eqb_eq in Hv. by subst.
Qed.

Lemma reset_all_pristine (l : list element) :
  Forall (fun e => pristine e = true) l → reset_element <$> l = l.
Proof.
  induction 1 as [|e l He _ IH]; [done|].
  csimpl. by rewrite reset_pristine, IH.
Qed.

Lemma reset_select_radio (nm v : string) (l : list element) :
  reset_element <$> select_radio nm v l = reset_element <$> l.
Proof.
  unfold select_radio. induction l as [|e l IH]; [done|].
  csimpl. rewrite IH. f_equal. by destruct (is_radio_of nm e).
Qed.

Lemma reset_type_into (id v : string) (l : list element) :
  reset_element <$> type_into id v l = reset_element <$> l.
Proof.
  unfold type_into. induction l as [|e l IH]; [done|].
  csimpl. rewrite IH. f_equal.
  destruct (String.eqb (el_id e) id); [|done].
  destruct (is_check_or_radio e) eqn:Ec; [done|].
  unfold reset_element, set_value, is_check_or_radio in *. simpl.
  by rewrite Ec.
Qed.

Lemma present_show (v : option bool) : present (DOM.show v) = present v.
Proof. by destruct v. Qed.

Lemma present_hide (v : option bool) : present (DOM.hide v) = present v.
Proof. by destruct v. Qed.

Lemma shown_hide (v : option bool) : shown (DOM.hide v) = false.
Proof. by destruct v. Qed.

Lemma same_markup_refl (p : page) : same_markup p p.
Proof. by repeat split. Qed.

Lemma same_markup_trans (p q r : page) :
  same_markup p q → same_markup q r → same_markup p r.
Proof.
  intros (?&?&?&?&?) (?&?&?&?&?). repeat split; congruence.
Qed.

Lemma same_markup_toggle (v : string) (p : page) :
  same_markup p (toggle_page v p).
Proof.
  destruct (toggle_page_present v p) as (?&?&?&?).
  destruct (toggle_page_frame v p) as (Hd&_).
  repeat split; try done. by rewrite Hd.
Qed.

(** A gesture changes neither which groups exist nor what a reset
    restores. *)
Lemma same_markup_event (ev : user_event) (p : page) :
  same_markup p (final_page (on_event ev p)).
Proof.
  destruct ev as [v|v|i amount|id v]; unfold on_event, when, UI.with_form;
    run_monad.
  - destruct (has_radio _ _ _); [|apply same_markup_refl].
    rewrite toggle_run. simpl.
    eapply same_markup_trans; [|apply same_markup_toggle].
    repeat split; try done. simpl. by rewrite reset_select_radio.
  - destruct (has_radio _ _ _); [|apply same_markup_refl].
    destruct (String.eqb v "pix"); simpl;
      repeat split; simpl; rewrite ?present_show, ?present_hide,
        ?reset_select_radio; done.
  - destruct (existsb _ _); [|apply same_markup_refl].
    simpl. repeat split; simpl; by rewrite ?reset_type_into.
  - destruct (String.eqb id "donation-amount"); simpl;
      repeat split; simpl; by rewrite ?reset_type_into.
Qed.

Lemma same_markup_session (evs : list user_event) (p : page) :
  same_markup p (session evs p).
Proof.
  revert p. induction evs as [|ev evs IH]; intros p;
    [apply same_markup_refl|].
  simpl. eapply same_markup_trans; [apply same_markup_event|].
  apply IH.
Qed.

(** What [initDonationForm] returns and leaves, when it returns. *)
Lemma initDonationForm_run (p0 p1 : page) (cl : closure) :
  initDonationForm p0 = Return cl p1 →
  let idt := first_checked_value "donation_type"
               (elements (donation p0)) in
  let ipay := first_checked_value "payment_method"
                (elements (donation p0)) in
  cl = Closure idt ipay
  ∧ same_markup p0 p1
  ∧ (opt_truthy idt = true →
     visible_groups p1
     = pix_rule ipay
         (type_rule (default "" idt)
            (pix_checked (elements (donation p0))) p0)).
Proof.
  intros Hinit. cbv zeta.
  unfold initDonationForm, when in Hinit.
  unfold mbind, M_bind, bind, mret, M_ret, ret, gets, modify, throw
    in Hinit.
  simpl in Hinit.
  destruct (pixDetails p0) as [pix|] eqn:Hpix; [|discriminate].
  simpl in Hinit.
  remember (first_checked_value "donation_type" (elements (donation p0)))
    as idt eqn:Hidt in *.
  destruct (opt_truthy idt) eqn:Ht.
  - simpl in Hinit. rewrite toggle_run in Hinit. simpl in Hinit.
    destruct (toggle_page_frame (default "" idt) p0) as (Hd&_).
    rewrite Hd in Hinit.
    remember (first_checked_value "payment_method"
                (elements (donation p0))) as ipay eqn:Hipay in *.
    unfold pix_rule.
    rewrite <- toggle_page_visible.
    destruct (opt_differs ipay "pix"); simpl in Hinit;
      injection Hinit as <- <-.
    + split; [done|]. split.
      * eapply same_markup_trans; [apply same_markup_toggle|].
        repeat split; simpl; by rewrite ?present_hide.
      * intros _. unfold visible_groups. simpl. by rewrite shown_hide.
    + split; [done|]. split; [apply same_markup_toggle|done].
  - simpl in Hinit.
    remember (first_checked_value "payment_method"
                (elements (donation p0))) as ipay eqn:Hipay in *.
    destruct (opt_differs ipay "pix"); simpl in Hinit;
      injection Hinit as <- <-.
    + split; [done|]. split; [|done].
      repeat split; simpl; by rewrite ?present_hide.
    + split; [done|]. split; [apply same_markup_refl|done].
Qed.

(** The groups left visible by what follows the [await], when an
    initial donation type was captured. *)
Lemma donation_resolved_visible (cl : closure) (r : response) (q : page) :
  opt_truthy (initialDonationType cl) = true →
  visible_groups (final_page (donation_resolved cl r q))
  = pix_rule (initialPayment cl)
      (type_rule (default "" (initialDonationType cl))
         (pix_checked (reset_element <$> elements (donation q))) q).
Proof.
  intros Ht.
  unfold donation_resolved, UI.displayFeedback, UI.with_form, when.
  run_monad. rewrite Ht. simpl. rewrite toggle_run. simpl.
  set (q1 := Page _ _ _ _ _ _ _ _ _ _).
  assert (Hvis : visible_groups
                   (toggle_page (default "" (initialDonationType cl)) q1)
                 = type_rule (default "" (initialDonationType cl))
                     (pix_checked
                        (reset_element <$> elements (donation q))) q)
    by (by rewrite toggle_page_visible).
  rewrite <- Hvis. unfold pix_rule.
  destruct (opt_differs _ "pix"); simpl; [|done].
  unfold visible_groups. simpl. by rewrite shown_hide.
Qed.

End VisibilityFacts.

(** The success path of the donation [try] statement, were it entered.
    Let the page be loaded with the donation controls in their markup
    state and let [initDonationForm] have captured a non-empty initial
    donation type.  Then, whatever the user chose afterwards, once the
    call has resolved with [success: true] the [try] statement leaves
    exactly the conditional groups visible that were visible when
    [initDonationForm] had run. *)
Theorem donation_success_restores_groups (H : host) (p0 p1 : page)
    (cl : closure) (evs : list user_event) (orig : string) (r : response) :
  Forall (fun e => pristine e = true) (elements (donation p0)) →
  initDonationForm p0 = Return cl p1 →
  opt_truthy (initialDonationType cl) = true →
  gateway H "/process-donation"
    (post_options (serializeForm (elements (donation (session evs p1)))))
  = Resolved r →
  success r = true →
  visible_groups (final_page (donation_try H cl orig (session evs p1)))
  = visible_groups p1.
Proof.
  intros Hfresh Hinit Ht Hg Hs.
  destruct (initDonationForm_run p0 p1 cl Hinit) as (Hcl & Hsame & Hvis).
  rewrite Hcl in Ht. simpl in Ht. specialize (Hvis Ht).
  pose proof (same_markup_trans _ _ _ Hsame (same_markup_session evs p1))
    as (Hm & Hgo & Hpa & Hpx & Hel).
  set (p := session evs p1) in *.
  unfold donation_try. rewrite final_page_try, unlock_visible.
  pose proof (attempt_run H cl Donation "" p) as Hrun. simpl in Hrun.
  rewrite Hrun, Hg, Hs. simpl.
  rewrite donation_resolved_visible by (by rewrite Hcl).
  rewrite Hvis, Hcl. simpl. f_equal.
  rewrite <- Hel, (reset_all_pristine _ Hfresh).
  unfold type_rule. simpl. by rewrite Hm, Hgo, Hpa, Hpx.
Qed.

Lemma donation_success_restores_groups_witness :
  let p0 := sample_page "money" "card" in
  let p1 := final_page (initDonationForm p0) in
  let evs := [ChooseDonationType "goods"; ChoosePaymentMethod "pix";
              EditField "donation-amount" "50"] in
  visible_groups
    (final_page
       (donation_try sample_host (Closure (Some "money") (Some "card"))
          "Doar" (session evs p1)))
  = visible_groups p1.
Proof.
  intros p0 p1 evs.
  apply (donation_success_restores_groups sample_host p0 p1
           (Closure (Some "money") (Some "card")) evs "Doar"
           {| success := true;
              message := Some "Dados recebidos com sucesso!";
              data := NoData |}).
  - repeat constructor.
  - vm_compute. reflexivity.
  - reflexivity.
  - reflexivity.
  - reflexivity.
Defined.

(** The guard [if(initialDonationType)] of that success path.  With no
    donation type checked in the markup, [initDonationForm] captures no
    initial type and the success path, were it entered, skips
    [toggleDonationFields]: the groups the user's choice made visible
    stay visible, while at load none was. *)
Lemma donation_success_keeps_user_groups :
  let p1 := final_page (initDonationForm (sample_page "" "")) in
  let p := session [ChooseDonationType "money"] p1 in
  visible_groups p1 = Visibility false false false false
  ∧ visible_groups p = Visibility true false true false
  ∧ visible_groups
      (final_page (donation_try sample_host (Closure None None) "Doar" p))
    = Visibility true false true false
  ∧ ¬ restores_visibility_claim.
Proof.
  intros p1 p.
  assert (Hload : visible_groups p1 = Visibility false false false false)
    by (vm_compute; reflexivity).
  assert (Hdone : visible_groups
                    (final_page
                       (donation_try sample_host (Closure None None) "Doar"
                          p))
                  = Visibility true false true false)
    by (vm_compute; reflexivity).
  split; [exact Hload|]. split; [vm_compute; reflexivity|].
  split; [exact Hdone|]. intros Hclaim.
  specialize (Hclaim sample_host (sample_page "" "") p1
                (Closure None None) [ChooseDonationType "money"] "Doar"
                {| success := true;
                   message := Some "Dados recebidos com sucesso!";
                   data := NoData |}).
  fold p in Hclaim. rewrite Hdone, Hload in Hclaim.
  assert (Heq : Visibility true false true false
                = Visibility false false false false).
  { apply Hclaim.
    - repeat constructor.
    - vm_compute. reflexivity.
    - reflexivity.
    - reflexivity. }
  discriminate Heq.
Qed.



(** * Further properties *)

(** ** [serializeForm]: which keys, which values *)

Section SerializeMore.

Implicit Types (d : gmap string fieldval) (e : element) (n : string).

Lemma truthy_is_Some (v : option fieldval) : truthy v = true → is_Some v.
Proof. destruct v; [eauto|discriminate]. Qed.

(** A step never removes a key, and adds the key of a control exactly
    when the control writes. *)
Lemma serialize_step_keys d e n :
  is_Some (serialize_step d e !! n)
  ↔ is_Some (d !! n) ∨ (name e = n ∧ writes e = true).
Proof.
  destruct (String.eqb (name e) n) eqn:En.
  - apply String.eqb_eq in En. subst n.
    unfold serialize_step, writes.
    destruct (JsString.truthy (name e)), (disabled e),
      (is_check_or_radio e), (checked e), (String.eqb (type e) "checkbox"),
      (JsString.endsWith (name e) "[]"), (is_plain_type e),
      (truthy (d !! name e)) eqn:Et;
      simpl; rewrite ?lookup_insert_eq;
      try (apply truthy_is_Some in Et);
      split; intros Hx; eauto;
      try (destruct Hx as [Hx|[_ Hx]]; [assumption|discriminate Hx]).
  - apply String.eqb_neq in En. rewrite serialize_step_other by done.
    split; [auto|]. by intros [?|[? _]].
Qed.

Lemma fold_keys l d n :
  is_Some (fold_left serialize_step l d !! n)
  ↔ is_Some (d !! n) ∨ ∃ e, e ∈ l ∧ name e = n ∧ writes e = true.
Proof.
  revert d. induction l as [|e l IH]; intros d; simpl.
  - split; [auto|]. intros [?|(e & He & _)]; [done|].
    by apply elem_of_nil in He.
  - rewrite IH, serialize_step_keys. split.
    + intros [[?|[? ?]]|(x & ? & ? & ?)]; eauto.
      * right. exists e. split; [by left|done].
      * right. exists x. split; [by right|done].
    + intros [?|(x & Hx & ? & ?)]; [auto|].
      apply elem_of_cons in Hx as [->|Hx]; eauto 6.
Qed.

(** A disabled control leaves the object as it is. *)
Lemma serialize_step_disabled d e :
  disabled e = true → serialize_step d e = d.
Proof.
  intros Hd. unfold serialize_step. rewrite Hd. simpl.
  by rewrite !andb_false_r.
Qed.

Lemma fold_enabled l d :
  fold_left serialize_step (enabled_controls l) d
  = fold_left serialize_step l d.
Proof.
  revert d. induction l as [|e l IH]; intros d; [done|].
  unfold enabled_controls in *. simpl.
  destruct (disabled e) eqn:Hd; simpl.
  - by rewrite IH, serialize_step_disabled.
  - apply IH.
Qed.

(** An enabled checkbox of a ['[]'] name pushes its value when checked
    and otherwise makes sure the array exists. *)
Lemma enabled_box_step d e n (a : list string) :
  JsString.endsWith n "[]" = true → enabled_box n e = true →
  (d !! n = Some (Seq a) →
   serialize_step d e !! n
   = Some (Seq (a ++ if checked e then [value e] else [])))
  ∧ (d !! n = None →
     serialize_step d e !! n
     = Some (Seq (if checked e then [value e] else []))).
Proof.
  intros Hn Hb. unfold enabled_box in Hb.
  destruct (String.eqb (name e) n) eqn:En; [|discriminate].
  apply String.eqb_eq in En. subst n.
  pose proof (endsWith_nonempty _ Hn) as Hne.
  unfold serialize_step, is_check_or_radio.
  destruct (disabled e), (String.eqb (type e) "checkbox");
    simpl in Hb; try discriminate.
  rewrite Hne, Hn. simpl.
  split; intros Hd; rewrite Hd; simpl; destruct (checked e); simpl;
    rewrite ?lookup_insert_eq, ?Hd, ?app_nil_r; done.
Qed.

Lemma fold_group l d n (a : list string) :
  JsString.endsWith n "[]" = true →
  (∀ e, e ∈ l → name e = n → disabled e = false → type e = "checkbox") →
  (d !! n = Some (Seq a) →
   fold_left serialize_step l d !! n = Some (Seq (a ++ group_values n l)))
  ∧ (d !! n = None →
     fold_left serialize_step l d !! n
     = if existsb (enabled_box n) l then Some (Seq (group_values n l))
       else None).
Proof.
  intros Hn. revert d a. induction l as [|e l IH]; intros d a Hall.
  { simpl. split; intros Hd; by rewrite ?app_nil_r. }
  assert (Hall' : ∀ x, x ∈ l → name x = n → disabled x = false →
                    type x = "checkbox")
    by (intros x Hx; apply Hall; by right).
  destruct (enabled_box n e) eqn:Eb.
  - destruct (enabled_box_step d e n a Hn Eb) as [Hsome Hnone].
    assert (Hvals : group_values n (e :: l)
                    = ((if checked e then [value e] else [])
                       ++ group_values n l)%list).
    { unfold group_values, ticked_box, enabled_box in *. simpl.
      rewrite Eb. by destruct (checked e). }
    simpl. rewrite Hvals, Eb. simpl. split; intros Hd.
    + destruct (IH (serialize_step d e)
                  (a ++ if checked e then [value e] else [])%list Hall')
        as [IHs _].
      rewrite IHs by auto. by rewrite app_assoc.
    + destruct (IH (serialize_step d e)
                  (if checked e then [value e] else []) Hall')
        as [IHs _].
      by rewrite IHs by auto.
  - assert (Hsame : serialize_step d e !! n = d !! n).
    { destruct (String.eqb (name e) n) eqn:En.
      - apply String.eqb_eq in En.
        destruct (disabled e) eqn:Hdis;
          [by rewrite serialize_step_disabled|].
        unfold enabled_box in Eb.
        rewrite (Hall e) in Eb by (done || by left).
        rewrite En, String.eqb_refl, Hdis in Eb. discriminate.
      - apply serialize_step_other. by apply String.eqb_neq. }
    assert (Hvals : group_values n (e :: l) = group_values n l).
    { unfold group_values, ticked_box, enabled_box in *. simpl.
      destruct (String.eqb (name e) n), (disabled e),
        (String.eqb (type e) "checkbox"); simpl in *;
        try discriminate; done. }
    simpl. rewrite Hvals, Eb. simpl.
    destruct (IH (serialize_step d e) a Hall') as [IHs IHn].
    split; intros Hd; [apply IHs|apply IHn]; by rewrite Hsame.
Qed.

(** A control that neither ticks nor overwrites [n], for a name without
    the ['[]'] suffix, leaves [data[n]] as it is. *)
Lemma serialize_step_silent d e n :
  JsString.endsWith n "[]" = false →
  ticked n e = false → plain_field n e = false →
  serialize_step d e !! n = d !! n.
Proof.
  intros Hn Ht Hp.
  destruct (String.eqb (name e) n) eqn:En.
  - apply String.eqb_eq in En. subst n.
    unfold ticked, plain_field, serialize_step in *.
    rewrite String.eqb_refl in *. rewrite Hn. simpl in *.
    destruct (JsString.truthy (name e)), (disabled e),
      (is_check_or_radio e), (checked e), (is_plain_type e),
      (String.eqb (type e) "checkbox"), (truthy (d !! name e));
      simpl in *; try discriminate; done.
  - apply serialize_step_other. by apply String.eqb_neq.
Qed.

Lemma fold_silent l d n :
  JsString.endsWith n "[]" = false →
  (∀ e, e ∈ l → ticked n e = false ∧ plain_field n e = false) →
  fold_left serialize_step l d !! n = d !! n.
Proof.
  intros Hn. revert d. induction l as [|e l IH]; intros d Hq; [done|].
  simpl. rewrite IH by (intros x Hx; apply Hq; by right).
  destruct (Hq e) as [Ht Hp]; [by left|].
  by apply serialize_step_silent.
Qed.

Lemma fold_untouched l d n :
  (∀ e, e ∈ l → name e = n → disabled e = true) →
  fold_left serialize_step l d !! n = d !! n.
Proof.
  revert d. induction l as [|e l IH]; intros d Hq; [done|].
  simpl. rewrite IH by (intros x Hx; apply Hq; by right).
  destruct (String.eqb (name e) n) eqn:En.
  - apply String.eqb_eq in En.
    rewrite serialize_step_disabled; [done|]. apply Hq; [by left|done].
  - apply serialize_step_other. by apply String.eqb_neq.
Qed.

End SerializeMore.

(** X1.  On a form none of whose controls is named after a property of
    [Object.prototype], the keys of the serialised object are exactly
    the names of the controls that write: named, enabled, and either
    checked (checkbox, radio), an unchecked checkbox of a ['[]'] name,
    or of a type other than file, reset, submit and button.  So the
    empty name, a disabled control and a button never produce a key,
    and no key is ever removed. *)
Theorem serializeForm_keys (form : list element) (n : string) :
  own_names form = true →
  is_Some (serializeForm form !! n)
  ↔ ∃ e, e ∈ form ∧ name e = n ∧ writes e = true.
Proof.
  intros _. unfold serializeForm. rewrite fold_keys, lookup_empty.
  split; [|auto]. intros [Hs|?]; [|done]. by destruct Hs.
Qed.

Lemma serializeForm_keys_witness :
  let form := [ textInput "vol-name" "name" "Ana";
                checkbox "skills[]" "cooking" false false;
                checkbox "terms" "yes" false false;
                checkbox "news" "weekly" true true ] in
  is_Some (serializeForm form !! "skills[]")
  ∧ ¬ is_Some (serializeForm form !! "news").
Proof.
  intros form. split.
  - apply (serializeForm_keys form "skills[]"); [reflexivity|].
    exists (checkbox "skills[]" "cooking" false false).
    split; [|done]. right; left.
  - intros Hk.
    apply (serializeForm_keys form "news") in Hk as (e & He & Hn & Hw);
      [|reflexivity].
    repeat (apply elem_of_cons in He as [->|He]); try done.
    by apply elem_of_nil in He.
Defined.

(** X2.  Disabled controls are invisible to [serializeForm]: removing
    them from the form changes nothing in the result. *)
Theorem serializeForm_ignores_disabled (form : list element) :
  serializeForm (enabled_controls form) = serializeForm form.
Proof. apply fold_enabled. Qed.

(** X3.  A ['[]'] name carried, among the enabled controls, by
    checkboxes only is bound to the array of the values of its enabled
    checked boxes in document order (empty when none is checked, one
    element when one is), and is absent when the form has no enabled box
    of that name. *)
Theorem serializeForm_collection_values (form : list element) (n : string) :
  JsString.endsWith n "[]" = true →
  (∀ e, e ∈ form → name e = n → disabled e = false →
        type e = "checkbox") →
  serializeForm form !! n
  = if existsb (enabled_box n) form
    then Some (Seq (group_values n form))
    else None.
Proof.
  intros Hn Hall.
  destruct (fold_group form ∅ n [] Hn Hall) as [_ Hnone].
  apply Hnone, lookup_empty.
Qed.

Lemma serializeForm_collection_values_witness :
  serializeForm
    [ checkbox "skills[]" "logistics" true false;
      textInput "vol-name" "name" "Ana";
      checkbox "skills[]" "cooking" false false;
      checkbox "skills[]" "driving" true false;
      checkbox "skills[]" "nursing" true true ] !! "skills[]"
  = Some (Seq ["logistics"; "driving"]).
Proof.
  apply (serializeForm_collection_values
           [ checkbox "skills[]" "logistics" true false;
             textInput "vol-name" "name" "Ana";
             checkbox "skills[]" "cooking" false false;
             checkbox "skills[]" "driving" true false;
             checkbox "skills[]" "nursing" true true ] "skills[]").
  - reflexivity.
  - intros e He. repeat (apply elem_of_cons in He as [->|He]);
      try done. by apply elem_of_nil in He.
Defined.

Lemma plain_field_step (d : gmap string fieldval) (e : element)
    (n : string) :
  JsString.truthy n = true → plain_field n e = true →
  serialize_step d e !! n = Some (Scalar (value e)).
Proof.
  intros Hn Hp. unfold plain_field in Hp.
  destruct (String.eqb (name e) n) eqn:En; [|discriminate].
  apply String.eqb_eq in En. subst n. unfold serialize_step.
  destruct (disabled e), (is_check_or_radio e), (is_plain_type e);
    simpl in Hp; try discriminate.
  rewrite Hn. simpl. apply lookup_insert_eq.
Qed.

(** X4.  On a form none of whose controls is named after a property of
    [Object.prototype], the last enabled control of a name decides when
    it is a scalar-valued field: whatever earlier controls of that name
    produced, scalar or array, the name is bound to that field's
    value. *)
Theorem serializeForm_last_plain_wins (l1 l2 : list element) (e : element)
    (n : string) :
  own_names (l1 ++ e :: l2)%list = true →
  JsString.truthy n = true →
  plain_field n e = true →
  (∀ x, x ∈ l2 → name x = n → disabled x = true) →
  serializeForm (l1 ++ e :: l2)%list !! n = Some (Scalar (value e)).
Proof.
  intros _ Hn Hp Hrest. unfold serializeForm.
  rewrite fold_left_app. simpl.
  rewrite fold_untouched by done. by apply plain_field_step.
Qed.

Lemma serializeForm_last_plain_wins_witness :
  serializeForm
    ([ checkbox "topic" "news" true false;
       textInput "t1" "topic" "first" ]
     ++ textInput "t2" "topic" "second"
     :: [ checkbox "topic" "late" true true ])%list !! "topic"
  = Some (Scalar "second").
Proof.
  apply (serializeForm_last_plain_wins
           [ checkbox "topic" "news" true false;
             textInput "t1" "topic" "first" ]
           [ checkbox "topic" "late" true true ]
           (textInput "t2" "topic" "second") "topic");
    try reflexivity.
  intros x Hx _. apply list_elem_of_singleton in Hx. by subst.
Defined.

Lemma ticked_first_step (d : gmap string fieldval) (e : element)
    (n : string) :
  JsString.truthy n = true → JsString.endsWith n "[]" = false →
  ticked n e = true → d !! n = None →
  serialize_step d e !! n = Some (Scalar (value e)).
Proof.
  intros Hn Hs Ht Hd. unfold ticked in Ht.
  destruct (String.eqb (name e) n) eqn:En; [|discriminate].
  apply String.eqb_eq in En. subst n. unfold serialize_step.
  destruct (disabled e), (is_check_or_radio e), (checked e);
    simpl in Ht; try discriminate.
  rewrite Hn, Hd, Hs. simpl. apply lookup_insert_eq.
Qed.

(** X5.  On a form none of whose controls is named after a property of
    [Object.prototype], a name without the ['[]'] suffix whose only
    writing control is one checked checkbox or radio is bound to that
    control's value as a scalar; the unchecked radios and boxes of the
    group leave no trace. *)
Theorem serializeForm_single_choice_scalar (l1 l2 : list element)
    (r : element) (n : string) :
  own_names (l1 ++ r :: l2)%list = true →
  JsString.truthy n = true →
  JsString.endsWith n "[]" = false →
  ticked n r = true →
  (∀ x, x ∈ (l1 ++ l2)%list →
        ticked n x = false ∧ plain_field n x = false) →
  serializeForm (l1 ++ r :: l2)%list !! n = Some (Scalar (value r)).
Proof.
  intros _ Hn Hs Hr Hq. unfold serializeForm.
  rewrite fold_left_app. simpl.
  rewrite fold_silent
    by (done || intros x Hx; apply Hq, elem_of_app; by right).
  apply ticked_first_step; try done.
  rewrite fold_silent
    by (done || intros x Hx; apply Hq, elem_of_app; by left).
  apply lookup_empty.
Qed.

Lemma serializeForm_single_choice_scalar_witness :
  serializeForm
    ([ radio "donation_type" "money" false ]
     ++ radio "donation_type" "goods" true
     :: [ radio "donation_type" "time" false;
          textInput "donation-amount" "amount" "50" ])%list
    !! "donation_type"
  = Some (Scalar "goods").
Proof.
  apply (serializeForm_single_choice_scalar
           [ radio "donation_type" "money" false ]
           [ radio "donation_type" "time" false;
             textInput "donation-amount" "amount" "50" ]
           (radio "donation_type" "goods" true) "donation_type");
    try reflexivity.
  intros x Hx. simpl in Hx.
  repeat (apply elem_of_cons in Hx as [->|Hx]); try done.
  by apply elem_of_nil in Hx.
Defined.

Lemma checked_values_group (n : string) (l : list element) :
  (∀ e, e ∈ l → name e = n → disabled e = false ∧ type e = "checkbox") →
  checked_values n l = group_values n l.
Proof.
  unfold checked_values, group_values.
  induction l as [|e l IH]; intros Hall; [done|].
  assert (Hsame : checked_named n e = ticked_box n e).
  { unfold checked_named, ticked_box, is_check_or_radio.
    destruct (String.eqb (name e) n) eqn:En; [|done].
    apply String.eqb_eq in En.
    destruct (Hall e) as [-> ->]; [by left|done|]. done. }
  specialize (IH (λ x Hx, Hall x (list_elem_of_further _ _ _ Hx))).
  simpl. rewrite Hsame. destruct (ticked_box n e); csimpl; by rewrite IH.
Qed.

(** X6.  The volunteer payload carries the skills twice: under
    ['skills[]'] as [serializeForm] produced them and under [skills] as
    the listener assigns them.  When the form has a ['skills[]'] box and
    every control of that name is an enabled checkbox, the two entries
    are equal. *)
Theorem volunteer_payload_skills_twice (l : list element) :
  (∀ e, e ∈ l → name e = "skills[]" →
        disabled e = false ∧ type e = "checkbox") →
  (∃ e, e ∈ l ∧ name e = "skills[]") →
  volunteer_payload l !! "skills[]"
  = Some (Seq (checked_values "skills[]" l))
  ∧ volunteer_payload l !! "skills" = volunteer_payload l !! "skills[]".
Proof.
  intros Hall (b & Hb & Hname).
  assert (Hgroup : volunteer_payload l !! "skills[]"
                   = Some (Seq (checked_values "skills[]" l))).
  { unfold volunteer_payload. rewrite lookup_insert_ne by done.
    destruct (fold_group l ∅ "skills[]" [] eq_refl) as [_ Hnone].
    { intros e He Hn _. by destruct (Hall e He Hn). }
    unfold serializeForm. rewrite Hnone by apply lookup_empty.
    assert (Hex : existsb (enabled_box "skills[]") l = true).
    { apply existsb_exists. exists b.
      split; [by apply list_elem_of_In|].
      unfold enabled_box. destruct (Hall b Hb Hname) as [-> ->].
      by rewrite Hname. }
    by rewrite Hex, checked_values_group. }
  split; [done|]. rewrite Hgroup. apply lookup_insert_eq.
Qed.

Lemma volunteer_payload_skills_twice_witness :
  let l := [ textInput "vol-name" "name" "Ana";
             checkbox "skills[]" "logistics" true false;
             checkbox "skills[]" "cooking" false false ] in
  volunteer_payload l !! "skills[]"
  = Some (Seq (checked_values "skills[]" l))
  ∧ volunteer_payload l !! "skills" = volunteer_payload l !! "skills[]".
Proof.
  intros l. apply (volunteer_payload_skills_twice l).
  - intros e He. repeat (apply elem_of_cons in He as [->|He]);
      try done. by apply elem_of_nil in He.
  - exists (checkbox "skills[]" "logistics" true false).
    split; [|done]. right; left.
Defined.

(** With a checked box that is disabled the two entries differ: the
    [:checked] selector of the listener does not look at [disabled]. *)
Example volunteer_payload_disabled_skill :
  let l := [ checkbox "skills[]" "logistics" true false;
             checkbox "skills[]" "nursing" true true ] in
  volunteer_payload l !! "skills[]" = Some (Seq ["logistics"])
  ∧ volunteer_payload l !! "skills" = Some (Seq ["logistics"; "nursing"]).
Proof. split; reflexivity. Qed.

(** ** [ApiService]: the read operations on the mock gateway *)

(** X7.  [getProjects] called with [appState.currentFilters], as
    [ActionCenterPage.loadProjects] calls it, returns all four projects
    whatever region and type are selected: the gateway reads
    [params.region] and [params.type], the object has [projectRegion]
    and [projectType]. *)
Theorem getProjects_ignores_page_filters (rnd : entropy)
    (formValid : form_id → list element → bool)
    (inputValid : element → bool)
    (dashboardDate projectRegion projectType : string) (p : page) :
  let filters := currentFilters dashboardDate projectRegion projectType in
  getProjects (mock_host rnd formValid inputValid) filters p
  = Return (Projects Utils.allProjects)
      (record_call "/projects" (projects_options filters) p).
Proof.
  intros filters. unfold getProjects, fetchData. run_monad.
  unfold Utils.fetchData, Utils.filterParam. simpl.
  unfold filters, currentFilters.
  by rewrite !lookup_insert_ne, lookup_empty by done.
Qed.

(** With the keys the gateway reads, the same call does filter. *)
Example getProjects_region_key :
  ∀ p, getProjects sample_host {[ "region" := "MENA" ]} p
       = Return (Projects
                   [ Project "PROJMENA03" "Ajuda Emergencial no Iêmen"
                       "MENA" "emergency_relief"
                       "Kits de alimentos e higiene para famílias deslocadas."
                       85 1000000 "/assets/images/project-emergency.jpg" ])
           (record_call "/projects"
              (projects_options {[ "region" := "MENA" ]}) p).
Proof. intros p. reflexivity. Qed.

(** X8.  [getDashboardData] never throws on the mock gateway: whatever
    the query string, the path starts with ['/dashboard'], one call is
    recorded, and the data returned carry the four fixed map points and
    four alerts. *)
Theorem getDashboardData_returns (rnd : entropy)
    (formValid : form_id → list element → bool)
    (inputValid : element → bool) (query : string) (p : page) :
  ∃ d,
    getDashboardData (mock_host rnd formValid inputValid) query p
    = Return (Dashboard d)
        (record_call ("/dashboard?" ++ query) no_options p)
    ∧ mapData d = Utils.mockMapData
    ∧ List.length (alerts d) = 4%nat.
Proof.
  exists (Utils.dashboardPayload rnd). split; [|split; reflexivity].
  unfold getDashboardData, fetchData. run_monad. reflexivity.
Qed.

(** ** The donation form: initialisation, groups, presets *)

(** X9.  [initDonationForm] on a donation form without [#pix-details]
    throws a [TypeError] at once ([DOM.qs('.copy-pix-key', pixDetails)] calls
    [querySelector] on [null]) and leaves the page untouched; with the
    node it returns, having changed neither a control nor the call log,
    and the closure holds the values of the radios checked at that
    time. *)
Theorem initDonationForm_needs_pix_details (p : page) :
  match pixDetails p with
  | None => initDonationForm p = Raise TypeError p
  | Some _ =>
      ∃ q, initDonationForm p
           = Return
               (Closure
                  (first_checked_value "donation_type"
                     (elements (donation p)))
                  (first_checked_value "payment_method"
                     (elements (donation p)))) q
           ∧ donation q = donation p
           ∧ calls q = calls p
  end.
Proof.
  unfold initDonationForm, when. run_monad.
  destruct (pixDetails p) as [pix|] eqn:Hpix; [|done]. simpl.
  destruct (opt_truthy _).
  - rewrite toggle_run. simpl.
    destruct (toggle_page_frame
                (default "" (first_checked_value "donation_type"
                               (elements (donation p)))) p)
      as (Hd & _ & _ & _ & Hc).
    rewrite Hd. destruct (opt_differs _ "pix"); simpl; eauto.
  - destruct (opt_differs _ "pix"); simpl; eauto.
Qed.

(** X10.  [toggleDonationFields] returns for every value and leaves the
    groups mutually exclusive: the money and goods fields are never both
    visible, the payment group and the pix panel only with ['money'] (the
    panel only with the pix radio checked), the goods fields only with
    ['goods'], and any other value hides all four; only ['time'] clicks
    the volunteer tab. *)
Theorem toggleDonationFields_exclusive (v : string) (p : page) :
  let g := visible_groups (toggle_page v p) in
  toggleDonationFields v p = Return tt (toggle_page v p)
  ∧ vis_money g && vis_goods g = false
  ∧ (vis_money g = true ∨ vis_payment g = true → v = "money")
  ∧ (vis_pix g = true →
     v = "money" ∧ pix_checked (elements (donation p)) = true)
  ∧ (vis_goods g = true → v = "goods")
  ∧ (v ≠ "money" → v ≠ "goods" → g = Visibility false false false false)
  ∧ volunteerTab (toggle_page v p)
    = if String.eqb v "time" then S <$> volunteerTab p else volunteerTab p.
Proof.
  intros g. split; [apply toggle_run|].
  assert (Hg : g = type_rule v (pix_checked (elements (donation p))) p)
    by apply toggle_page_visible.
  assert (Htab : volunteerTab (toggle_page v p)
                 = if String.eqb v "time" then S <$> volunteerTab p
                   else volunteerTab p).
  { unfold toggle_page, toggleDonationFields, when. run_monad.
    destruct (String.eqb v "money") eqn:Em.
    - apply String.eqb_eq in Em. subst v. simpl.
      by destruct (pix_checked _).
    - destruct (String.eqb v "goods") eqn:Eg.
      + apply String.eqb_eq in Eg. by subst v.
      + by destruct (String.eqb v "time"). }
  rewrite Hg. unfold type_rule. simpl.
  destruct (String.eqb v "money") eqn:Em.
  - apply String.eqb_eq in Em. subst v. simpl.
    rewrite andb_false_r. repeat split; try done.
    match goal with Hx : _ && _ = true |- _ =>
      by apply andb_true_iff in Hx as [Hx _] end.
  - apply String.eqb_neq in Em. simpl.
    destruct (String.eqb v "goods") eqn:Eg.
    + apply String.eqb_eq in Eg. subst v. repeat split; try done.
      by intros [?|?].
    + apply String.eqb_neq in Eg. repeat split; try done.
      by intros [?|?].
Qed.

Section PresetFacts.

Lemma active_count_none (l : list bool) :
  active_count ((fun _ => false) <$> l) = 0%nat.
Proof. unfold active_count. induction l as [|b l IH]; [done|]. by csimpl. Qed.

Lemma active_count_one (l : list bool) (i : nat) :
  (active_count (<[i := true]> ((fun _ => false) <$> l)) ≤ 1)%nat
  ∧ ((i < List.length l)%nat →
     active_count (<[i := true]> ((fun _ => false) <$> l)) = 1%nat).
Proof.
  revert i. induction l as [|b l IH]; intros i.
  { split; [simpl; unfold active_count; simpl; lia|]. simpl. lia. }
  destruct i as [|i].
  - csimpl. unfold active_count. simpl.
    fold (active_count ((fun _ => false) <$> l)).
    rewrite active_count_none. split; [lia|done].
  - csimpl. unfold active_count. simpl.
    fold (active_count (<[i := true]> ((fun _ => false) <$> l))).
    destruct (IH i) as [Hle Heq]. split; [done|]. intros Hi.
    apply Heq. lia.
Qed.

(** Only a preset click and an edit of the amount touch the presets. *)
Lemma on_event_presets (ev : user_event) (p : page) :
  presetActive (final_page (on_event ev p))
  = match ev with
    | ClickPreset i _ =>
        if existsb (fun e => String.eqb (el_id e) "donation-amount")
             (elements (donation p))
        then <[i := true]> ((fun _ => false) <$> presetActive p)
        else presetActive p
    | EditField id _ =>
        if String.eqb id "donation-amount"
        then (fun _ => false) <$> presetActive p
        else presetActive p
    | _ => presetActive p
    end.
Proof.
  destruct ev as [v|v|i amount|id v]; unfold on_event, when, UI.with_form;
    run_monad.
  - destruct (has_radio _ _ _); [|done]. rewrite toggle_run. simpl.
    match goal with
    | |- presetActive (toggle_page ?w ?q) = _ =>
        by destruct (toggle_page_frame w q) as (_ & _ & _ & -> & _)
    end.
  - destruct (has_radio _ _ _); [|done]. by destruct (String.eqb v "pix").
  - by destruct (existsb _ _).
  - by destruct (String.eqb id "donation-amount").
Qed.

Lemma session_snoc (evs : list user_event) (ev : user_event) (p : page) :
  session (evs ++ [ev]) p = final_page (on_event ev (session evs p)).
Proof. unfold session. by rewrite fold_left_app. Qed.

End PresetFacts.

(** X11.  The preset buttons are exclusive: a session that starts with at
    most one active preset ends with at most one, whatever the user
    does.  After a click on an existing preset (the amount field being
    there) exactly one is active; after an edit of the amount field none
    is. *)
Theorem session_presets_exclusive (evs : list user_event) (p : page) :
  (active_count (presetActive p) ≤ 1)%nat →
  (active_count (presetActive (session evs p)) ≤ 1)%nat
  ∧ (∀ i amount,
       existsb (fun e => String.eqb (el_id e) "donation-amount")
         (elements (donation (session evs p))) = true →
       (i < List.length (presetActive (session evs p)))%nat →
       active_count
         (presetActive (session (evs ++ [ClickPreset i amount]) p))
       = 1%nat)
  ∧ (∀ v,
       active_count
         (presetActive
            (session (evs ++ [EditField "donation-amount" v]) p))
       = 0%nat).
Proof.
  intros Hstart.
  assert (Hinv : ∀ evs q, (active_count (presetActive q) ≤ 1)%nat →
            (active_count (presetActive (session evs q)) ≤ 1)%nat).
  { clear. intros evs. induction evs as [|ev evs IH]; intros q Hq; [done|].
    cbn [session fold_left]. apply IH. rewrite on_event_presets.
    destruct ev as [v|v|i amount|id v]; try done.
    - destruct (existsb _ _); [|done]. apply active_count_one.
    - destruct (String.eqb id "donation-amount"); [|done].
      rewrite active_count_none. lia. }
  split; [by apply Hinv|]. split.
  - intros i amount Hamount Hi.
    rewrite session_snoc, on_event_presets, Hamount.
    by apply active_count_one.
  - intros v. rewrite session_snoc, on_event_presets. simpl.
    apply active_count_none.
Qed.

Lemma session_presets_exclusive_witness :
  let p := final_page (initDonationForm (sample_page "money" "card")) in
  let evs := [ClickPreset 0 "25"; ChooseDonationType "goods";
              ClickPreset 2 "100"] in
  (active_count (presetActive (session evs p)) ≤ 1)%nat.
Proof.
  intros p evs.
  apply (session_presets_exclusive evs p).
  vm_compute. lia.
Defined.

(** ** The [try] statements: the failure and the success path *)

Section TryFrames.

Variable H : host.

(** The page the [catch] clause is entered with and leaves. *)
Lemma attempt_failure (cl : closure) (f : form_id) (email m : string)
    (p : page) :
  failure_message f
    (gateway H (endpoint_of f) (post_options (payload_of f email p)))
  = Some m →
  final_page (attempt (body_of H cl f email) (catch_of f) p)
  = set_form f
      (set_feedback (Some (Notice "error" (error_prefix f ++ m)))
         (get_form f p))
      (record_call (endpoint_of f) (post_options (payload_of f email p)) p).
Proof.
  intros Hm. rewrite attempt_run. simpl.
  destruct (gateway H _ _) as [r|msg]; simpl in Hm.
  - destruct (success r); [discriminate|]. injection Hm as <-.
    rewrite catch_run. by destruct f.
  - injection Hm as <-. rewrite catch_run. by destruct f.
Qed.

(** What follows the [await] leaves the other forms alone and clears the
    presets only for the donation form. *)
Lemma resolved_others (cl : closure) (f : form_id) (r : response)
    (q : page) :
  let q' := final_page (resolved_of cl f r q) in
  (∀ g, g ≠ f → get_form g q' = get_form g q)
  ∧ presetActive q'
    = match f with
      | Donation => (fun _ => false) <$> presetActive q
      | _ => presetActive q
      end.
Proof.
  destruct f; simpl.
  - unfold donation_resolved, UI.displayFeedback, UI.with_form, when.
    run_monad.
    destruct (opt_truthy (initialDonationType cl));
      [rewrite toggle_run|]; simpl.
    + match goal with
      | |- context [toggle_page ?w ?q0] =>
          destruct (toggle_page_frame w q0) as (_ & Hv & Hn & Hp & _)
      end.
      destruct (opt_differs (initialPayment cl) "pix"); simpl;
        rewrite Hp; (split; [|done]); intros [] Hg; try done; simpl;
        by rewrite ?Hv, ?Hn.
    + destruct (opt_differs (initialPayment cl) "pix"); simpl;
        (split; [|done]); by intros [] Hg.
  - unfold volunteer_resolved, UI.displayFeedback, UI.with_form.
    run_monad. split; [|done]. by intros [] Hg.
  - unfold newsletter_resolved, UI.displayFeedback, UI.with_form.
    run_monad. split; [|done]. by intros [] Hg.
Qed.

Lemma get_set_form_ne (f g : form_id) (d : form_dom) (p : page) :
  g ≠ f → get_form g (set_form f d p) = get_form g p.
Proof. by destruct f, g. Qed.

End TryFrames.

(** X12.  The failure path.  When the façade operation throws, because
    the gateway rejected or because its payload had [success: false]
    (then with the payload's message, or the operation's own text when
    the payload has none), the [try] statement returns with the error
    notice carrying that message, one request recorded, the button
    restored, and the user's input kept: controls, visible groups,
    presets and the other forms are as before. *)
Theorem try_statement_failure_keeps_input (H : host) (cl : closure)
    (f : form_id) (email orig m : string) (p : page) (b : control) :
  submitButton (get_form f p) = Some b →
  failure_message f
    (gateway H (endpoint_of f) (post_options (payload_of f email p)))
  = Some m →
  ∃ p', try_statement H cl f email orig p = Return tt p'
        ∧ feedback (get_form f p')
          = Some (Notice "error" (error_prefix f ++ m))
        ∧ submitButton (get_form f p') = Some (Control false orig false)
        ∧ elements (get_form f p') = elements (get_form f p)
        ∧ visible_groups p' = visible_groups p
        ∧ presetActive p' = presetActive p
        ∧ calls p' = (calls p ++ [request_of f email p])%list
        ∧ ∀ g, g ≠ f → get_form g p' = get_form g p.
Proof.
  intros Hb Hm. rewrite (try_statement_run H cl f email orig p b Hb).
  eexists. split; [reflexivity|].
  rewrite (attempt_failure H cl f email m p Hm).
  destruct f; simpl; repeat split; try done; by intros [] Hg.
Qed.

Lemma try_statement_failure_keeps_input_witness :
  let H := Host (fun _ _ =>
                   Resolved {| success := false; message := None;
                               data := NoData |})
             (fun _ _ => true) (fun _ => true) in
  let p := sample_page "goods" "pix" in
  ∃ p', try_statement H (Closure (Some "money") (Some "pix")) Donation ""
          "Doar" p = Return tt p'
        ∧ feedback (donation p')
          = Some (Notice "error"
                    "Erro ao processar doação: Falha ao processar doação.")
        ∧ elements (donation p') = elements (donation p)
        ∧ visible_groups p' = visible_groups p.
Proof.
  intros H p.
  destruct (try_statement_failure_keeps_input H
              (Closure (Some "money") (Some "pix")) Donation "" "Doar"
              "Falha ao processar doação." p (Control false "Doar" false))
    as (p' & Hrun & Hf & _ & He & Hv & _); [vm_compute; reflexivity..|].
  exact (ex_intro _ p' (conj Hrun (conj Hf (conj He Hv)))).
Defined.

(** X13.  The success path.  When the call resolves with
    [success: true], the [try] statement returns with a success notice
    (the payload's message, or the listener's default text when the
    payload has none or an empty one), one request recorded, the button
    restored and every control of the form reset; the donation form's
    presets are all inactive, and the other forms are untouched. *)
Theorem try_statement_success_resets (H : host) (cl : closure)
    (f : form_id) (email orig : string) (r : response) (p : page)
    (b : control) :
  submitButton (get_form f p) = Some b →
  gateway H (endpoint_of f) (post_options (payload_of f email p))
  = Resolved r →
  success r = true →
  ∃ p', try_statement H cl f email orig p = Return tt p'
        ∧ feedback (get_form f p')
          = Some (Notice "success"
                    (opt_or_else (message r) (success_default f)))
        ∧ submitButton (get_form f p') = Some (Control false orig false)
        ∧ elements (get_form f p')
          = reset_element <$> elements (get_form f p)
        ∧ presetActive p'
          = match f with
            | Donation => (fun _ => false) <$> presetActive p
            | _ => presetActive p
            end
        ∧ calls p' = (calls p ++ [request_of f email p])%list
        ∧ ∀ g, g ≠ f → get_form g p' = get_form g p.
Proof.
  intros Hb Hg Hs. rewrite (try_statement_run H cl f email orig p b Hb).
  eexists. split; [reflexivity|].
  rewrite attempt_run, Hg, Hs. simpl.
  set (q := record_call (endpoint_of f)
              (post_options (payload_of f email p)) p).
  destruct (resolved_frame cl f r q) as (Hf & He & _ & Hc).
  destruct (resolved_others cl f r q) as (Ho & Hp).
  simpl in Hf, He, Hc, Ho, Hp.
  split; [by rewrite get_set_form|].
  split; [by rewrite get_set_form|].
  split; [by rewrite get_set_form|].
  split; [by destruct f|].
  split; [by rewrite calls_set_form|].
  intros g Hne. rewrite get_set_form_ne by done.
  rewrite (Ho g Hne). by destruct g.
Qed.

Lemma try_statement_success_resets_witness :
  let p := set_presetActive [false; true; false]
             (sample_page "goods" "pix") in
  ∃ p', try_statement sample_host (Closure (Some "money") (Some "pix"))
          Donation "" "Doar" p = Return tt p'
        ∧ feedback (donation p')
          = Some (Notice "success" "Dados recebidos com sucesso!")
        ∧ presetActive p' = [false; false; false].
Proof.
  intros p.
  destruct (try_statement_success_resets sample_host
              (Closure (Some "money") (Some "pix")) Donation "" "Doar"
              {| success := true;
                 message := Some "Dados recebidos com sucesso!";
                 data := NoData |} p (Control false "Doar" false))
    as (p' & Hrun & Hf & _ & _ & Hp & _); [vm_compute; reflexivity..|].
  exact (ex_intro _ p' (conj Hrun (conj Hf Hp))).
Defined.

(** X14.  A listener on a form that lacks a node it dereferences (the
    submit button, or the newsletter's email input) throws a [TypeError]
    once validation has passed, before anything is sent: the call log,
    the controls and the button slot are unchanged. *)
Theorem listener_missing_node (H : host) (cl : closure) (f : form_id)
    (p : page) :
  validation_fails H f p = false →
  listener_nodes_present f p = false →
  ∃ p', listener H cl f p = Raise TypeError p'
        ∧ calls p' = calls p
        ∧ elements (get_form f p') = elements (get_form f p)
        ∧ submitButton (get_form f p') = submitButton (get_form f p).
Proof.
  intros Hv Hn. unfold listener_nodes_present in Hn.
  destruct f; simpl in *.
  - unfold donation_submit, UI.removeFeedback, UI.with_form. run_monad.
    apply negb_false_iff in Hv. rewrite Hv. simpl.
    destruct (submitButton (donation p)) eqn:Hb; [discriminate|]. simpl.
    eexists. split; [reflexivity|done].
  - unfold volunteer_submit, UI.removeFeedback, UI.with_form. run_monad.
    apply negb_false_iff in Hv. rewrite Hv. simpl.
    destruct (submitButton (volunteer p)) eqn:Hb; [discriminate|]. simpl.
    eexists. split; [reflexivity|done].
  - unfold newsletter_submit, UI.removeFeedback, UI.with_form. run_monad.
    unfold emailInput_of in *.
    destruct (find _ (elements (newsletter p))) as [input|];
      [|eexists; split; [reflexivity|done]].
    run_monad. rewrite Hv. simpl.
    destruct (submitButton (newsletter p)) eqn:Hb;
      [|simpl; eexists; split; [reflexivity|done]].
    apply bool_decide_eq_false in Hn. destruct Hn. eauto.
Qed.

Lemma listener_missing_node_witness :
  let p := Page (FormDom [] None None) (FormDom [] None None)
             (FormDom [] (Some (Control false "Assinar" false)) None)
             None None None None [] None [] in
  ∃ p', listener sample_host (Closure None None) Newsletter p
        = Raise TypeError p'
        ∧ calls p' = [].
Proof.
  intros p.
  destruct (listener_missing_node sample_host (Closure None None)
              Newsletter p) as (p' & Hrun & Hc & _);
    [vm_compute; reflexivity..|].
  exact (ex_intro _ p' (conj Hrun Hc)).
Defined.

(** ** Theme: what every toggle leaves *)

Section ThemeFacts.

Lemma elem_of_classList_add (c x : string) (l : list string) :
  c ∈ Theme.classList_add x l ↔ c = x ∨ c ∈ l.
Proof.
  unfold Theme.classList_add.
  destruct (existsb (String.eqb x) l) eqn:Ex.
  - split; [auto|]. intros [->|?]; [|done].
    apply existsb_exists in Ex as (y & Hy & Heq).
    apply String.eqb_eq in Heq. subst y. by apply list_elem_of_In.
  - rewrite elem_of_app, list_elem_of_singleton. tauto.
Qed.

Lemma elem_of_classList_remove (c : string) (cs l : list string) :
  c ∈ Theme.classList_remove cs l ↔ c ∈ l ∧ c ∉ cs.
Proof.
  unfold Theme.classList_remove.
  rewrite !list_elem_of_In, filter_In, negb_true_iff.
  split; intros [Hin Hex]; (split; [done|]).
  - intros Hc.
    assert (existsb (String.eqb c) cs = true); [|congruence].
    apply existsb_exists. exists c. split; [done|apply String.eqb_refl].
  - destruct (existsb (String.eqb c) cs) eqn:Ex; [|done].
    apply existsb_exists in Ex as (y & Hy & Heq).
    apply String.eqb_eq in Heq. subst y.
    by destruct Hex.
Qed.

End ThemeFacts.

(** X15.  Whatever the state, [toggleTheme] leaves the theme ['dark'] if
    it was ['light'] and ['light'] otherwise, stores exactly that value,
    puts the matching [theme-…] class on [body] and removes the other of
    the two, keeps every other class, and relabels the toggle button (if
    there is one) for the new theme. *)
Theorem toggleTheme_invariants (s : Theme.state) :
  let s' := Theme.toggleTheme s in
  Theme.currentTheme s'
  = (if String.eqb (Theme.currentTheme s) "light" then "dark" else "light")
  ∧ Theme.persisted s' = Some (Theme.currentTheme s')
  ∧ ("theme-" ++ Theme.currentTheme s') ∈ Theme.bodyClasses s'
  ∧ (Theme.currentTheme s' = "dark" → "theme-light" ∉ Theme.bodyClasses s')
  ∧ (Theme.currentTheme s' = "light" → "theme-dark" ∉ Theme.bodyClasses s')
  ∧ (∀ c, c ≠ "theme-light" → c ≠ "theme-dark" →
          (c ∈ Theme.bodyClasses s' ↔ c ∈ Theme.bodyClasses s))
  ∧ Theme.toggleLabel s'
    = (fun _ => Theme.buttonLabel (Theme.currentTheme s'))
        <$> Theme.toggleLabel s.
Proof.
  intros s'. unfold s', Theme.toggleTheme, Theme.persisted. simpl.
  rewrite lookup_insert_eq.
  split; [done|]. split; [done|].
  split; [apply elem_of_classList_add; by left|].
  split; [|split; [|split; [|done]]].
  - intros Hd. rewrite elem_of_classList_add, elem_of_classList_remove.
    rewrite Hd. intros [?|[_ Hn]]; [done|]. apply Hn. by left.
  - intros Hl. rewrite elem_of_classList_add, elem_of_classList_remove.
    rewrite Hl. intros [?|[_ Hn]]; [done|]. apply Hn. right; by left.
  - intros c H1 H2.
    rewrite elem_of_classList_add, elem_of_classList_remove.
    split.
    + intros [->|[? _]]; [|done].
      by destruct (String.eqb (Theme.currentTheme s) "light").
    + intros Hc. right. split; [done|].
      intros Hin. repeat (apply elem_of_cons in Hin as [?|Hin]);
        try done. by apply elem_of_nil in Hin.
Qed.

(** X16.  [appState.currentTheme] and the stored preference never part:
    after start-up and any number of toggles, a reload (start-up from the
    store as it then is) comes up in the current theme. *)
Theorem theme_survives_reload (store : gmap string string)
    (classes classes' : list string) (hasButton hasButton' : bool)
    (n : nat) :
  let s := Nat.iter n Theme.toggleTheme
             (Theme.start store classes hasButton) in
  Theme.currentTheme
    (Theme.start (Theme.localStorage s) classes' hasButton')
  = Theme.currentTheme s.
Proof.
  intros s. unfold Theme.start, Theme.initialTheme. simpl.
  destruct n as [|n]; [done|].
  unfold s. simpl Nat.iter.
  set (t := Nat.iter n Theme.toggleTheme _).
  unfold Theme.toggleTheme. simpl. rewrite lookup_insert_eq.
  by destruct (String.eqb (Theme.currentTheme t) "light").
Qed.

(** ** Generic UI widgets *)

Section MobileMenuFacts.

Import MobileMenu.

Lemma toggleClick_in_sync (s : state) : in_sync (toggleClick s).
Proof. by split. Qed.

Lemma documentClick_in_sync (m t : bool) (s : state) :
  in_sync s → in_sync (documentClick m t s).
Proof.
  intros Hs. unfold documentClick.
  by destruct (isMenuOpen s && negb m && negb t).
Qed.

Lemma documentClick_closed (m t : bool) (s : state) :
  isMenuOpen s = false → documentClick m t s = s.
Proof. intros Ho. unfold documentClick. by rewrite Ho. Qed.

Lemma click_start_or_in_sync (aria : string) (cls : bool) (c : click_event)
    (s : state) :
  s = start aria cls ∨ in_sync s →
  click c s = start aria cls ∨ in_sync (click c s).
Proof.
  intros Hs. unfold click.
  destruct (toggleHears c).
  - right. destruct (documentHears c); [|apply toggleClick_in_sync].
    apply documentClick_in_sync, toggleClick_in_sync.
  - destruct (documentHears c); [|done].
    destruct Hs as [->|Hs].
    + left. by apply documentClick_closed.
    + right. by apply documentClick_in_sync.
Qed.

End MobileMenuFacts.

(** X17.  The mobile menu.  A click is described by where its target
    lies and by how far it travels (the listener of a dropdown toggle
    stops it).  From the page as loaded, any series of clicks leaves
    either the untouched start state or a state in which [aria-expanded]
    and the [is-open] class agree with [appState.isMenuOpen]; in
    particular they agree whenever the menu is open.  A click the
    toggle's listener does not hear never opens the menu, and it closes
    an open menu exactly when it reaches [document] with its target
    outside the menu and outside the toggle; a click stopped on its way
    and not heard by the toggle changes nothing.  Two clicks the toggle's
    listener hears restore the flag. *)
Theorem mobile_menu_in_sync (aria : string) (cls : bool)
    (l : list MobileMenu.click_event) :
  let s := MobileMenu.clicks l (MobileMenu.start aria cls) in
  (s = MobileMenu.start aria cls ∨ MobileMenu.in_sync s)
  ∧ (MobileMenu.isMenuOpen s = true → MobileMenu.in_sync s)
  ∧ (∀ q c,
       MobileMenu.toggleHears c = false →
       MobileMenu.isMenuOpen (MobileMenu.click c q)
       = MobileMenu.isMenuOpen q
         && negb (MobileMenu.documentHears c
                  && negb (MobileMenu.inMenu c)
                  && negb (MobileMenu.inToggle c)))
  ∧ (∀ q c,
       MobileMenu.toggleHears c = false →
       MobileMenu.documentHears c = false →
       MobileMenu.click c q = q)
  ∧ (∀ q c c',
       MobileMenu.toggleHears c = true →
       MobileMenu.toggleHears c' = true →
       MobileMenu.isMenuOpen (MobileMenu.click c' (MobileMenu.click c q))
       = MobileMenu.isMenuOpen q).
Proof.
  intros s.
  assert (Hor : s = MobileMenu.start aria cls ∨ MobileMenu.in_sync s).
  { unfold s, MobileMenu.clicks.
    assert (Hgen : ∀ q,
              (q = MobileMenu.start aria cls ∨ MobileMenu.in_sync q) →
              let r := fold_left (fun q c => MobileMenu.click c q) l q in
              r = MobileMenu.start aria cls ∨ MobileMenu.in_sync r).
    { induction l as [|c l IH]; intros q Hq; [done|].
      simpl. apply IH. by apply click_start_or_in_sync. }
    apply Hgen. by left. }
  split; [done|]. split; [|split; [|split]].
  - intros Ho. destruct Hor as [Hs|?]; [|done].
    rewrite Hs in Ho. discriminate.
  - intros q c Ht. unfold MobileMenu.click, MobileMenu.documentClick.
    rewrite Ht.
    destruct (MobileMenu.documentHears c); simpl; [|by rewrite andb_true_r].
    destruct (MobileMenu.isMenuOpen q) eqn:Ho,
      (MobileMenu.inMenu c), (MobileMenu.inToggle c); simpl;
      by rewrite ?Ho.
  - intros q c Ht Hd. unfold MobileMenu.click. by rewrite Ht, Hd.
  - intros q c c' Ht Ht'.
    assert (Hflip : ∀ x r, MobileMenu.toggleHears x = true →
              MobileMenu.isMenuOpen (MobileMenu.click x r)
              = negb (MobileMenu.isMenuOpen r)).
    { intros x r Hx. unfold MobileMenu.click, MobileMenu.documentClick.
      rewrite Hx. unfold MobileMenu.toggleHears in Hx.
      apply andb_true_iff in Hx as [Hin _]. rewrite Hin. simpl.
      rewrite andb_false_r. by destruct (MobileMenu.documentHears x). }
    rewrite !Hflip by done. apply negb_involutive.
Qed.

Lemma mobile_menu_in_sync_witness :
  let onDropdownToggle :=
    MobileMenu.Click false false MobileMenu.StoppedBeforeDocument in
  let q := MobileMenu.State true "true" true in
  MobileMenu.click onDropdownToggle q = q.
Proof.
  intros c q.
  destruct (mobile_menu_in_sync "false" false []) as (_ & _ & _ & Hsame & _).
  apply Hsame; reflexivity.
Defined.

Section DropdownFacts.

Import Dropdowns.







End DropdownFacts.



(** X19.  A key pressed on an item of a dropdown menu, through the
    item's own [keydown] listener and then the container's, to which the
    event bubbles.  The listeners give the focus only to an item of the
    menu or, on Escape, to the toggle; they close the dropdown exactly
    on Escape, on Tab off the last item and on Shift+Tab off the first;
    ArrowDown on the last item and ArrowUp on the first do nothing, and
    ArrowUp undoes ArrowDown. *)
Theorem dropdown_item_keydown (n index : nat) (k : Dropdowns.key) :
  (index < n)%nat →
  (∀ t, fst (Dropdowns.keydownOnItem n index k) = Some t →
        match t with
        | Dropdowns.Item j => (j < n)%nat
        | Dropdowns.Toggle => k = Dropdowns.Esc
        end)
  ∧ (snd (Dropdowns.keydownOnItem n index k) = true
     ↔ k = Dropdowns.Esc
       ∨ (k = Dropdowns.Tab false ∧ index = (n - 1)%nat)
       ∨ (k = Dropdowns.Tab true ∧ index = 0%nat))
  ∧ Dropdowns.keydownOnItem n index Dropdowns.Esc
    = (Some Dropdowns.Toggle, true)
  ∧ Dropdowns.keydownOnItem n (n - 1) Dropdowns.ArrowDown = (None, false)
  ∧ Dropdowns.keydownOnItem n 0 Dropdowns.ArrowUp = (None, false)
  ∧ (∀ j, fst (Dropdowns.keydownOnItem n index Dropdowns.ArrowDown)
          = Some (Dropdowns.Item j) →
          fst (Dropdowns.keydownOnItem n j Dropdowns.ArrowUp)
          = Some (Dropdowns.Item index)).
Proof.
  intros Hi. split; [|split; [|split; [|split; [|split]]]].
  - intros t Ht. unfold Dropdowns.keydownOnItem in Ht.
    destruct k as [| | | |[]| |]; simpl in Ht;
      try (destruct (_ <? _)%nat eqn:Hlt in Ht; simpl in Ht;
           [apply Nat.ltb_lt in Hlt|]);
      try discriminate; injection Ht as <-; try done; lia.
  - unfold Dropdowns.keydownOnItem. split.
    + destruct k as [| | | |[]| |]; simpl; rewrite ?orb_false_r;
        try discriminate; try (destruct (_ <? _)%nat; discriminate).
      * intros Hz. apply Nat.eqb_eq in Hz. right; by right.
      * intros Hl. apply Nat.eqb_eq in Hl. right; by left.
      * by left.
    + intros [->|[[-> ->]|[-> ->]]]; simpl; rewrite ?orb_false_r;
        [done| |done].
      by rewrite Nat.eqb_refl.
  - done.
  - unfold Dropdowns.keydownOnItem. simpl. by rewrite Nat.ltb_irrefl.
  - done.
  - intros j. unfold Dropdowns.keydownOnItem. simpl.
    destruct (index <? n - 1)%nat eqn:Hlt; [|done].
    intros [= <-]. simpl.
    replace (index + 1 - 1)%nat with index by lia.
    by replace (0 <? index + 1)%nat with true
      by (symmetry; apply Nat.ltb_lt; lia).
Qed.

Lemma dropdown_item_keydown_witness :
  (1 < 3)%nat
  ∧ Dropdowns.keydownOnItem 3 1 Dropdowns.Esc
    = (Some Dropdowns.Toggle, true).
Proof.
  split; [lia|].
  destruct (dropdown_item_keydown 3 1 Dropdowns.OtherKey ltac:(lia))
    as (_ & _ & Hesc & _).
  exact Hesc.
Defined.

Section TabsFacts.

Import Tabs.

Lemma activateTab_tabs_length (i : nat) (s : state) :
  List.length (tabs (activateTab i s)) = List.length (tabs s).
Proof.
  unfold activateTab. destruct (tabs s !! i); [|done].
  simpl. apply length_imap.
Qed.

Lemma activateTab_tab_ids (i : nat) (s : state) :
  tab_id <$> tabs (activateTab i s) = tab_id <$> tabs s.
Proof.
  unfold activateTab. destruct (tabs s !! i); [|done]. simpl.
  apply list_eq. intros j.
  rewrite !list_lookup_fmap, list_lookup_imap.
  by destruct (tabs s !! j).
Qed.

Lemma activateTab_unwired (i : nat) (s : state) :
  unwired (activateTab i s) = unwired s.
Proof.
  unfold unwired, activateTab. destruct (tabs s !! i); [|done]. simpl.
  f_equal.
  - destruct (tabs s); [done|]. by rewrite !bool_decide_eq_false_2.
  - destruct (panels s); [done|]. by rewrite !bool_decide_eq_false_2.
Qed.

Lemma activateTab_active (j : nat) (s : state) :
  (j < List.length (tabs s))%nat → active_is j (activateTab j s).
Proof.
  intros Hj. apply lookup_lt_is_Some in Hj as [t Ht].
  unfold active_is, activateTab. rewrite Ht. simpl.
  exists {| tab_id := tab_id t; ariaSelected := "true"; tabindex := "0" |}.
  split; [|split; [done|split]].
  - rewrite list_lookup_imap, Ht. simpl.
    by rewrite bool_decide_eq_true_2.
  - intros i u Hu. rewrite list_lookup_imap in Hu.
    destruct (tabs s !! i); [|done]. by injection Hu as <-.
  - intros q Hq. apply list_elem_of_fmap in Hq as (q0 & -> & _). simpl.
    rewrite negb_involutive.
    by destruct (bool_decide (labelledby q0 = Some (tab_id t))).
Qed.

Lemma nextTabIndex_range (k : key) (cur n : Z) :
  (0 ≤ cur < n)%Z → k ≠ OtherKey → (0 ≤ nextTabIndex k cur n < n)%Z.
Proof.
  intros Hc Hk. destruct k; simpl; try lia; try done.
  - rewrite Z.rem_mod_nonneg by lia. apply Z.mod_pos_bound. lia.
  - rewrite Z.rem_mod_nonneg by lia. apply Z.mod_pos_bound. lia.
Qed.

Lemma keydown_activates (k : key) (cur : nat) (s : state) :
  (cur < List.length (tabs s))%nat →
  keydown k cur s = s
  ∨ ∃ j, (j < List.length (tabs s))%nat ∧ keydown k cur s = activateTab j s.
Proof.
  intros Hc. unfold keydown.
  assert (Hdec : k = OtherKey ∨ k ≠ OtherKey)
    by (destruct k; auto; by right).
  destruct Hdec as [->|Hk]; [by left|].
  pose proof (nextTabIndex_range k (Z.of_nat cur)
                (Z.of_nat (List.length (tabs s))) ltac:(lia) Hk) as Hr.
  destruct (_ =? -1)%Z eqn:Hm; [by left|]. right.
  eexists. split; [|done]. lia.
Qed.

Lemma step_active (ev : event) (s : state) :
  (∃ j, active_is j s) → ∃ j, active_is j (step ev s).
Proof.
  intros Hs. unfold step. destruct (unwired s); [done|].
  destruct ev as [i|i k].
  - destruct (decide (i < List.length (tabs s))%nat) as [Hi|Hi].
    + exists i. by apply activateTab_active.
    + unfold activateTab. by rewrite lookup_ge_None_2 by lia.
  - destruct (i <? List.length (tabs s))%nat eqn:Hi; [|done].
    apply Nat.ltb_lt in Hi.
    destruct (keydown_activates k i s Hi) as [->|(j & Hj & ->)]; [done|].
    exists j. by apply activateTab_active.
Qed.

Lemma step_tab_ids (ev : event) (s : state) :
  tab_id <$> tabs (step ev s) = tab_id <$> tabs s.
Proof.
  unfold step. destruct (unwired s); [done|].
  destruct ev as [i|i k]; [apply activateTab_tab_ids|].
  destruct (_ <? _)%nat; [|done]. unfold keydown.
  destruct (_ =? _)%Z; [done|apply activateTab_tab_ids].
Qed.

Lemma initiallySelected_lt (ts : list tab) :
  ts ≠ [] → (initiallySelected ts < List.length ts)%nat.
Proof.
  intros Hne. unfold initiallySelected.
  destruct (list_find _ ts) as [[i t]|] eqn:Hf.
  - apply list_find_Some in Hf as (Hi & _). by apply lookup_lt_Some in Hi.
  - destruct ts; [done|]. simpl. lia.
Qed.

End TabsFacts.

(** X20.  Tabs: once [initTabs] has run on a page with at least one tab
    and one panel, and whatever clicks and key presses follow, exactly
    one tab is the active one: it alone has [aria-selected] ['true'] and
    [tabindex] ['0'], [appState.activeActionTab] is its id, and a panel
    is shown exactly when its [aria-labelledby] is that id.  The tabs
    keep their ids. *)
Theorem tabs_one_active (s : Tabs.state) (evs : list Tabs.event) :
  Tabs.unwired s = false →
  (∃ j, Tabs.active_is j (Tabs.run evs (Tabs.initTabs s)))
  ∧ Tabs.tab_id <$> Tabs.tabs (Tabs.run evs (Tabs.initTabs s))
    = Tabs.tab_id <$> Tabs.tabs s.
Proof.
  intros Hw.
  assert (Hinit : (∃ j, Tabs.active_is j (Tabs.initTabs s))
                  ∧ Tabs.tab_id <$> Tabs.tabs (Tabs.initTabs s)
                    = Tabs.tab_id <$> Tabs.tabs s).
  { unfold Tabs.initTabs. rewrite Hw. split.
    - eexists. apply activateTab_active. apply initiallySelected_lt.
      unfold Tabs.unwired in Hw. apply orb_false_iff in Hw as [Hw _].
      by apply bool_decide_eq_false in Hw.
    - apply activateTab_tab_ids. }
  revert Hinit. generalize (Tabs.initTabs s). unfold Tabs.run.
  induction evs as [|ev evs IH]; intros q [Ha Hi]; [done|].
  simpl. apply IH. split; [by apply step_active|].
  by rewrite step_tab_ids.
Qed.

Lemma tabs_one_active_witness :
  let s := Tabs.State
             [ Tabs.Tab "tab-donate" "false" "0";
               Tabs.Tab "tab-volunteer" "true" "0" ]
             [ Tabs.Panel (Some "tab-donate") false "0" false false;
               Tabs.Panel None false "0" true false ]
             "tab-donate" in
  ∃ j, Tabs.active_is j
         (Tabs.run [Tabs.Keydown 1 Tabs.ArrowRight; Tabs.Click 7]
            (Tabs.initTabs s)).
Proof.
  intros s.
  apply (tabs_one_active s [Tabs.Keydown 1 Tabs.ArrowRight; Tabs.Click 7]).
  reflexivity.
Defined.

(** X21.  Keyboard on the tab list: from any tab the arrow, Home and End
    keys land on an existing tab; ArrowRight wraps from the last tab to
    the first and ArrowLeft from the first to the last, and each undoes
    the other. *)
Theorem tab_keys_cycle (cur n : Z) :
  (0 ≤ cur < n)%Z →
  (∀ k, k ≠ Tabs.OtherKey → (0 ≤ Tabs.nextTabIndex k cur n < n)%Z)
  ∧ Tabs.nextTabIndex Tabs.ArrowRight (n - 1) n = 0%Z
  ∧ Tabs.nextTabIndex Tabs.ArrowLeft 0 n = (n - 1)%Z
  ∧ Tabs.nextTabIndex Tabs.ArrowLeft
      (Tabs.nextTabIndex Tabs.ArrowRight cur n) n = cur
  ∧ Tabs.nextTabIndex Tabs.ArrowRight
      (Tabs.nextTabIndex Tabs.ArrowLeft cur n) n = cur.
Proof.
  intros Hc.
  assert (Hright : ∀ c, (0 ≤ c < n)%Z →
            Tabs.nextTabIndex Tabs.ArrowRight c n
            = if (c + 1 =? n)%Z then 0%Z else (c + 1)%Z).
  { intros c Hr. simpl. rewrite Z.rem_mod_nonneg by lia.
    destruct (c + 1 =? n)%Z eqn:He.
    - apply Z.eqb_eq in He. rewrite He. apply Z_mod_same_full.
    - apply Z.eqb_neq in He. apply Z.mod_small. lia. }
  assert (Hleft : ∀ c, (0 ≤ c < n)%Z →
            Tabs.nextTabIndex Tabs.ArrowLeft c n
            = if (c =? 0)%Z then (n - 1)%Z else (c - 1)%Z).
  { intros c Hr. simpl. rewrite Z.rem_mod_nonneg by lia.
    destruct (c =? 0)%Z eqn:He.
    - apply Z.eqb_eq in He. subst c.
      replace (0 - 1 + n)%Z with (n - 1)%Z by lia. apply Z.mod_small. lia.
    - apply Z.eqb_neq in He.
      replace (c - 1 + n)%Z with (c - 1 + 1 * n)%Z by lia.
      rewrite Z_mod_plus_full. apply Z.mod_small. lia. }
  split; [intros k Hk; by apply nextTabIndex_range|].
  split; [rewrite Hright by lia; by rewrite Z.sub_add, Z.eqb_refl|].
  split; [by rewrite Hleft by lia|].
  split.
  - rewrite Hright by lia. destruct (cur + 1 =? n)%Z eqn:He.
    + apply Z.eqb_eq in He. rewrite Hleft by lia. simpl. lia.
    + apply Z.eqb_neq in He. rewrite Hleft by lia.
      destruct (cur + 1 =? 0)%Z eqn:He'; [apply Z.eqb_eq in He'; lia|lia].
  - rewrite Hleft by lia. destruct (cur =? 0)%Z eqn:He.
    + apply Z.eqb_eq in He. rewrite Hright by lia.
      rewrite Z.sub_add, Z.eqb_refl. lia.
    + apply Z.eqb_neq in He. rewrite Hright by lia.
      destruct (cur - 1 + 1 =? n)%Z eqn:He'; [apply Z.eqb_eq in He'; lia|lia].
Qed.

Lemma tab_keys_cycle_witness :
  Tabs.nextTabIndex Tabs.ArrowLeft
    (Tabs.nextTabIndex Tabs.ArrowRight 2 3) 3 = 2%Z.
Proof.
  apply (tab_keys_cycle 2 3). lia.
Defined.

(** X22.  The live region keeps the politeness of the call that created
    it: after a first [updateLiveRegion(m0, p0)] on a page without the
    region, whatever announcements and timer expiries follow, its
    [aria-live] is still [p0] (a later ['assertive'] announcement is
    made in a ['polite'] region), and its text is that of the last
    announcement, or empty if a timer fired after it. *)
Theorem live_region_keeps_first_politeness (m0 p0 : string)
    (evs : list LiveRegion.event) :
  ∃ r,
    LiveRegion.run (LiveRegion.Announce m0 p0 :: evs) None = Some r
    ∧ LiveRegion.politeness r = p0
    ∧ LiveRegion.text r
      = match last evs with
        | None => m0
        | Some (LiveRegion.Announce m _) => m
        | Some LiveRegion.TimerFires => ""
        end.
Proof.
  unfold LiveRegion.run. simpl.
  assert (Hgen : ∀ r0 : LiveRegion.region, ∃ r,
            fold_left (fun q ev => LiveRegion.step ev q) evs (Some r0)
            = Some r
            ∧ LiveRegion.politeness r = LiveRegion.politeness r0
            ∧ LiveRegion.text r
              = match last evs with
                | None => LiveRegion.text r0
                | Some (LiveRegion.Announce m _) => m
                | Some LiveRegion.TimerFires => ""
                end).
  { induction evs as [|ev evs IH] using rev_ind; intros r0.
    - by exists r0.
    - destruct (IH r0) as (r & Hr & Hp & Ht).
      rewrite fold_left_app, Hr, last_snoc. simpl.
      destruct ev as [m pol|]; simpl; eexists; (split; [reflexivity|]);
        by rewrite <- Hp. }
  apply (Hgen {| LiveRegion.politeness := p0; LiveRegion.text := m0 |}).
Qed.

(** X23.  The global click delegate reads [data-action] from
    [event.currentTarget], which is [body], not from the element that
    was clicked.  So a click that reaches [body] changes the theme exactly
    when [body] itself carries [data-action='toggle-theme']: with no
    such attribute on [body], clicking a [data-action='toggle-theme']
    button leaves the theme as it is. *)
Theorem click_toggles_theme_iff_body_action (path : list (option string))
    (bodyAction htmlAction : option string) (s : Theme.state) :
  Theme.currentTheme (Delegation.themeClick path bodyAction htmlAction s)
  ≠ Theme.currentTheme s
  ↔ bodyAction = Some "toggle-theme".
Proof.
  unfold Delegation.themeClick, Delegation.bodyClick, Delegation.closest.
  split.
  - intros Hne. destruct (list_find _ _) as [[i x]|]; simpl in *; [|done].
    destruct (_ <=? _)%nat; [|done].
    destruct bodyAction as [a|]; simpl in Hne; [|done].
    destruct (decide (a = "toggle-theme")) as [->|Hna]; [done|].
    exfalso. apply Hne. clear Hne.
    unfold Delegation.dispatch.
    repeat (case_match; try done).
  - intros ->.
    destruct (list_find _ _) as [[i x]|] eqn:Hf; simpl.
    + apply list_find_Some in Hf as (Hi & _ & Hmin).
      assert (Hle : (i ≤ List.length path)%nat).
      { destruct (decide (i ≤ List.length path)%nat) as [|Hgt]; [done|].
        exfalso.
        apply (Hmin (List.length path) (Some "toggle-theme")); [|lia|done].
        by rewrite lookup_app_r, Nat.sub_diag by lia. }
      apply Nat.leb_le in Hle. rewrite Hle. simpl.
      unfold Theme.toggleTheme. simpl.
      destruct (String.eqb (Theme.currentTheme s) "light") eqn:He.
      * apply String.eqb_eq in He. by rewrite He.
      * apply String.eqb_neq in He. congruence.
    + exfalso. apply list_find_None in Hf.
      rewrite Forall_app in Hf. destruct Hf as [_ Hf].
      apply Forall_cons in Hf as [Hf _]. by apply Hf.
Qed.

Section DebounceFacts.

Context {A : Type}.

Lemma debounce_calls (s : Debounce.state A) (l : list A) (a : A) :
  Debounce.run (Call <$> l ++ [a])%list s
  = {| Debounce.pending := Some a; Debounce.executed := Debounce.executed s |}.
Proof.
  unfold Debounce.run. rewrite fmap_app, fold_left_app. simpl. f_equal.
  revert s. induction l as [|b l IH]; intros s; [done|].
  simpl. by rewrite IH.
Qed.

Lemma debounce_sublist (evs : list (timed A)) :
  sublist (Debounce.executed (Debounce.run evs Debounce.initial)
           ++ option_list (Debounce.pending
                             (Debounce.run evs Debounce.initial)))%list
    (calls_of evs).
Proof.
  induction evs as [|ev evs IH] using rev_ind; [done|].
  unfold Debounce.run, calls_of in *.
  rewrite fold_left_app, omap_app. simpl.
  destruct ev as [a|]; simpl.
  - apply sublist_app; [|done].
    etrans; [|exact IH]. by apply sublist_inserts_r.
  - rewrite app_nil_r.
    destruct (Debounce.pending _) as [a|] eqn:Hp; simpl in *.
    + by rewrite app_nil_r.
    + by rewrite Hp.
Qed.

End DebounceFacts.

(** X24.  [Utils.debounce]: after any history, a burst of calls followed
    by one expiry of the timer makes exactly one call of [func], with
    the arguments of the last call of the burst; and over any trace the
    calls of [func] made are, in order, arguments of some of the calls
    received. *)
Theorem debounce_runs_last_call {A : Type} (history : list (timed A))
    (burst : list A) (a : A) :
  Debounce.executed
    (Debounce.run (history ++ (Call <$> burst ++ [a]) ++ [TimerFires])%list
       Debounce.initial)
  = (Debounce.executed (Debounce.run history Debounce.initial) ++ [a])%list
  ∧ ∀ evs : list (timed A),
      sublist (Debounce.executed (Debounce.run evs Debounce.initial))
        (calls_of evs).
Proof.
  split.
  - unfold Debounce.run. rewrite !fold_left_app.
    fold (Debounce.run history (@Debounce.initial A)).
    fold (Debounce.run (Call <$> burst ++ [a])%list
            (Debounce.run history (@Debounce.initial A))).
    by rewrite debounce_calls.
  - intros evs. etrans; [|apply debounce_sublist].
    by apply sublist_inserts_r.
Qed.

Section ThrottleFacts.

Context {A R : Type}.

Variable func : A → R.

Lemma throttle_invariant (evs : list (timed A)) :
  let s := Throttle.run func evs Throttle.initial in
  (List.length (Throttle.executed s)
   + (if Throttle.inThrottle s then 0 else 1)
   ≤ S (Throttle.expiries evs))%nat
  ∧ Throttle.lastResult s = func <$> last (Throttle.executed s)
  ∧ sublist (Throttle.executed s) (calls_of evs).
Proof.
  induction evs as [|ev evs IH] using rev_ind; [simpl; by split|].
  unfold Throttle.run, Throttle.expiries, calls_of in *.
  rewrite fold_left_app, List.filter_app, length_app, omap_app. simpl.
  destruct IH as (Hn & Hl & Hs).
  set (q := fold_left _ evs Throttle.initial) in *.
  destruct ev as [a|]; simpl.
  - unfold Throttle.call.
    destruct (Throttle.inThrottle q) eqn:Hin; simpl; rewrite ?Hin.
    + split; [lia|]. split; [done|]. by apply sublist_inserts_r.
    + rewrite length_app, last_snoc. simpl. split; [lia|].
      split; [done|]. by apply sublist_app.
  - rewrite app_nil_r. split; [destruct (Throttle.inThrottle q); lia|].
    by split.
Qed.

End ThrottleFacts.

(** X25.  [Utils.throttle]: over any trace [func] is called at most once
    more than the timer has expired, always with the arguments of one of
    the calls received; and every call of the throttled function returns
    the result of the most recent call of [func], which for a call made
    inside the interval is a result computed from earlier arguments. *)
Theorem throttle_limits_calls {A R : Type} (func : A → R)
    (evs : list (timed A)) (a : A) :
  let s := Throttle.run func evs Throttle.initial in
  (List.length (Throttle.executed s) ≤ S (Throttle.expiries evs))%nat
  ∧ sublist (Throttle.executed s) (calls_of evs)
  ∧ snd (Throttle.call func a s)
    = func <$> last (Throttle.executed (fst (Throttle.call func a s))).
Proof.
  intros s. destruct (throttle_invariant func evs) as (Hn & Hl & Hs).
  fold s in Hn, Hl, Hs.
  split; [lia|]. split; [done|].
  unfold Throttle.call. destruct (Throttle.inThrottle s); simpl; [done|].
  by rewrite last_snoc.
Qed.

(** X26.  [UI.showLoading] never attaches a loader.  [DOM.createEl] does
    not read [options.innerHTML], so a node created without [children]
    has no descendant for any selector to find; the loader is such a
    node, and [showLoading] on an existing submit button removes the
    previous loader and then throws a [TypeError].  It returns only when
    the button is missing, and then changes nothing. *)
Theorem showLoading_never_attaches (f : form_id) (p : page) :
  (∀ tag cls html matches,
     DOM.querySelector matches
       (DOM.createEl tag (CreateElOptions cls [] html)) = None)
  ∧ match submitButton (get_form f p) with
    | None => UI.showLoading f p = Return tt p
    | Some b =>
        ∃ p', UI.showLoading f p = Raise TypeError p'
              ∧ submitButton (get_form f p') = Some (UI.remove_loader b)
              ∧ calls p' = calls p
    end.
Proof.
  split; [done|].
  unfold UI.showLoading, UI.with_form. run_monad.
  destruct (submitButton (get_form f p)) as [b|] eqn:Hb; [|done].
  simpl. eexists. split; [reflexivity|].
  rewrite get_set_form, calls_set_form. simpl. by rewrite Hb.
Qed.

(** X27.  Changing a project filter never reloads the list.  The two
    selections are stored in [appState.currentFilters]; then, if the
    page has a [.project-list], [loadProjects] throws a [TypeError] in
    [UI.showLoading], before its [try] statement: no request is sent,
    nothing is announced, and the list keeps its content and banner,
    less a previous loader.  Without a [.project-list] it returns at
    once.  Either way the gateway is not called. *)
Theorem filter_change_sends_nothing (H : host) (v : ActionCenter.view) :
  let v1 :=
    ActionCenter.set_filters
      (<["projectType" := default "all" (ActionCenter.typeFilter v)]>
         (<["projectRegion" := default "all" (ActionCenter.regionFilter v)]>
            (ActionCenter.filters v))) v in
  calls (ActionCenter.forms
           (ActionCenter.final_view
              (ActionCenter.handleProjectFilterChange H v)))
  = calls (ActionCenter.forms v)
  ∧ match ActionCenter.projectList v with
    | None => ActionCenter.handleProjectFilterChange H v
              = ActionCenter.Fulfilled v1
    | Some c =>
        ActionCenter.handleProjectFilterChange H v
        = ActionCenter.Thrown TypeError
            (ActionCenter.with_list (ActionCenter.set_loader false) v1)
        ∧ ActionCenter.projectList
            (ActionCenter.with_list (ActionCenter.set_loader false) v1)
          = Some (ActionCenter.Listing false (ActionCenter.banner c)
                    (ActionCenter.shown c))
        ∧ ActionCenter.liveRegion
            (ActionCenter.with_list (ActionCenter.set_loader false) v1)
          = ActionCenter.liveRegion v
    end.
Proof.
  intros v1.
  unfold ActionCenter.handleProjectFilterChange, ActionCenter.loadProjects.
  fold v1. simpl.
  destruct (ActionCenter.projectList v) as [c|] eqn:Hc; simpl.
  - by repeat split.
  - by split.
Qed.
